(** * The Tor seccomp sandbox (src/lib/sandbox/sandbox.c)

    A shallow embedding of the sandbox policy compiler: the registry of
    path exceptions, the string protection arena, the rule installers and
    the filter installation, together with the properties of the
    specification that can be stated over them. *)

From Stdlib Require Import ZArith Lia List Bool String.
From stdpp Require Import base decidable option list gmap strings.

Local Open Scope Z_scope.

(** ** Syscall names

    Every name that occurs in the file under [SCMP_SYS(...)]. *)

Inductive sysname : Type :=
  | access | brk | clock_gettime | close | clone | dup | clone3
  | epoll_create | epoll_wait | epoll_pwait | eventfd2 | pipe2 | pipe
  | fchmod | fcntl | fstat | fstat64 | fsync | futex | getdents
  | getdents64 | getegid | getegid32 | geteuid | geteuid32 | getgid
  | getgid32 | getpid | getrlimit | gettimeofday | gettid | getuid
  | getuid32 | lseek | _llseek | lstat | mkdir | mlockall | mmap | munmap
  | nanosleep | prlimit | prlimit64 | read | rt_sigreturn | rseq
  | sched_getaffinity | sched_yield | sendmsg | set_robust_list
  | setrlimit | shutdown | sigaltstack | sigreturn | stat | uname | wait4
  | write | writev | exit_group | exit | madvise | stat64 | getrandom
  | sysinfo | recv | send | bind | listen | connect | getsockname
  | getpeername | recvmsg | recvfrom | sendto | unlink | unlinkat | poll
  | newfstatat
  | rt_sigaction | rt_sigprocmask | time | socketcall | accept4 | mmap2
  | chown | chmod | open | openat | rename | fcntl64 | epoll_ctl | prctl
  | mprotect | flock | mremap | socket | setsockopt | getsockopt
  | socketpair | ioctl | kill.

(** The number of a name in the declaration above; it only serves to
    decide equality of names. *)
Definition sysname_code (n : sysname) : positive :=
  match n with
  | access => 1 | brk => 2 | clock_gettime => 3 | close => 4 | clone => 5
  | dup => 6 | clone3 => 7 | epoll_create => 8 | epoll_wait => 9
  | epoll_pwait => 10 | eventfd2 => 11 | pipe2 => 12 | pipe => 13
  | fchmod => 14 | fcntl => 15 | fstat => 16 | fstat64 => 17 | fsync => 18
  | futex => 19 | getdents => 20 | getdents64 => 21 | getegid => 22
  | getegid32 => 23 | geteuid => 24 | geteuid32 => 25 | getgid => 26
  | getgid32 => 27 | getpid => 28 | getrlimit => 29 | gettimeofday => 30
  | gettid => 31 | getuid => 32 | getuid32 => 33 | lseek => 34
  | _llseek => 35 | lstat => 36 | mkdir => 37 | mlockall => 38 | mmap => 39
  | munmap => 40 | nanosleep => 41 | prlimit => 42 | prlimit64 => 43
  | read => 44 | rt_sigreturn => 45 | rseq => 46 | sched_getaffinity => 47
  | sched_yield => 48 | sendmsg => 49 | set_robust_list => 50
  | setrlimit => 51 | shutdown => 52 | sigaltstack => 53 | sigreturn => 54
  | stat => 55 | uname => 56 | wait4 => 57 | write => 58 | writev => 59
  | exit_group => 60 | exit => 61 | madvise => 62 | stat64 => 63
  | getrandom => 64 | sysinfo => 65 | recv => 66 | send => 67 | bind => 68
  | listen => 69 | connect => 70 | getsockname => 71 | getpeername => 72
  | recvmsg => 73 | recvfrom => 74 | sendto => 75 | unlink => 76
  | unlinkat => 77 | poll => 78 | newfstatat => 79 | rt_sigaction => 80
  | rt_sigprocmask => 81 | time => 82 | socketcall => 83 | accept4 => 84
  | mmap2 => 85 | chown => 86 | chmod => 87 | open => 88 | openat => 89
  | rename => 90 | fcntl64 => 91 | epoll_ctl => 92 | prctl => 93
  | mprotect => 94 | flock => 95 | mremap => 96 | socket => 97
  | setsockopt => 98 | getsockopt => 99 | socketpair => 100 | ioctl => 101
  | kill => 102
  end%positive.

#[global] Instance sysname_eq_dec : EqDecision sysname.
Proof.
  intros a b.
  destruct (decide (sysname_code a = sysname_code b)) as [E|E].
  - left.
    abstract (destruct a; destruct b;
              first [reflexivity | discriminate E]).
  - right. abstract (intros ->; apply E; reflexivity).
Defined.

(** [param->syscall] holds either a syscall of the platform or the phony
    number the file reserves for opendir ([PHONY_OPENDIR_SYSCALL], -2,
    which is no syscall of any platform).  Names are kept symbolic: the
    code only ever compares them for equality. *)
Inductive syscall_t : Type :=
  | SCMP_SYS (n : sysname)
  | PHONY_OPENDIR_SYSCALL.

#[global] Instance syscall_t_eq_dec : EqDecision syscall_t.
Proof. solve_decision. Defined.

(** ** Conditional compilation

    The preprocessor symbols the file tests with [#ifdef]; an environment
    says which of them are defined.  [NR_x] stands for [__NR_x], [i386]
    for [__i386__] (and [__i386]), [CHECK_LIBC_VERSION] for the symbol the
    file defines when both glibc version headers are present, and
    [HAVE_SIGXFSZ], [HAVE_IP_TRANSPARENT] and [HAVE_IPV6_V6ONLY] for the
    tests [#ifdef SIGXFSZ], [#ifdef IP_TRANSPARENT] and
    [#ifdef IPV6_V6ONLY] on constants of the system headers. *)
Inductive macro : Type :=
  | USE_LIBSECCOMP | CHECK_LIBC_VERSION | i386
  | NR_clone3 | NR_epoll_pwait | HAVE_EVENTFD | HAVE_PIPE2 | HAVE_PIPE
  | NR_fchmod | NR_fstat64 | NR_getegid32 | NR_geteuid32 | NR_getgid32
  | NR_getrlimit | NR_getuid32 | NR__llseek | NR_mmap | NR_nanosleep
  | NR_prlimit | NR_prlimit64 | NR_rseq | NR_sched_yield | NR_setrlimit
  | NR_sigaltstack | NR_sigreturn | NR_stat64 | NR_getrandom | NR_sysinfo
  | ENABLE_NSS | NR_getpeername | NR_unlinkat | NR_newfstatat
  | HAVE_SIGXFSZ | NR_time | NR_mmap2 | HAVE_KIST_SUPPORT | HAVE_SYSTEMD
  | HAVE_IP_TRANSPARENT | HAVE_IPV6_V6ONLY | HAVE_LINUX_NETFILTER_IPV4_H
  | HAVE_LINUX_NETFILTER_IPV6_IP6_TABLES_H | NR_fcntl64 | NR_kill.

(** ** Machine integers *)

(** A value received as a C [int]. *)
Definition to_int (z : Z) : Z := (z + 2 ^ 31) mod 2 ^ 32 - 2 ^ 31.

(** Arithmetic on [size_t], taken as 64 bits wide (LP64). *)
Definition to_size_t (z : Z) : Z := z mod 2 ^ 64.

(** Conversion to [scmp_datum_t], an unsigned 64-bit integer. *)
Definition to_datum (z : Z) : Z := z mod 2 ^ 64.

(** Conversion to [unsigned int]. *)
Definition to_unsigned_int (z : Z) : Z := z mod 2 ^ 32.

(** ** Constants of the system headers

    The headers are not part of the file; the values are those of Linux on
    x86.  They only appear as data of the emitted rules.  [O_LARGEFILE]
    differs between the 32-bit and the 64-bit build and is defined with
    the environment below. *)
Module Hdr.
Definition SIGHUP := 1.
Definition SIGINT := 2.
Definition SIGILL := 4.
Definition SIGBUS := 7.
Definition SIGFPE := 8.
Definition SIGUSR1 := 10.
Definition SIGSEGV := 11.
Definition SIGUSR2 := 12.
Definition SIGPIPE := 13.
Definition SIGTERM := 15.
Definition SIGCHLD := 17.
Definition SIGXFSZ := 25.
Definition SIGIO := 29.
Definition SIGSYS := 31.
Definition SIG_UNBLOCK := 1.
Definition SIG_SETMASK := 2.
Definition SOCK_STREAM := 1.
Definition SOCK_DGRAM := 2.
Definition SOCK_RAW := 3.
Definition SOCK_NONBLOCK := 2048.
Definition SOCK_CLOEXEC := 524288.
Definition PF_FILE := 1.
Definition PF_UNIX := 1.
Definition PF_INET := 2.
Definition PF_INET6 := 10.
Definition PF_NETLINK := 16.
Definition IPPROTO_IP := 0.
Definition IPPROTO_TCP := 6.
Definition IPPROTO_UDP := 17.
Definition IPPROTO_IPV6 := 41.
Definition PROT_NONE := 0.
Definition PROT_READ := 1.
Definition PROT_WRITE := 2.
Definition PROT_EXEC := 4.
Definition MAP_PRIVATE := 2.
Definition MAP_FIXED := 16.
Definition MAP_ANONYMOUS := 32.
Definition MAP_DENYWRITE := 2048.
Definition MAP_NORESERVE := 16384.
Definition MAP_STACK := 131072.
Definition MREMAP_MAYMOVE := 1.
Definition AT_FDCWD := -100.
Definition O_RDONLY := 0.
Definition O_RDWR := 2.
Definition O_NONBLOCK := 2048.
Definition O_DIRECTORY := 65536.
Definition O_CLOEXEC := 524288.
Definition F_GETFD := 1.
Definition F_SETFD := 2.
Definition F_GETFL := 3.
Definition F_SETFL := 4.
Definition FD_CLOEXEC := 1.
Definition SOL_IP := 0.
Definition SOL_SOCKET := 1.
Definition SOL_TCP := 6.
Definition SOL_IPV6 := 41.
Definition SO_REUSEADDR := 2.
Definition SO_ERROR := 4.
Definition SO_SNDBUF := 7.
Definition SO_RCVBUF := 8.
Definition SO_ACCEPTCONN := 30.
Definition SO_SNDBUFFORCE := 32.
Definition IP_TRANSPARENT := 19.
Definition IPV6_V6ONLY := 26.
Definition SO_ORIGINAL_DST := 80.
Definition IP6T_SO_ORIGINAL_DST := 80.
Definition TCP_INFO := 11.
Definition SIOCOUTQNSD := 35147.
Definition EPOLL_CTL_ADD := 1.
Definition EPOLL_CTL_DEL := 2.
Definition EPOLL_CTL_MOD := 3.
Definition PR_SET_DUMPABLE := 4.
Definition PR_SET_SECCOMP := 22.
Definition PR_SET_NO_NEW_PRIVS := 38.
Definition SECCOMP_MODE_FILTER := 2.
Definition LOCK_EX := 2.
Definition LOCK_NB := 4.
Definition LOCK_UN := 8.
Definition FUTEX_WAIT_PRIVATE := 128.
Definition FUTEX_WAKE_PRIVATE := 129.
Definition FUTEX_WAIT_BITSET_PRIVATE := 137.
Definition FUTEX_CLOCK_REALTIME := 256.
Definition EPERM := 1.
Definition ECANCELED := 125.
End Hdr.
Import Hdr.

(** Malloc mprotect limit in bytes. *)
Definition MALLOC_MP_LIM : Z := 20 * 1024 * 1024.

(** ** The libseccomp interface

    A rule is an action, a syscall and a conjunction of comparisons on the
    syscall's arguments; a filter context is a default action and the
    rules that [seccomp_rule_add] has accepted so far, in the order of the
    calls.  What libseccomp keeps of them for a syscall, and in which
    order the kernel tests them, is [seccomp_db] below. *)

Inductive scmp_action : Type :=
  | SCMP_ACT_KILL
  | SCMP_ACT_ALLOW
  | SCMP_ACT_ERRNO (errno : Z).

#[global] Instance scmp_action_eq_dec : EqDecision scmp_action.
Proof. solve_decision. Defined.

Inductive scmp_compare : Type :=
  | SCMP_CMP_NE | SCMP_CMP_LT | SCMP_CMP_LE | SCMP_CMP_EQ
  | SCMP_CMP_GE | SCMP_CMP_GT | SCMP_CMP_MASKED_EQ.

(** [struct scmp_arg_cmp]. *)
Record scmp_arg_cmp : Type := mk_arg_cmp {
  cmp_arg : nat;
  cmp_op : scmp_compare;
  cmp_datum_a : Z;
  cmp_datum_b : Z
}.

Record scmp_rule : Type := mk_rule {
  rule_act : scmp_action;
  rule_call : syscall_t;
  rule_args : list scmp_arg_cmp
}.

Record scmp_filter_ctx : Type := mk_ctx {
  ctx_default : scmp_action;
  ctx_rules : list scmp_rule
}.

Definition SCMP_CMP4 (a : nat) (b : scmp_compare) (c d : Z) : scmp_arg_cmp :=
  mk_arg_cmp a b (to_datum c) (to_datum d).

Definition SCMP_CMP (a : nat) (b : scmp_compare) (c : Z) : scmp_arg_cmp :=
  SCMP_CMP4 a b c 0.

(** [SCMP_CMP_STR(a,b,c)] casts the pointer [c] through [intptr_t]; [c] is
    the pointer's value here. *)
Definition SCMP_CMP_STR (a : nat) (b : scmp_compare) (c : Z) : scmp_arg_cmp :=
  SCMP_CMP4 a b c 0.

(** The mask is negated at the width of [scmp_datum_t]. *)
Definition SCMP_CMP_MASKED (a : nat) (b c : Z) : scmp_arg_cmp :=
  SCMP_CMP4 a SCMP_CMP_MASKED_EQ (Z.lnot (to_datum b)) c.

(** A system call as the kernel filter sees it: the syscall and its
    arguments, each an unsigned 64-bit value. *)
Record syscall_call : Type := mk_call {
  call_nr : syscall_t;
  call_args : list Z
}.

Definition arg_cmp_matches (c : scmp_arg_cmp) (args : list Z) : bool :=
  let v := nth (cmp_arg c) args 0 in
  match cmp_op c with
  | SCMP_CMP_NE => negb (v =? cmp_datum_a c)
  | SCMP_CMP_LT => v <? cmp_datum_a c
  | SCMP_CMP_LE => v <=? cmp_datum_a c
  | SCMP_CMP_EQ => v =? cmp_datum_a c
  | SCMP_CMP_GE => v >=? cmp_datum_a c
  | SCMP_CMP_GT => v >? cmp_datum_a c
  | SCMP_CMP_MASKED_EQ => Z.land v (cmp_datum_a c) =? cmp_datum_b c
  end.

Definition rule_matches (r : scmp_rule) (c : syscall_call) : bool :=
  bool_decide (rule_call r = call_nr c)
  && forallb (fun a => arg_cmp_matches a (call_args c)) (rule_args r).

(** Some rule with action [act] matches the call. *)
Definition some_rule (act : scmp_action) (ctx : scmp_filter_ctx)
    (c : syscall_call) : bool :=
  existsb (fun r => bool_decide (rule_act r = act) && rule_matches r c)
          (ctx_rules ctx).

(** The verdict on a call when every rule that matches it is honoured and
    the more restrictive action wins.  libseccomp's filter gives this
    verdict on a syscall whose rules all allow (lemma
    [seccomp_verdict_allow_rules]); the installers of this file add such
    rules for every syscall but mremap and munmap. *)
Definition union_verdict (ctx : scmp_filter_ctx) (c : syscall_call)
    : scmp_action :=
  if some_rule SCMP_ACT_KILL ctx c then SCMP_ACT_KILL
  else if some_rule SCMP_ACT_ALLOW ctx c then SCMP_ACT_ALLOW
  else ctx_default ctx.

(** *** The rule database of libseccomp

    libseccomp keeps, for each syscall, the chains of comparisons added
    for it, and generates a filter that tests them one after the other:
    the first chain whose comparisons all hold gives the action, and the
    default action applies when none does.  As far as the rules of this
    file go:
    - a rule without comparisons replaces every chain of its syscall: the
      syscall then has that one action whatever its arguments;
    - a rule with comparisons that is added when the syscall already has
      a rule without comparisons is dropped;
    - the chains are tested in the order of the argument their first
      comparison bears on, highest argument first.  The rules of this
      file that share a syscall and that argument share their action, so
      that their order is immaterial; they are kept in the order they
      came in.
    [seccomp_rule_add] refuses with [-EEXIST] a chain that is already
    there with another action; its status is the environment's. *)

(** The lowest argument a rule compares: libseccomp orders the comparisons
    of a chain by argument. *)
Definition chain_arg (r : scmp_rule) : nat :=
  match map cmp_arg (rule_args r) with
  | [] => 0%nat
  | a :: l => fold_right Nat.min a l
  end.

Definition unconditional (r : scmp_rule) : bool :=
  match rule_args r with [] => true | _ :: _ => false end.

Fixpoint db_insert (r : scmp_rule) (db : list scmp_rule) : list scmp_rule :=
  match db with
  | [] => [r]
  | x :: db' =>
      if (chain_arg x <? chain_arg r)%nat then r :: x :: db'
      else x :: db_insert r db'
  end.

(** The chains of a syscall after one more rule for it. *)
Definition db_add (db : list scmp_rule) (r : scmp_rule) : list scmp_rule :=
  if unconditional r then [r]
  else if existsb unconditional db then db
  else db_insert r db.

(** The chains libseccomp holds for [call] once [rules] have been added,
    in the order the generated filter tests them. *)
Definition seccomp_db (call : syscall_t) (rules : list scmp_rule)
    : list scmp_rule :=
  fold_left db_add
    (List.filter (fun r => bool_decide (rule_call r = call)) rules) [].

(** The verdict of one loaded filter on a call. *)
Definition seccomp_verdict (ctx : scmp_filter_ctx) (c : syscall_call)
    : scmp_action :=
  match find (fun r => rule_matches r c)
             (seccomp_db (call_nr c) (ctx_rules ctx)) with
  | Some r => rule_act r
  | None => ctx_default ctx
  end.

(** ** The environment

    What the code obtains from the build and from the libraries and the
    kernel it calls: which preprocessor symbols are defined, the glibc
    version, and the outcome of each external call. *)
Record environment : Type := mk_env {
  (** whether a preprocessor symbol is defined *)
  defined : macro -> bool;
  (** [gnu_get_libc_version()], as [tor_sscanf(version, "%d.%d", ...)]
      leaves [libc_major] and [libc_minor]; [None] for a NULL version *)
  gnu_get_libc_version : option (Z * Z);
  (** whether [seccomp_init] returns a context *)
  os_seccomp_init : bool;
  (** [mmap(NULL, len, ...)]: the base address, or [None] for MAP_FAILED *)
  os_mmap : Z -> option N;
  (** [mprotect(addr, len, prot)] *)
  os_mprotect : Z -> Z -> Z -> Z;
  (** [seccomp_rule_add], given the rules already in the context *)
  os_seccomp_rule_add : list scmp_rule -> scmp_rule -> Z;
  (** [seccomp_load], in a process that may load a filter *)
  os_seccomp_load : scmp_filter_ctx -> Z;
  (** [sigaction(SIGSYS, ...)] and [sigprocmask(SIG_UNBLOCK, ...)] *)
  os_sigaction : Z;
  os_sigprocmask : Z
}.

(** [O_LARGEFILE] as the C library defines it on x86: 0100000 in the
    32-bit build, and 0 in the 64-bit build, where every file offset is
    64 bits wide. *)
Definition O_LARGEFILE (e : environment) : Z :=
  if defined e i386 then 32768 else 0.

(** ** Platform capability probe *)

Section Probe.
Variable e : environment.

(* Return true the libc version is greater or equal than major.minor. *)
Definition is_libc_at_least (major minor : Z) : bool :=
  if defined e CHECK_LIBC_VERSION then
    match gnu_get_libc_version e with
    | None => false
    | Some (libc_major, libc_minor) =>
        if libc_major >? major then true
        else if (libc_major =? major) && (libc_minor >=? minor) then true
        else false
    end
  else false.

Definition libc_uses_openat_for_open : bool :=
  is_libc_at_least 2 26.

(* libc 2.27 and above or between 2.15 (inclusive) and 2.22 (exclusive) *)
Definition libc_uses_openat_for_opendir : bool :=
  is_libc_at_least 2 27
  || (is_libc_at_least 2 15 && negb (is_libc_at_least 2 22)).

Definition libc_negative_constant_needs_cast : bool :=
  is_libc_at_least 2 27.

(* For negative constants, the rule to add depends on the glibc version. *)
Definition SCMP_CMP_NEG (a : nat) (op : scmp_compare) (b : Z)
    : scmp_arg_cmp :=
  if libc_negative_constant_needs_cast
  then SCMP_CMP a op (to_unsigned_int b)
  else SCMP_CMP_STR a op b.
End Probe.

(** ** The exception registry *)

(** A non-NULL [char *]: the address it holds and the NUL-terminated
    string found there. *)
Record cstr : Type := mk_cstr {
  c_addr : Z;
  c_str : string
}.

#[global] Instance cstr_eq_dec : EqDecision cstr.
Proof. solve_decision. Defined.

Definition strlen (s : cstr) : Z := Z.of_nat (String.length (c_str s)).

(** [smp_param_t].  [value] is dereferenced without a test wherever it is
    used, so it is never NULL; [value2] is NULL for all but rename. *)
Record smp_param_t : Type := mk_param {
  syscall : syscall_t;
  value : cstr;
  value2 : option cstr;
  prot : Z
}.

(** [sandbox_cfg_t *]: the linked list of elements, each holding its
    parameter; NULL is the empty list. *)
Abbreviation sandbox_cfg_t := (list smp_param_t).

Definition set_value (p : smp_param_t) (v : cstr) : smp_param_t :=
  mk_param (syscall p) v (value2 p) (prot p).
Definition set_value2 (p : smp_param_t) (v : option cstr) : smp_param_t :=
  mk_param (syscall p) (value p) v (prot p).
Definition set_prot (p : smp_param_t) (b : Z) : smp_param_t :=
  mk_param (syscall p) (value p) (value2 p) b.

(** The string arguments of an element, in the order the code visits
    them. *)
Definition param_strings (p : smp_param_t) : list cstr :=
  value p :: match value2 p with Some v => [v] | None => [] end.

Definition cfg_strings (cfg : sandbox_cfg_t) : list cstr :=
  flat_map param_strings cfg.

(** Process-wide state: the two static variables of the file, and what
    the process has handed to the kernel and the C library. *)
Record world : Type := mk_world {
  sandbox_active : Z;
  filter_dynamic : sandbox_cfg_t;
  (** filters loaded by [seccomp_load], oldest first *)
  kernel_filters : list scmp_filter_ctx;
  (** [setenv("LIBC_FATAL_STDERR_", "1", 1)] was called *)
  libc_fatal_stderr : bool;
  (** the SIGSYS handler is registered *)
  sigsys_handler : bool
}.

Definition initial_world : world := mk_world 0 [] [] false false.

Definition new_element2 (sc : syscall_t) (v : cstr) (v2 : option cstr)
    : smp_param_t :=
  mk_param sc v v2 0.

Definition new_element (sc : syscall_t) (v : cstr) : smp_param_t :=
  new_element2 sc v None.

Section Registry.
Variable e : environment.

Definition SCMP_stat : syscall_t :=
  if defined e NR_stat64 then SCMP_SYS stat64 else SCMP_SYS stat.

(** The registration functions: each returns its status, the caller's
    list and the process state.  Without libseccomp they are the stubs
    at the end of the file, which ignore their arguments. *)
Definition sandbox_cfg_allow_stat_filename (w : world) (cfg : sandbox_cfg_t)
    (file : cstr) : Z * sandbox_cfg_t * world :=
  if defined e USE_LIBSECCOMP
  then (0, new_element SCMP_stat file :: cfg, w)
  else (0, cfg, w).

Definition sandbox_cfg_allow_open_filename (w : world) (cfg : sandbox_cfg_t)
    (file : cstr) : Z * sandbox_cfg_t * world :=
  if defined e USE_LIBSECCOMP
  then (0, new_element (SCMP_SYS open) file :: cfg, w)
  else (0, cfg, w).

Definition sandbox_cfg_allow_chmod_filename (w : world) (cfg : sandbox_cfg_t)
    (file : cstr) : Z * sandbox_cfg_t * world :=
  if defined e USE_LIBSECCOMP
  then (0, new_element (SCMP_SYS chmod) file :: cfg, w)
  else (0, cfg, w).

Definition sandbox_cfg_allow_chown_filename (w : world) (cfg : sandbox_cfg_t)
    (file : cstr) : Z * sandbox_cfg_t * world :=
  if defined e USE_LIBSECCOMP
  then (0, new_element (SCMP_SYS chown) file :: cfg, w)
  else (0, cfg, w).

Definition sandbox_cfg_allow_rename (w : world) (cfg : sandbox_cfg_t)
    (file1 file2 : cstr) : Z * sandbox_cfg_t * world :=
  if defined e USE_LIBSECCOMP
  then (0, new_element2 (SCMP_SYS rename) file1 (Some file2) :: cfg, w)
  else (0, cfg, w).

Definition sandbox_cfg_allow_openat_filename (w : world)
    (cfg : sandbox_cfg_t) (file : cstr) : Z * sandbox_cfg_t * world :=
  if defined e USE_LIBSECCOMP
  then (0, new_element (SCMP_SYS openat) file :: cfg, w)
  else (0, cfg, w).

Definition sandbox_cfg_allow_opendir_dirname (w : world)
    (cfg : sandbox_cfg_t) (dir : cstr) : Z * sandbox_cfg_t * world :=
  if defined e USE_LIBSECCOMP
  then (0, new_element PHONY_OPENDIR_SYSCALL dir :: cfg, w)
  else (0, cfg, w).
End Registry.

(** ** The string protection arena *)

(** The locals of [prot_strings] that [prot_strings_helper] updates
    through pointers, and the protected memory it writes: [pr_mem] lists
    the strings copied so far, each with the address it was copied to. *)
Record prot_state : Type := mk_prot_state {
  locations : gmap string Z;
  pr_mem_next : Z;
  pr_mem_left : Z;
  pr_mem : list (Z * string)
}.

(** [strmap_get] returns NULL for a key that is not in the map. *)
Definition strmap_get (m : gmap string Z) (key : string) : Z :=
  default 0 (m !! key).

Definition prot_strings_helper (st : prot_state) (value_p : option cstr)
    : Z * prot_state * option cstr :=
  match value_p with
  | None => (0, st, None)
  | Some param_val =>
      let param_size := to_size_t (strlen param_val + 1) in
      let location := strmap_get (locations st) (c_str param_val) in
      if negb (location =? 0) then
        (* We already interned this string. *)
        (0, st, Some (mk_cstr location (c_str param_val)))
      else if pr_mem_left st >=? param_size then
        (* copy to protected *)
        let location := pr_mem_next st in
        (0,
         mk_prot_state
           (<[c_str param_val := location]> (locations st))
           (pr_mem_next st + param_size)
           (pr_mem_left st - param_size)
           (pr_mem st ++ [(location, c_str param_val)]),
         Some (mk_cstr location (c_str param_val)))
      else (-1, st, value_p)
  end.

Arguments prot_strings_helper : simpl never.

(** The first loop of [prot_strings]: total number of bytes required. *)
Fixpoint prot_strings_size (pr_mem_size : Z) (cfg : sandbox_cfg_t) : Z :=
  match cfg with
  | [] => pr_mem_size
  | el :: next =>
      let pr_mem_size := to_size_t (pr_mem_size + (strlen (value el) + 1)) in
      let pr_mem_size :=
        match value2 el with
        | Some v2 => to_size_t (pr_mem_size + (strlen v2 + 1))
        | None => pr_mem_size
        end in
      prot_strings_size pr_mem_size next
  end.

(** The second loop of [prot_strings]: change el value pointer to
    protected.  The elements are updated in place, so those visited before
    a failure stay changed. *)
Fixpoint prot_strings_copy (st : prot_state) (cfg : sandbox_cfg_t)
    : Z * prot_state * sandbox_cfg_t :=
  match cfg with
  | [] => (0, st, [])
  | el :: next =>
      let '(rc, st, v) := prot_strings_helper st (Some (value el)) in
      let el := set_value el (default (value el) v) in
      if rc <? 0 then (-2, st, el :: next)
      else
        let '(rc, st, v2) := prot_strings_helper st (value2 el) in
        let el := set_value2 el v2 in
        if rc <? 0 then (-2, st, el :: next)
        else
          let el := set_prot el 1 in
          let '(ret, st, next) := prot_strings_copy st next in
          (ret, st, el :: next)
  end.

(** ** Adding rules to a filter context *)

(** A computation on the filter context that returns an [int]. *)
Definition step : Type := scmp_filter_ctx -> Z * scmp_filter_ctx.

(** [rc = a; if (rc) return rc; b] *)
Definition and_then (a b : step) : step :=
  fun ctx => let '(rc, ctx') := a ctx in
             if rc =? 0 then b ctx' else (rc, ctx').

Notation "a >> b" := (and_then a b) (at level 85, right associativity).

Definition ret (rc : Z) : step := fun ctx => (rc, ctx).

(** [#ifdef m ... #endif] around a rule. *)
Definition ifdef (e : environment) (m : macro) (a : step) : step :=
  if defined e m then a else ret 0.

Section Rules.
Variable e : environment.

(** [seccomp_rule_add]: when libseccomp accepts the rule, the context
    records it after those it holds already.  What libseccomp makes of
    the rules of a syscall, where a rule without comparisons replaces the
    others, is accounted for in [seccomp_db], from this record. *)
Definition seccomp_rule_add (act : scmp_action) (call : syscall_t)
    (args : list scmp_arg_cmp) : step :=
  fun ctx =>
    let r := mk_rule act call args in
    let rc := to_int (os_seccomp_rule_add e (ctx_rules ctx) r) in
    if rc =? 0
    then (0, mk_ctx (ctx_default ctx) (ctx_rules ctx ++ [r]))
    else (rc, ctx).

Definition seccomp_rule_add_0 act call := seccomp_rule_add act call [].
Definition seccomp_rule_add_1 act call f1 := seccomp_rule_add act call [f1].
Definition seccomp_rule_add_2 act call f1 f2 :=
  seccomp_rule_add act call [f1; f2].
Definition seccomp_rule_add_3 act call f1 f2 f3 :=
  seccomp_rule_add act call [f1; f2; f3].
Definition seccomp_rule_add_4 act call f1 f2 f3 f4 :=
  seccomp_rule_add act call [f1; f2; f3; f4].

(** [for (i = 0; i < ARRAY_LENGTH(param); i++) { rc = ...; if (rc) break; }] *)
Fixpoint for_each {A : Type} (f : A -> step) (l : list A) : step :=
  match l with
  | [] => ret 0
  | x :: l' => f x >> for_each f l'
  end.
End Rules.

(** ** The parameterized rule installers *)

Local Infix "|||" := Z.lor (at level 50, left associativity).

Section Installers.
Variable e : environment.

Local Abbreviation seccomp_rule_add_0 := (seccomp_rule_add_0 e).
Local Abbreviation seccomp_rule_add_1 := (seccomp_rule_add_1 e).
Local Abbreviation seccomp_rule_add_2 := (seccomp_rule_add_2 e).
Local Abbreviation seccomp_rule_add_3 := (seccomp_rule_add_3 e).
Local Notation "'#ifdef' m a" := (ifdef e m a)
  (at level 10, m at level 9, a at level 9).

Definition sb_rt_sigaction (cfg : sandbox_cfg_t) : step :=
  let param := [SIGINT; SIGTERM; SIGPIPE; SIGUSR1; SIGUSR2; SIGHUP; SIGCHLD;
                SIGSEGV; SIGILL; SIGFPE; SIGBUS; SIGSYS; SIGIO]
               ++ (if defined e HAVE_SIGXFSZ then [SIGXFSZ] else []) in
  for_each (fun sig =>
      seccomp_rule_add_1 SCMP_ACT_ALLOW (SCMP_SYS rt_sigaction)
        (SCMP_CMP 0 SCMP_CMP_EQ sig))
    param.

Definition sb_time (cfg : sandbox_cfg_t) : step :=
  #ifdef NR_time
    (seccomp_rule_add_1 SCMP_ACT_ALLOW (SCMP_SYS time)
       (SCMP_CMP 0 SCMP_CMP_EQ 0)).

Definition sb_accept4 (cfg : sandbox_cfg_t) : step :=
  #ifdef i386
    (seccomp_rule_add_1 SCMP_ACT_ALLOW (SCMP_SYS socketcall)
       (SCMP_CMP 0 SCMP_CMP_EQ 18)) >>
  seccomp_rule_add_1 SCMP_ACT_ALLOW (SCMP_SYS accept4)
    (SCMP_CMP_MASKED 3 (SOCK_CLOEXEC ||| SOCK_NONBLOCK) 0).

Definition sb_mmap2 (cfg : sandbox_cfg_t) : step :=
  seccomp_rule_add_2 SCMP_ACT_ALLOW (SCMP_SYS mmap2)
    (SCMP_CMP 2 SCMP_CMP_EQ PROT_READ)
    (SCMP_CMP 3 SCMP_CMP_EQ MAP_PRIVATE) >>
  seccomp_rule_add_2 SCMP_ACT_ALLOW (SCMP_SYS mmap2)
    (SCMP_CMP 2 SCMP_CMP_EQ PROT_NONE)
    (SCMP_CMP 3 SCMP_CMP_EQ (MAP_PRIVATE ||| MAP_ANONYMOUS ||| MAP_NORESERVE)) >>
  seccomp_rule_add_2 SCMP_ACT_ALLOW (SCMP_SYS mmap2)
    (SCMP_CMP 2 SCMP_CMP_EQ (PROT_READ ||| PROT_WRITE))
    (SCMP_CMP 3 SCMP_CMP_EQ (MAP_PRIVATE ||| MAP_ANONYMOUS)) >>
  seccomp_rule_add_2 SCMP_ACT_ALLOW (SCMP_SYS mmap2)
    (SCMP_CMP 2 SCMP_CMP_EQ (PROT_READ ||| PROT_WRITE))
    (SCMP_CMP 3 SCMP_CMP_EQ (MAP_PRIVATE ||| MAP_ANONYMOUS ||| MAP_STACK)) >>
  seccomp_rule_add_2 SCMP_ACT_ALLOW (SCMP_SYS mmap2)
    (SCMP_CMP 2 SCMP_CMP_EQ (PROT_READ ||| PROT_WRITE))
    (SCMP_CMP 3 SCMP_CMP_EQ (MAP_PRIVATE ||| MAP_FIXED ||| MAP_DENYWRITE)) >>
  seccomp_rule_add_2 SCMP_ACT_ALLOW (SCMP_SYS mmap2)
    (SCMP_CMP 2 SCMP_CMP_EQ (PROT_READ ||| PROT_WRITE))
    (SCMP_CMP 3 SCMP_CMP_EQ (MAP_PRIVATE ||| MAP_FIXED ||| MAP_ANONYMOUS)) >>
  seccomp_rule_add_2 SCMP_ACT_ALLOW (SCMP_SYS mmap2)
    (SCMP_CMP 2 SCMP_CMP_EQ (PROT_READ ||| PROT_EXEC))
    (SCMP_CMP 3 SCMP_CMP_EQ (MAP_PRIVATE ||| MAP_DENYWRITE)).

(** Allow a single file to be opened.  If [use_openat] is true, we're
    using a libc that remaps all the opens into openats. *)
Definition allow_file_open (use_openat : bool) (file : cstr) : step :=
  if use_openat then
    seccomp_rule_add_2 SCMP_ACT_ALLOW (SCMP_SYS openat)
      (SCMP_CMP_NEG e 0 SCMP_CMP_EQ AT_FDCWD)
      (SCMP_CMP_STR 1 SCMP_CMP_EQ (c_addr file))
  else
    seccomp_rule_add_1 SCMP_ACT_ALLOW (SCMP_SYS open)
      (SCMP_CMP_STR 0 SCMP_CMP_EQ (c_addr file)).

(** [param != NULL && param->prot == 1 && param->syscall == sc] *)
Definition param_is (sc : syscall_t) (param : smp_param_t) : bool :=
  (prot param =? 1) && bool_decide (syscall param = sc).

Definition sb_open (cfg : sandbox_cfg_t) : step :=
  let use_openat := libc_uses_openat_for_open e in
  for_each (fun param =>
      if param_is (SCMP_SYS open) param
      then allow_file_open use_openat (value param)
      else ret 0)
    cfg.

Definition sb_chmod (cfg : sandbox_cfg_t) : step :=
  for_each (fun param =>
      if param_is (SCMP_SYS chmod) param
      then seccomp_rule_add_1 SCMP_ACT_ALLOW (SCMP_SYS chmod)
             (SCMP_CMP_STR 0 SCMP_CMP_EQ (c_addr (value param)))
      else ret 0)
    cfg.

Definition sb_chown (cfg : sandbox_cfg_t) : step :=
  for_each (fun param =>
      if param_is (SCMP_SYS chown) param
      then seccomp_rule_add_1 SCMP_ACT_ALLOW (SCMP_SYS chown)
             (SCMP_CMP_STR 0 SCMP_CMP_EQ (c_addr (value param)))
      else ret 0)
    cfg.

(** [(intptr_t)(void* )param->value2]: a NULL second string is 0. *)
Definition addr2 (param : smp_param_t) : Z :=
  match value2 param with Some v => c_addr v | None => 0 end.

Definition sb_rename (cfg : sandbox_cfg_t) : step :=
  for_each (fun param =>
      if param_is (SCMP_SYS rename) param
      then seccomp_rule_add_2 SCMP_ACT_ALLOW (SCMP_SYS rename)
             (SCMP_CMP_STR 0 SCMP_CMP_EQ (c_addr (value param)))
             (SCMP_CMP_STR 1 SCMP_CMP_EQ (addr2 param))
      else ret 0)
    cfg.

Definition sb_openat (cfg : sandbox_cfg_t) : step :=
  for_each (fun param =>
      if param_is (SCMP_SYS openat) param
      then seccomp_rule_add_3 SCMP_ACT_ALLOW (SCMP_SYS openat)
             (SCMP_CMP_NEG e 0 SCMP_CMP_EQ AT_FDCWD)
             (SCMP_CMP_STR 1 SCMP_CMP_EQ (c_addr (value param)))
             (SCMP_CMP 2 SCMP_CMP_EQ
                (O_RDONLY ||| O_NONBLOCK ||| O_LARGEFILE e ||| O_DIRECTORY
                 ||| O_CLOEXEC))
      else ret 0)
    cfg.

Definition sb_opendir (cfg : sandbox_cfg_t) : step :=
  for_each (fun param =>
      if param_is PHONY_OPENDIR_SYSCALL param
      then allow_file_open (libc_uses_openat_for_opendir e) (value param)
      else ret 0)
    cfg.

Definition sb_socket (cfg : sandbox_cfg_t) : step :=
  #ifdef i386 (seccomp_rule_add_0 SCMP_ACT_ALLOW (SCMP_SYS socket)) >>
  seccomp_rule_add_2 SCMP_ACT_ALLOW (SCMP_SYS socket)
    (SCMP_CMP 0 SCMP_CMP_EQ PF_FILE)
    (SCMP_CMP_MASKED 1 (SOCK_CLOEXEC ||| SOCK_NONBLOCK) SOCK_STREAM) >>
  for_each (fun i : Z =>
      let pf := if negb (i =? 0) then PF_INET else PF_INET6 in
      for_each (fun j : Z =>
          let type := if j =? 0 then SOCK_STREAM else SOCK_DGRAM in
          let protocol := if j =? 0 then IPPROTO_TCP
                          else if j =? 1 then IPPROTO_IP
                          else IPPROTO_UDP in
          seccomp_rule_add_3 SCMP_ACT_ALLOW (SCMP_SYS socket)
            (SCMP_CMP 0 SCMP_CMP_EQ pf)
            (SCMP_CMP_MASKED 1 (SOCK_CLOEXEC ||| SOCK_NONBLOCK) type)
            (SCMP_CMP 2 SCMP_CMP_EQ protocol))
        [0; 1; 2])
    [0; 1] >>
  #ifdef ENABLE_NSS
    (seccomp_rule_add_3 SCMP_ACT_ALLOW (SCMP_SYS socket)
       (SCMP_CMP 0 SCMP_CMP_EQ PF_INET)
       (SCMP_CMP 1 SCMP_CMP_EQ SOCK_STREAM)
       (SCMP_CMP 2 SCMP_CMP_EQ IPPROTO_IP)) >>
  seccomp_rule_add_3 SCMP_ACT_ALLOW (SCMP_SYS socket)
    (SCMP_CMP 0 SCMP_CMP_EQ PF_UNIX)
    (SCMP_CMP_MASKED 1 (SOCK_CLOEXEC ||| SOCK_NONBLOCK) SOCK_STREAM)
    (SCMP_CMP 2 SCMP_CMP_EQ 0) >>
  seccomp_rule_add_3 SCMP_ACT_ALLOW (SCMP_SYS socket)
    (SCMP_CMP 0 SCMP_CMP_EQ PF_UNIX)
    (SCMP_CMP_MASKED 1 (SOCK_CLOEXEC ||| SOCK_NONBLOCK) SOCK_DGRAM)
    (SCMP_CMP 2 SCMP_CMP_EQ 0) >>
  seccomp_rule_add_3 SCMP_ACT_ALLOW (SCMP_SYS socket)
    (SCMP_CMP 0 SCMP_CMP_EQ PF_NETLINK)
    (SCMP_CMP_MASKED 1 SOCK_CLOEXEC SOCK_RAW)
    (SCMP_CMP 2 SCMP_CMP_EQ 0).

Definition sb_socketpair (cfg : sandbox_cfg_t) : step :=
  #ifdef i386 (seccomp_rule_add_0 SCMP_ACT_ALLOW (SCMP_SYS socketpair)) >>
  seccomp_rule_add_2 SCMP_ACT_ALLOW (SCMP_SYS socketpair)
    (SCMP_CMP 0 SCMP_CMP_EQ PF_FILE)
    (SCMP_CMP 1 SCMP_CMP_EQ (SOCK_STREAM ||| SOCK_CLOEXEC)).

Definition sb_ioctl (cfg : sandbox_cfg_t) : step :=
  seccomp_rule_add_1 SCMP_ACT_ALLOW (SCMP_SYS ioctl)
    (SCMP_CMP 1 SCMP_CMP_EQ SIOCOUTQNSD).

Definition sb_setsockopt (cfg : sandbox_cfg_t) : step :=
  #ifdef i386 (seccomp_rule_add_0 SCMP_ACT_ALLOW (SCMP_SYS setsockopt)) >>
  seccomp_rule_add_2 SCMP_ACT_ALLOW (SCMP_SYS setsockopt)
    (SCMP_CMP 1 SCMP_CMP_EQ SOL_SOCKET)
    (SCMP_CMP 2 SCMP_CMP_EQ SO_REUSEADDR) >>
  seccomp_rule_add_2 SCMP_ACT_ALLOW (SCMP_SYS setsockopt)
    (SCMP_CMP 1 SCMP_CMP_EQ SOL_SOCKET)
    (SCMP_CMP 2 SCMP_CMP_EQ SO_SNDBUF) >>
  seccomp_rule_add_2 SCMP_ACT_ALLOW (SCMP_SYS setsockopt)
    (SCMP_CMP 1 SCMP_CMP_EQ SOL_SOCKET)
    (SCMP_CMP 2 SCMP_CMP_EQ SO_RCVBUF) >>
  #ifdef HAVE_SYSTEMD
    (seccomp_rule_add_2 SCMP_ACT_ALLOW (SCMP_SYS setsockopt)
       (SCMP_CMP 1 SCMP_CMP_EQ SOL_SOCKET)
       (SCMP_CMP 2 SCMP_CMP_EQ SO_SNDBUFFORCE)) >>
  #ifdef HAVE_IP_TRANSPARENT
    (seccomp_rule_add_2 SCMP_ACT_ALLOW (SCMP_SYS setsockopt)
       (SCMP_CMP 1 SCMP_CMP_EQ SOL_IP)
       (SCMP_CMP 2 SCMP_CMP_EQ IP_TRANSPARENT)) >>
  #ifdef HAVE_IPV6_V6ONLY
    (seccomp_rule_add_2 SCMP_ACT_ALLOW (SCMP_SYS setsockopt)
       (SCMP_CMP 1 SCMP_CMP_EQ IPPROTO_IPV6)
       (SCMP_CMP 2 SCMP_CMP_EQ IPV6_V6ONLY)).

Definition sb_getsockopt (cfg : sandbox_cfg_t) : step :=
  #ifdef i386 (seccomp_rule_add_0 SCMP_ACT_ALLOW (SCMP_SYS getsockopt)) >>
  seccomp_rule_add_2 SCMP_ACT_ALLOW (SCMP_SYS getsockopt)
    (SCMP_CMP 1 SCMP_CMP_EQ SOL_SOCKET)
    (SCMP_CMP 2 SCMP_CMP_EQ SO_ERROR) >>
  seccomp_rule_add_2 SCMP_ACT_ALLOW (SCMP_SYS getsockopt)
    (SCMP_CMP 1 SCMP_CMP_EQ SOL_SOCKET)
    (SCMP_CMP 2 SCMP_CMP_EQ SO_ACCEPTCONN) >>
  #ifdef HAVE_SYSTEMD
    (seccomp_rule_add_2 SCMP_ACT_ALLOW (SCMP_SYS getsockopt)
       (SCMP_CMP 1 SCMP_CMP_EQ SOL_SOCKET)
       (SCMP_CMP 2 SCMP_CMP_EQ SO_SNDBUF)) >>
  #ifdef HAVE_LINUX_NETFILTER_IPV4_H
    (seccomp_rule_add_2 SCMP_ACT_ALLOW (SCMP_SYS getsockopt)
       (SCMP_CMP 1 SCMP_CMP_EQ SOL_IP)
       (SCMP_CMP 2 SCMP_CMP_EQ SO_ORIGINAL_DST)) >>
  #ifdef HAVE_LINUX_NETFILTER_IPV6_IP6_TABLES_H
    (seccomp_rule_add_2 SCMP_ACT_ALLOW (SCMP_SYS getsockopt)
       (SCMP_CMP 1 SCMP_CMP_EQ SOL_IPV6)
       (SCMP_CMP 2 SCMP_CMP_EQ IP6T_SO_ORIGINAL_DST)) >>
  #ifdef HAVE_KIST_SUPPORT
    (seccomp_rule_add_2 SCMP_ACT_ALLOW (SCMP_SYS getsockopt)
       (SCMP_CMP 1 SCMP_CMP_EQ SOL_TCP)
       (SCMP_CMP 2 SCMP_CMP_EQ TCP_INFO)).

Definition sb_fcntl64 (cfg : sandbox_cfg_t) : step :=
  seccomp_rule_add_1 SCMP_ACT_ALLOW (SCMP_SYS fcntl64)
    (SCMP_CMP 1 SCMP_CMP_EQ F_GETFL) >>
  seccomp_rule_add_2 SCMP_ACT_ALLOW (SCMP_SYS fcntl64)
    (SCMP_CMP 1 SCMP_CMP_EQ F_SETFL)
    (SCMP_CMP 2 SCMP_CMP_EQ (O_RDWR ||| O_NONBLOCK)) >>
  seccomp_rule_add_1 SCMP_ACT_ALLOW (SCMP_SYS fcntl64)
    (SCMP_CMP 1 SCMP_CMP_EQ F_GETFD) >>
  seccomp_rule_add_2 SCMP_ACT_ALLOW (SCMP_SYS fcntl64)
    (SCMP_CMP 1 SCMP_CMP_EQ F_SETFD)
    (SCMP_CMP 2 SCMP_CMP_EQ FD_CLOEXEC).

Definition sb_epoll_ctl (cfg : sandbox_cfg_t) : step :=
  seccomp_rule_add_1 SCMP_ACT_ALLOW (SCMP_SYS epoll_ctl)
    (SCMP_CMP 1 SCMP_CMP_EQ EPOLL_CTL_ADD) >>
  seccomp_rule_add_1 SCMP_ACT_ALLOW (SCMP_SYS epoll_ctl)
    (SCMP_CMP 1 SCMP_CMP_EQ EPOLL_CTL_MOD) >>
  seccomp_rule_add_1 SCMP_ACT_ALLOW (SCMP_SYS epoll_ctl)
    (SCMP_CMP 1 SCMP_CMP_EQ EPOLL_CTL_DEL).

Definition sb_prctl (cfg : sandbox_cfg_t) : step :=
  seccomp_rule_add_1 SCMP_ACT_ALLOW (SCMP_SYS prctl)
    (SCMP_CMP 0 SCMP_CMP_EQ PR_SET_DUMPABLE).

Definition sb_mprotect (cfg : sandbox_cfg_t) : step :=
  seccomp_rule_add_1 SCMP_ACT_ALLOW (SCMP_SYS mprotect)
    (SCMP_CMP 2 SCMP_CMP_EQ PROT_READ) >>
  seccomp_rule_add_1 SCMP_ACT_ALLOW (SCMP_SYS mprotect)
    (SCMP_CMP 2 SCMP_CMP_EQ PROT_NONE).

Definition sb_rt_sigprocmask (cfg : sandbox_cfg_t) : step :=
  seccomp_rule_add_1 SCMP_ACT_ALLOW (SCMP_SYS rt_sigprocmask)
    (SCMP_CMP 0 SCMP_CMP_EQ SIG_UNBLOCK) >>
  seccomp_rule_add_1 SCMP_ACT_ALLOW (SCMP_SYS rt_sigprocmask)
    (SCMP_CMP 0 SCMP_CMP_EQ SIG_SETMASK).

Definition sb_flock (cfg : sandbox_cfg_t) : step :=
  seccomp_rule_add_1 SCMP_ACT_ALLOW (SCMP_SYS flock)
    (SCMP_CMP 1 SCMP_CMP_EQ (LOCK_EX ||| LOCK_NB)) >>
  seccomp_rule_add_1 SCMP_ACT_ALLOW (SCMP_SYS flock)
    (SCMP_CMP 1 SCMP_CMP_EQ LOCK_UN).

Definition sb_futex (cfg : sandbox_cfg_t) : step :=
  seccomp_rule_add_1 SCMP_ACT_ALLOW (SCMP_SYS futex)
    (SCMP_CMP 1 SCMP_CMP_EQ
       (FUTEX_WAIT_BITSET_PRIVATE ||| FUTEX_CLOCK_REALTIME)) >>
  seccomp_rule_add_1 SCMP_ACT_ALLOW (SCMP_SYS futex)
    (SCMP_CMP 1 SCMP_CMP_EQ FUTEX_WAKE_PRIVATE) >>
  seccomp_rule_add_1 SCMP_ACT_ALLOW (SCMP_SYS futex)
    (SCMP_CMP 1 SCMP_CMP_EQ FUTEX_WAIT_PRIVATE).

Definition sb_mremap (cfg : sandbox_cfg_t) : step :=
  seccomp_rule_add_1 SCMP_ACT_ALLOW (SCMP_SYS mremap)
    (SCMP_CMP 3 SCMP_CMP_EQ MREMAP_MAYMOVE).

Definition sb_stat64 (cfg : sandbox_cfg_t) : step :=
  for_each (fun param =>
      if param_is (SCMP_SYS open) param || param_is (SCMP_SYS stat64) param
      then seccomp_rule_add_1 SCMP_ACT_ALLOW (SCMP_SYS stat64)
             (SCMP_CMP_STR 0 SCMP_CMP_EQ (c_addr (value param)))
      else ret 0)
    cfg.

(* Allow killing anything with signal 0 -- it isn't really a kill. *)
Definition sb_kill (cfg : sandbox_cfg_t) : step :=
  #ifdef NR_kill
    (seccomp_rule_add_1 SCMP_ACT_ALLOW (SCMP_SYS kill)
       (SCMP_CMP 1 SCMP_CMP_EQ 0)).
End Installers.

(** ** The tables and the filter installation *)

Section Install.
Variable e : environment.

(** The members of a table that an [#ifdef] guards. *)
Definition ifdef_list {A : Type} (m : macro) (l : list A) : list A :=
  if defined e m then l else [].

(** Syscall numbers that will be allowed with the stage 1 general Tor
    sandbox. *)
Definition filter_nopar_gen : list syscall_t :=
  map SCMP_SYS (concat [
    [access; brk; clock_gettime; close; clone; dup];
    ifdef_list NR_clone3 [clone3];
    [epoll_create; epoll_wait];
    ifdef_list NR_epoll_pwait [epoll_pwait];
    ifdef_list HAVE_EVENTFD [eventfd2];
    ifdef_list HAVE_PIPE2 [pipe2];
    ifdef_list HAVE_PIPE [pipe];
    ifdef_list NR_fchmod [fchmod];
    [fcntl; fstat];
    ifdef_list NR_fstat64 [fstat64];
    [fsync; futex; getdents; getdents64; getegid];
    ifdef_list NR_getegid32 [getegid32];
    [geteuid];
    ifdef_list NR_geteuid32 [geteuid32];
    [getgid];
    ifdef_list NR_getgid32 [getgid32];
    [getpid];
    ifdef_list NR_getrlimit [getrlimit];
    [gettimeofday; gettid; getuid];
    ifdef_list NR_getuid32 [getuid32];
    [lseek];
    ifdef_list NR__llseek [_llseek];
    [lstat; mkdir; mlockall];
    ifdef_list NR_mmap [mmap];
    [munmap];
    ifdef_list NR_nanosleep [nanosleep];
    ifdef_list NR_prlimit [prlimit];
    ifdef_list NR_prlimit64 [prlimit64];
    [read; rt_sigreturn];
    ifdef_list NR_rseq [rseq];
    [sched_getaffinity];
    ifdef_list NR_sched_yield [sched_yield];
    [sendmsg; set_robust_list];
    ifdef_list NR_setrlimit [setrlimit];
    [shutdown];
    ifdef_list NR_sigaltstack [sigaltstack];
    ifdef_list NR_sigreturn [sigreturn];
    [stat; uname; wait4; write; writev; exit_group; exit; madvise];
    ifdef_list NR_stat64 [stat64];
    ifdef_list NR_getrandom [getrandom];
    ifdef_list NR_sysinfo [sysinfo];
    ifdef_list i386 [recv; send];
    [bind; listen; connect; getsockname];
    ifdef_list ENABLE_NSS (ifdef_list NR_getpeername [getpeername]);
    [recvmsg; recvfrom; sendto; unlink];
    ifdef_list NR_unlinkat [unlinkat];
    [poll] ]).

(** Array of function pointers responsible for filtering different
    syscalls at a parameter level. *)
Definition filter_func : list (sandbox_cfg_t -> step) :=
  concat [
    [sb_rt_sigaction e; sb_rt_sigprocmask e; sb_time e; sb_accept4 e];
    ifdef_list NR_mmap2 [sb_mmap2 e];
    [sb_chown e; sb_chmod e; sb_open e; sb_openat e; sb_opendir e;
     sb_rename e];
    ifdef_list NR_fcntl64 [sb_fcntl64 e];
    [sb_epoll_ctl e; sb_prctl e; sb_mprotect e; sb_flock e; sb_futex e;
     sb_mremap e];
    ifdef_list NR_stat64 [sb_stat64 e];
    [sb_socket e; sb_setsockopt e; sb_getsockopt e; sb_socketpair e];
    ifdef_list HAVE_KIST_SUPPORT [sb_ioctl e];
    [sb_kill e] ].

(** Go through the parameter syscall filters and call each function
    pointer in the list. *)
Definition add_param_filter (cfg : sandbox_cfg_t) : step :=
  for_each (fun f => f cfg) filter_func.

(** Load the syscall filters which do not have parameter filtering. *)
Definition add_noparam_filter : step :=
  for_each (fun call => seccomp_rule_add_0 e SCMP_ACT_ALLOW call)
    filter_nopar_gen >>
  (if is_libc_at_least e 2 33
   then ifdef e NR_newfstatat
          (seccomp_rule_add_0 e SCMP_ACT_ALLOW (SCMP_SYS newfstatat))
   else ret 0).

(** The four rules [prot_strings] ties to the region's base and size. *)
Definition prot_strings_rules (pr_mem_base pr_mem_size : Z) : step :=
  (* no mremap of the protected base address *)
  seccomp_rule_add_1 e SCMP_ACT_KILL (SCMP_SYS mremap)
    (SCMP_CMP 0 SCMP_CMP_EQ pr_mem_base) >>
  (* no munmap of the protected base address *)
  seccomp_rule_add_1 e SCMP_ACT_KILL (SCMP_SYS munmap)
    (SCMP_CMP 0 SCMP_CMP_EQ pr_mem_base) >>
  seccomp_rule_add_3 e SCMP_ACT_ALLOW (SCMP_SYS mprotect)
    (SCMP_CMP 0 SCMP_CMP_LT pr_mem_base)
    (SCMP_CMP 1 SCMP_CMP_LE MALLOC_MP_LIM)
    (SCMP_CMP 2 SCMP_CMP_EQ (PROT_READ ||| PROT_WRITE)) >>
  seccomp_rule_add_3 e SCMP_ACT_ALLOW (SCMP_SYS mprotect)
    (SCMP_CMP 0 SCMP_CMP_GT
       (to_size_t (pr_mem_base + pr_mem_size + MALLOC_MP_LIM)))
    (SCMP_CMP 1 SCMP_CMP_LE MALLOC_MP_LIM)
    (SCMP_CMP 2 SCMP_CMP_EQ (PROT_READ ||| PROT_WRITE)).

(** The protection state the copy loop of [prot_strings] starts from. *)
Definition prot_strings_start (pr_mem_base pr_mem_size : Z) : prot_state :=
  mk_prot_state ∅ (pr_mem_base + MALLOC_MP_LIM) pr_mem_size [].

(** Protects all the strings in the sandbox's parameter list
    configuration.  Returns the status, the context and the list, whose
    elements it changes in place. *)
Definition prot_strings (cfg : sandbox_cfg_t) (ctx : scmp_filter_ctx)
    : Z * scmp_filter_ctx * sandbox_cfg_t :=
  (* get total number of bytes required to mmap. (Overestimate.) *)
  let pr_mem_size := prot_strings_size 0 cfg in
  (* allocate protected memory with MALLOC_MP_LIM canary *)
  match os_mmap e (to_size_t (MALLOC_MP_LIM + pr_mem_size)) with
  | None => (-1, ctx, cfg)
  | Some base =>
      let pr_mem_base := Z.of_N base in
      let '(ret, st, cfg) :=
        prot_strings_copy (prot_strings_start pr_mem_base pr_mem_size) cfg in
      if negb (ret =? 0) then (ret, ctx, cfg)
      else if negb (to_int (os_mprotect e pr_mem_base
                              (to_size_t (MALLOC_MP_LIM + pr_mem_size))
                              PROT_READ) =? 0)
      then (-3, ctx, cfg)
      else
        let '(ret, ctx) := prot_strings_rules pr_mem_base pr_mem_size ctx in
        (ret, ctx, cfg)
  end.

(** [return (rc < 0 ? -rc : rc);] *)
Definition install_result (rc : Z) : Z :=
  if rc <? 0 then to_int (- rc) else rc.

(** The calls [seccomp_load] makes to hand a filter to the kernel: it
    sets the no-new-privileges bit, then passes the filter program.  The
    filters already loaded judge them like any other call of the
    process: as the note on [sb_prctl] says, loading more than one filter
    needs the seccomp parameter of prctl on the allow list.  (Where the
    library passes the program with the seccomp syscall instead, the
    first call is the same, and no rule of this file allows that syscall
    either.) *)
Definition load_calls : list syscall_call :=
  [ mk_call (SCMP_SYS prctl) [PR_SET_NO_NEW_PRIVS; 1; 0; 0; 0];
    mk_call (SCMP_SYS prctl) [PR_SET_SECCOMP; SECCOMP_MODE_FILTER] ].

(** Every loaded filter allows the calls of [seccomp_load]. *)
Definition load_permitted (w : world) : bool :=
  forallb (fun F =>
      forallb (fun c => bool_decide (seccomp_verdict F c = SCMP_ACT_ALLOW))
              load_calls)
    (kernel_filters w).

(** [seccomp_load(ctx)]: the environment's outcome when the process may
    load a filter, and the library's system failure, [-ECANCELED], when a
    filter of the process refuses the calls. *)
Definition seccomp_load (w : world) (ctx : scmp_filter_ctx) : Z :=
  if load_permitted w then to_int (os_seccomp_load e ctx)
  else - ECANCELED.

(** Set up and enable a global syscall filter.  Returns 0 on success. *)
Definition install_syscall_filter (w : world) (cfg : sandbox_cfg_t)
    : Z * world * sandbox_cfg_t :=
  if negb (os_seccomp_init e) then (install_result (-1), w, cfg)
  else
    let ctx := mk_ctx (SCMP_ACT_ERRNO EPERM) [] in
    (* protecting sandbox parameter strings *)
    let '(rc, ctx, cfg) := prot_strings cfg ctx in
    if negb (rc =? 0) then (install_result rc, w, cfg)
    else
      (* add parameter filters *)
      let '(rc, ctx) := add_param_filter cfg ctx in
      if negb (rc =? 0) then (install_result rc, w, cfg)
      else
        (* adding filters with no parameters *)
        let '(rc, ctx) := add_noparam_filter ctx in
        if negb (rc =? 0) then (install_result rc, w, cfg)
        else
          (* loading the seccomp2 filter *)
          let rc := seccomp_load w ctx in
          if negb (rc =? 0) then (install_result rc, w, cfg)
          else
            (* marking the sandbox as active *)
            (install_result rc,
             mk_world 1 (filter_dynamic w) (kernel_filters w ++ [ctx])
                      (libc_fatal_stderr w) (sigsys_handler w),
             cfg).

(** Add a handler for SIGSYS. *)
Definition install_sigsys_debugging (w : world) : Z * world :=
  if to_int (os_sigaction e) <? 0 then (-1, w)
  else
    let w := mk_world (sandbox_active w) (filter_dynamic w)
                      (kernel_filters w) (libc_fatal_stderr w) true in
    if negb (to_int (os_sigprocmask e) =? 0) then (-2, w)
    else (0, w).

(** Register the list of parameter syscall filters to the existing
    parameter list. *)
Definition register_cfg (w : world) (cfg : sandbox_cfg_t) : Z * world :=
  match filter_dynamic w with
  | [] =>
      (0, mk_world (sandbox_active w) cfg (kernel_filters w)
                   (libc_fatal_stderr w) (sigsys_handler w))
  | _ :: _ =>
      (0, mk_world (sandbox_active w) (filter_dynamic w ++ cfg)
                   (kernel_filters w) (libc_fatal_stderr w)
                   (sigsys_handler w))
  end.

Definition initialise_libseccomp_sandbox (w : world) (cfg : sandbox_cfg_t)
    : Z * world * sandbox_cfg_t :=
  (* Prevent glibc from trying to open /dev/tty on fatal error *)
  let w := mk_world (sandbox_active w) (filter_dynamic w) (kernel_filters w)
                    true (sigsys_handler w) in
  let '(rc, w) := install_sigsys_debugging w in
  if negb (rc =? 0) then (-1, w, cfg)
  else
    let '(rc, w, cfg) := install_syscall_filter w cfg in
    if negb (rc =? 0) then (-2, w, cfg)
    else
      let '(rc, w) := register_cfg w cfg in
      if negb (rc =? 0) then (-3, w, cfg)
      else (0, w, cfg).


Definition sandbox_cfg_new : sandbox_cfg_t := [].

Definition sandbox_init (w : world) (cfg : sandbox_cfg_t)
    : Z * world * sandbox_cfg_t :=
  if defined e USE_LIBSECCOMP then initialise_libseccomp_sandbox w cfg
  else (0, w, cfg).
End Install.

(** ** Looking up interned strings *)

(** [!strcmp(a, b)] *)
Definition streq (a b : cstr) : bool := bool_decide (c_str a = c_str b).

(** The loop of [sandbox_get_interned_string] over [filter_dynamic]. *)
Fixpoint get_interned_string (elem : sandbox_cfg_t) (str : cstr)
    : option cstr :=
  match elem with
  | [] => None
  | param :: next =>
      if negb (prot param =? 0) then
        if streq str (value param) then Some (value param)
        else
          match value2 param with
          | Some v2 =>
              if streq str v2 then Some v2
              else get_interned_string next str
          | None => get_interned_string next str
          end
      else get_interned_string next str
  end.

(** Try to find and return the interned string equal to [str]; [None] is
    NULL. *)
Definition sandbox_get_interned_string (w : world) (str : option cstr)
    : option cstr :=
  match str with
  | None => None
  | Some s => get_interned_string (filter_dynamic w) s
  end.

Definition sandbox_intern_string (w : world) (str : option cstr)
    : option cstr :=
  match sandbox_get_interned_string w str with
  | Some interned => Some interned
  | None => str
  end.

Definition sandbox_interned_string_is_missing (w : world)
    (str : option cstr) : bool :=
  negb (sandbox_active w =? 0)
  && bool_decide (sandbox_get_interned_string w str = None).

(** ** Definitions used to state the properties *)

(** Versions [major.minor], in lexicographic order. *)
Definition ver_le (a b : Z * Z) : Prop :=
  a.1 < b.1 \/ (a.1 = b.1 /\ a.2 <= b.2).

Definition ver_lt (a b : Z * Z) : Prop :=
  a.1 < b.1 \/ (a.1 = b.1 /\ a.2 < b.2).

(** A Linux build with every optional symbol defined, glibc 2.31, and a
    kernel and a libseccomp that accept every request of a process that
    has no filter yet; [mmap] places the arena at a fixed address. *)
Definition env_linux : environment :=
  mk_env (fun _ => true) (Some (2, 31)) true
         (fun _ => Some 139637976727552%N)
         (fun _ _ _ => 0) (fun _ _ => 0) (fun _ => 0) 0 0.

(** The same build running against another glibc. *)
Definition with_libc (e : environment) (v : option (Z * Z)) : environment :=
  mk_env (defined e) v (os_seccomp_init e) (os_mmap e) (os_mprotect e)
         (os_seccomp_rule_add e) (os_seccomp_load e) (os_sigaction e)
         (os_sigprocmask e).


(** The same build on a kernel that refuses to load the filter. *)
Definition with_load (e : environment) (rc : Z) : environment :=
  mk_env (defined e) (gnu_get_libc_version e) (os_seccomp_init e)
         (os_mmap e) (os_mprotect e) (os_seccomp_rule_add e)
         (fun _ => rc) (os_sigaction e) (os_sigprocmask e).

(** The opendir probe as a function of the glibc version. *)
Definition opendir_probe_at (v : Z * Z) : bool :=
  libc_uses_openat_for_opendir (with_libc env_linux (Some v)).

(** A registry as three call sites would build it: one path for open, a
    rename pair, and the first path again for chmod, each string in an
    allocation of its own. *)
Definition example_cfg : sandbox_cfg_t :=
  [ new_element (SCMP_SYS chmod) (mk_cstr 24576 "/var/lib/tor/state");
    new_element2 (SCMP_SYS rename) (mk_cstr 16384 "/tmp/a")
                 (Some (mk_cstr 20480 "/tmp/b"));
    new_element (SCMP_SYS open) (mk_cstr 8192 "/var/lib/tor/state") ].

(** [r] is a string argument of a protected element of the list. *)
Definition interned_in (cfg : sandbox_cfg_t) (r : cstr) : Prop :=
  exists p, In p cfg /\ prot p <> 0 /\ In r (param_strings p).

(** Some protected element holds a string equal to [s] byte for byte. *)
Definition has_interned_copy (w : world) (s : cstr) : Prop :=
  exists r, interned_in (filter_dynamic w) r /\ c_str r = c_str s.

(** The process states that calls of [sandbox_init] lead to.  The
    registration functions leave the process state as it is. *)
Inductive reachable : world -> Prop :=
  | reachable_initial : reachable initial_world
  | reachable_sandbox_init e w cfg :
      reachable w -> reachable (sandbox_init e w cfg).1.2.

(** All the comparisons of the rule [r] hold of the arguments of [c]. *)
Definition chain_holds (c : syscall_call) (r : scmp_rule) : bool :=
  forallb (fun a => arg_cmp_matches a (call_args c)) (rule_args r).

(** The range of a C [int]. *)
Definition is_int (z : Z) : Prop := - 2 ^ 31 <= z < 2 ^ 31.

(** What a computation on the filter context does to it: it only appends
    rules, its status is an [int], and when the status is 0 the appended
    rules that [sel] selects are exactly [prs]. *)
Definition emits (sel : scmp_rule -> bool) (prs : list scmp_rule)
    (s : step) : Prop :=
  forall ctx, exists rs,
    (s ctx).2 = mk_ctx (ctx_default ctx) (ctx_rules ctx ++ rs) /\
    is_int (s ctx).1 /\
    ((s ctx).1 = 0 -> List.filter sel rs = prs).

(** The syscalls that take the paths of the registry. *)
Definition is_path_name (n : sysname) : bool :=
  match n with
  | chmod | chown | rename | open | openat | stat | stat64 => true
  | _ => false
  end.

Definition is_path_call (c : syscall_t) : bool :=
  match c with
  | SCMP_SYS n => is_path_name n
  | PHONY_OPENDIR_SYSCALL => false
  end.

Definition is_path_rule (r : scmp_rule) : bool := is_path_call (rule_call r).

Definition all_rules (r : scmp_rule) : bool := true.

(** The rule [allow_file_open] adds for a file. *)
Definition open_rule (e : environment) (use_openat : bool) (file : cstr)
    : scmp_rule :=
  if use_openat then
    mk_rule SCMP_ACT_ALLOW (SCMP_SYS openat)
      [SCMP_CMP_NEG e 0 SCMP_CMP_EQ AT_FDCWD;
       SCMP_CMP_STR 1 SCMP_CMP_EQ (c_addr file)]
  else
    mk_rule SCMP_ACT_ALLOW (SCMP_SYS open)
      [SCMP_CMP_STR 0 SCMP_CMP_EQ (c_addr file)].

(** The rule that allows [call] when its first argument is the pointer
    [file]. *)
Definition path_rule (call : sysname) (file : cstr) : scmp_rule :=
  mk_rule SCMP_ACT_ALLOW (SCMP_SYS call)
    [SCMP_CMP_STR 0 SCMP_CMP_EQ (c_addr file)].

Definition rename_rule (param : smp_param_t) : scmp_rule :=
  mk_rule SCMP_ACT_ALLOW (SCMP_SYS rename)
    [SCMP_CMP_STR 0 SCMP_CMP_EQ (c_addr (value param));
     SCMP_CMP_STR 1 SCMP_CMP_EQ (addr2 param)].

Definition openat_rule (e : environment) (file : cstr) : scmp_rule :=
  mk_rule SCMP_ACT_ALLOW (SCMP_SYS openat)
    [SCMP_CMP_NEG e 0 SCMP_CMP_EQ AT_FDCWD;
     SCMP_CMP_STR 1 SCMP_CMP_EQ (c_addr file);
     SCMP_CMP 2 SCMP_CMP_EQ
       (O_RDONLY ||| O_NONBLOCK ||| O_LARGEFILE e ||| O_DIRECTORY
        ||| O_CLOEXEC)].

(** One rule for each element of the list that [sel] accepts. *)
Definition rules_for (sel : smp_param_t -> bool)
    (mk : smp_param_t -> scmp_rule) (cfg : sandbox_cfg_t) : list scmp_rule :=
  map mk (List.filter sel cfg).

Definition stat64_param (param : smp_param_t) : bool :=
  param_is (SCMP_SYS open) param || param_is (SCMP_SYS stat64) param.

(** The rules for the path syscalls that the installers of [filter_func]
    add, in the order of the table. *)
Definition param_path_rules (e : environment) (cfg : sandbox_cfg_t)
    : list scmp_rule :=
  rules_for (param_is (SCMP_SYS chown))
            (fun p => path_rule chown (value p)) cfg
  ++ rules_for (param_is (SCMP_SYS chmod))
               (fun p => path_rule chmod (value p)) cfg
  ++ rules_for (param_is (SCMP_SYS open))
       (fun p => open_rule e (libc_uses_openat_for_open e) (value p)) cfg
  ++ rules_for (param_is (SCMP_SYS openat))
               (fun p => openat_rule e (value p)) cfg
  ++ rules_for (param_is PHONY_OPENDIR_SYSCALL)
       (fun p => open_rule e (libc_uses_openat_for_opendir e) (value p)) cfg
  ++ rules_for (param_is (SCMP_SYS rename)) rename_rule cfg
  ++ (if defined e NR_stat64
      then rules_for stat64_param (fun p => path_rule stat64 (value p)) cfg
      else []).

(** The rules for the path syscalls that come from [filter_nopar_gen]. *)
Definition noparam_path_rules (e : environment) : list scmp_rule :=
  mk_rule SCMP_ACT_ALLOW (SCMP_SYS stat) []
  :: (if defined e NR_stat64
      then [mk_rule SCMP_ACT_ALLOW (SCMP_SYS stat64) []]
      else []).

(** The rules [prot_strings] adds for an arena at [pr_mem_base] that
    holds [pr_mem_size] bytes of strings. *)
Definition prot_rules (pr_mem_base pr_mem_size : Z) : list scmp_rule :=
  [ mk_rule SCMP_ACT_KILL (SCMP_SYS mremap)
      [SCMP_CMP 0 SCMP_CMP_EQ pr_mem_base];
    mk_rule SCMP_ACT_KILL (SCMP_SYS munmap)
      [SCMP_CMP 0 SCMP_CMP_EQ pr_mem_base];
    mk_rule SCMP_ACT_ALLOW (SCMP_SYS mprotect)
      [SCMP_CMP 0 SCMP_CMP_LT pr_mem_base;
       SCMP_CMP 1 SCMP_CMP_LE MALLOC_MP_LIM;
       SCMP_CMP 2 SCMP_CMP_EQ (PROT_READ ||| PROT_WRITE)];
    mk_rule SCMP_ACT_ALLOW (SCMP_SYS mprotect)
      [SCMP_CMP 0 SCMP_CMP_GT
         (to_size_t (pr_mem_base + pr_mem_size + MALLOC_MP_LIM));
       SCMP_CMP 1 SCMP_CMP_LE MALLOC_MP_LIM;
       SCMP_CMP 2 SCMP_CMP_EQ (PROT_READ ||| PROT_WRITE)] ].

Arguments prot_rules : simpl never.

(** The steps of [install_syscall_filter] that can fail. *)
Inductive install_step : Type :=
  | step_seccomp_init
  | step_prot_strings
  | step_add_param_filter
  | step_add_noparam_filter
  | step_seccomp_load.

(** The first step of an installation that fails, if any. *)
Definition first_failure (e : environment) (w : world)
    (cfg : sandbox_cfg_t) : option install_step :=
  if negb (os_seccomp_init e) then Some step_seccomp_init
  else
    let '(rc, ctx, cfg) :=
      prot_strings e cfg (mk_ctx (SCMP_ACT_ERRNO EPERM) []) in
    if negb (rc =? 0) then Some step_prot_strings
    else
      let '(rc, ctx) := add_param_filter e cfg ctx in
      if negb (rc =? 0) then Some step_add_param_filter
      else
        let '(rc, ctx) := add_noparam_filter e ctx in
        if negb (rc =? 0) then Some step_add_noparam_filter
        else if negb (seccomp_load e w ctx =? 0)
             then Some step_seccomp_load
             else None.

(** A second registry, built after a first installation. *)
Definition second_cfg : sandbox_cfg_t :=
  [ new_element (SCMP_SYS open) (mk_cstr 28672 "/etc/passwd") ].


(** The process state after [sandbox_init] has installed [example_cfg]
    on [env_linux]. *)
Definition example_world : world :=
  (sandbox_init env_linux initial_world example_cfg).1.2.

(** The bytes a string takes in the arena, as [prot_strings_helper]
    computes them. *)
Definition string_size (s : string) : Z :=
  to_size_t (Z.of_nat (String.length s) + 1).

(** The strings of [m] lie one after the other from address [a] up to
    address [z]. *)
Fixpoint packed (a : Z) (m : list (Z * string)) (z : Z) : Prop :=
  match m with
  | [] => a = z
  | (x, s) :: m' => x = a /\ packed (a + string_size s) m' z
  end.

(** The state of the copy loop is consistent: the copies lie packed from
    [start], what is left reaches up to [end_], no string was copied
    twice, and the interning table maps each copied string to its copy. *)
Definition arena_inv (start end_ : Z) (st : prot_state) : Prop :=
  0 < start /\
  packed start (pr_mem st) (pr_mem_next st) /\
  0 <= pr_mem_left st /\
  pr_mem_next st + pr_mem_left st = end_ /\
  NoDup (map snd (pr_mem st)) /\
  (forall k l, locations st !! k = Some l <-> In (l, k) (pr_mem st)).

(** The sum of [strlen + 1] over the string arguments of a list, without
    wrap-around. *)
Definition param_bytes (p : smp_param_t) : Z :=
  strlen (value p) + 1
  + match value2 p with Some v2 => strlen v2 + 1 | None => 0 end.

Definition cfg_bytes (cfg : sandbox_cfg_t) : Z :=
  fold_right (fun p acc => param_bytes p + acc) 0 cfg.

(** [p'] is the element [p] after protection: the same syscall and the
    same strings, marked protected. *)
Definition protected_copy (p p' : smp_param_t) : Prop :=
  syscall p' = syscall p /\
  prot p' = 1 /\
  c_str (value p') = c_str (value p) /\
  match value2 p, value2 p' with
  | Some v, Some v' => c_str v' = c_str v
  | None, None => True
  | _, _ => False
  end.

(** ** The verdict on the path syscalls *)

(** An allow rule [r] matches the call [c]. *)
Definition rule_allows (c : syscall_call) (r : scmp_rule) : bool :=
  bool_decide (rule_act r = SCMP_ACT_ALLOW) && rule_matches r c.

Definition call_arg (c : syscall_call) (i : nat) : Z :=
  nth i (call_args c) 0.

(** The value [SCMP_CMP_NEG] compares the directory argument of openat
    with. *)
Definition at_fdcwd (e : environment) : Z :=
  cmp_datum_a (SCMP_CMP_NEG e 0 SCMP_CMP_EQ AT_FDCWD).

(** The flags [sb_openat] requires: 624640 in the 32-bit build and 591872
    in the 64-bit build. *)
Definition openat_flags (e : environment) : Z :=
  to_datum (O_RDONLY ||| O_NONBLOCK ||| O_LARGEFILE e ||| O_DIRECTORY
            ||| O_CLOEXEC).

(** Some element of the list that [sel] accepts holds the pointer [a] as
    its first string. *)
Definition registered (sel : smp_param_t -> bool) (cfg : sandbox_cfg_t)
    (a : Z) : bool :=
  existsb (fun p => sel p && (a =? to_datum (c_addr (value p)))) cfg.

(** Some protected rename element holds the pointers [a] and [b]. *)
Definition registered_pair (cfg : sandbox_cfg_t) (a b : Z) : bool :=
  existsb (fun p => param_is (SCMP_SYS rename) p
                    && ((a =? to_datum (c_addr (value p)))
                        && (b =? to_datum (addr2 p))))
          cfg.

(** When the installed filter allows a call of one of the path
    syscalls, given the protected registry. *)
Definition path_allowed (e : environment) (cfg : sandbox_cfg_t)
    (c : syscall_call) : bool :=
  match call_nr c with
  | SCMP_SYS chown =>
      registered (param_is (SCMP_SYS chown)) cfg (call_arg c 0)
  | SCMP_SYS chmod =>
      registered (param_is (SCMP_SYS chmod)) cfg (call_arg c 0)
  | SCMP_SYS rename => registered_pair cfg (call_arg c 0) (call_arg c 1)
  | SCMP_SYS open =>
      (negb (libc_uses_openat_for_open e)
       && registered (param_is (SCMP_SYS open)) cfg (call_arg c 0))
      || (negb (libc_uses_openat_for_opendir e)
          && registered (param_is PHONY_OPENDIR_SYSCALL) cfg (call_arg c 0))
  | SCMP_SYS openat =>
      (call_arg c 0 =? at_fdcwd e)
      && ((libc_uses_openat_for_open e
           && registered (param_is (SCMP_SYS open)) cfg (call_arg c 1))
          || (libc_uses_openat_for_opendir e
              && registered (param_is PHONY_OPENDIR_SYSCALL) cfg
                            (call_arg c 1))
          || ((call_arg c 2 =? openat_flags e)
              && registered (param_is (SCMP_SYS openat)) cfg (call_arg c 1)))
  | SCMP_SYS stat => true
  | SCMP_SYS stat64 => defined e NR_stat64
  | _ => false
  end.


From Stdlib Require Import Btauto.


(** ** Selecting the rules of one syscall, and the rules that do not allow *)

(** The rule is for the syscall [n]. *)
Definition sel_call (n : sysname) (r : scmp_rule) : bool :=
  match rule_call r with
  | SCMP_SYS m => Pos.eqb (sysname_code m) (sysname_code n)
  | PHONY_OPENDIR_SYSCALL => false
  end.

(** The rule's action is not to allow. *)
Definition sel_not_allow (r : scmp_rule) : bool :=
  match rule_act r with
  | SCMP_ACT_ALLOW => false
  | _ => true
  end.

(** The two kill rules [prot_strings] adds for an arena at [base]: no
    mremap and no munmap of the protected base address. *)
Definition arena_kill_rules (base : Z) : list scmp_rule :=
  [ mk_rule SCMP_ACT_KILL (SCMP_SYS mremap) [SCMP_CMP 0 SCMP_CMP_EQ base];
    mk_rule SCMP_ACT_KILL (SCMP_SYS munmap) [SCMP_CMP 0 SCMP_CMP_EQ base] ].

(** ** The verdict on socket *)

(** The rules [sb_socket] adds on a build that is not for i386, in the
    order its loops add them. *)
Definition socket_rules (e : environment) : list scmp_rule :=
  let flags := SOCK_CLOEXEC ||| SOCK_NONBLOCK in
  let rule args := mk_rule SCMP_ACT_ALLOW (SCMP_SYS socket) args in
  let ip pf type protocol :=
    rule [SCMP_CMP 0 SCMP_CMP_EQ pf; SCMP_CMP_MASKED 1 flags type;
          SCMP_CMP 2 SCMP_CMP_EQ protocol] in
  [ rule [SCMP_CMP 0 SCMP_CMP_EQ PF_FILE;
          SCMP_CMP_MASKED 1 flags SOCK_STREAM];
    ip PF_INET6 SOCK_STREAM IPPROTO_TCP;
    ip PF_INET6 SOCK_DGRAM IPPROTO_IP;
    ip PF_INET6 SOCK_DGRAM IPPROTO_UDP;
    ip PF_INET SOCK_STREAM IPPROTO_TCP;
    ip PF_INET SOCK_DGRAM IPPROTO_IP;
    ip PF_INET SOCK_DGRAM IPPROTO_UDP ]
  ++ (if defined e ENABLE_NSS
      then [rule [SCMP_CMP 0 SCMP_CMP_EQ PF_INET;
                  SCMP_CMP 1 SCMP_CMP_EQ SOCK_STREAM;
                  SCMP_CMP 2 SCMP_CMP_EQ IPPROTO_IP]]
      else [])
  ++ [ ip PF_UNIX SOCK_STREAM 0;
       ip PF_UNIX SOCK_DGRAM 0;
       rule [SCMP_CMP 0 SCMP_CMP_EQ PF_NETLINK;
             SCMP_CMP_MASKED 1 SOCK_CLOEXEC SOCK_RAW;
             SCMP_CMP 2 SCMP_CMP_EQ 0] ].

(** The socket type [ty] with the bits of [flags] cleared, as a masked
    comparison sees it. *)
Definition without_flags (flags ty : Z) : Z :=
  Z.land ty (to_datum (Z.lnot (to_datum flags))).

(** The socket calls [sb_socket] provides for, on a build that is not
    for i386. *)
Definition socket_allowed (e : environment) (domain ty protocol : Z)
    : bool :=
  let type := without_flags (SOCK_CLOEXEC ||| SOCK_NONBLOCK) ty in
  ((domain =? PF_FILE) && (type =? SOCK_STREAM))
  || (((domain =? PF_INET) || (domain =? PF_INET6))
      && (((type =? SOCK_STREAM) && (protocol =? IPPROTO_TCP))
          || ((type =? SOCK_DGRAM)
              && ((protocol =? IPPROTO_IP) || (protocol =? IPPROTO_UDP)))))
  || (defined e ENABLE_NSS
      && ((domain =? PF_INET) && (ty =? SOCK_STREAM)
          && (protocol =? IPPROTO_IP)))
  || ((domain =? PF_UNIX)
      && ((type =? SOCK_STREAM) || (type =? SOCK_DGRAM))
      && (protocol =? 0))
  || ((domain =? PF_NETLINK)
      && (without_flags SOCK_CLOEXEC ty =? SOCK_RAW)
      && (protocol =? 0)).

(** A 64-bit build: as [env_linux], without the i386 symbol. *)
Definition env_x86_64 : environment :=
  mk_env (fun m => match m with i386 => false | _ => true end)
         (Some (2, 31)) true (fun _ => Some 139637976727552%N)
         (fun _ _ _ => 0) (fun _ _ => 0) (fun _ => 0) 0 0.


(** The same build on a kernel where [mprotect] fails. *)
Definition with_mprotect (e : environment) (rc : Z) : environment :=
  mk_env (defined e) (gnu_get_libc_version e) (os_seccomp_init e)
         (os_mmap e) (fun _ _ _ => rc) (os_seccomp_rule_add e)
         (os_seccomp_load e) (os_sigaction e) (os_sigprocmask e).

(** ** The steps of [sandbox_init] *)




(** ** The parameterless table *)

(** The rule [add_noparam_filter] adds for a syscall of its table. *)
Definition noparam_rule (call : syscall_t) : scmp_rule :=
  mk_rule SCMP_ACT_ALLOW call [].

(** All the rules of [add_noparam_filter]. *)
Definition noparam_rules (e : environment) : list scmp_rule :=
  map noparam_rule (filter_nopar_gen e)
  ++ (if is_libc_at_least e 2 33
      then if defined e NR_newfstatat
           then [noparam_rule (SCMP_SYS newfstatat)] else []
      else []).

(** ** Accounting for the arena *)

(** The bytes that the strings of a list take in the arena. *)
Definition strings_bytes (l : list string) : Z :=
  fold_right (fun s acc => string_size s + acc) 0 l.

(** The contents of the string arguments of a list, in the order the
    loops of [prot_strings] visit them. *)
Definition cfg_contents (cfg : sandbox_cfg_t) : list string :=
  map c_str (cfg_strings cfg).

(** ** The verdict on mmap2 and on the signal syscalls *)

(** The pairs of protection and flags [sb_mmap2] provides for. *)
Definition mmap2_table : list (Z * Z) :=
  [ (PROT_READ, MAP_PRIVATE);
    (PROT_NONE, MAP_PRIVATE ||| MAP_ANONYMOUS ||| MAP_NORESERVE);
    (PROT_READ ||| PROT_WRITE, MAP_PRIVATE ||| MAP_ANONYMOUS);
    (PROT_READ ||| PROT_WRITE, MAP_PRIVATE ||| MAP_ANONYMOUS ||| MAP_STACK);
    (PROT_READ ||| PROT_WRITE, MAP_PRIVATE ||| MAP_FIXED ||| MAP_DENYWRITE);
    (PROT_READ ||| PROT_WRITE, MAP_PRIVATE ||| MAP_FIXED ||| MAP_ANONYMOUS);
    (PROT_READ ||| PROT_EXEC, MAP_PRIVATE ||| MAP_DENYWRITE) ].

Definition mmap2_rule (pf : Z * Z) : scmp_rule :=
  mk_rule SCMP_ACT_ALLOW (SCMP_SYS mmap2)
    [SCMP_CMP 2 SCMP_CMP_EQ pf.1; SCMP_CMP 3 SCMP_CMP_EQ pf.2].

Definition mmap2_allowed (prt flags : Z) : bool :=
  existsb (fun pf => (prt =? pf.1) && (flags =? pf.2)) mmap2_table.

(** The signals [sb_rt_sigaction] provides for. *)
Definition sigaction_signals (e : environment) : list Z :=
  [SIGINT; SIGTERM; SIGPIPE; SIGUSR1; SIGUSR2; SIGHUP; SIGCHLD; SIGSEGV;
   SIGILL; SIGFPE; SIGBUS; SIGSYS; SIGIO]
  ++ (if defined e HAVE_SIGXFSZ then [SIGXFSZ] else []).

Definition sigaction_rule (sig : Z) : scmp_rule :=
  mk_rule SCMP_ACT_ALLOW (SCMP_SYS rt_sigaction)
    [SCMP_CMP 0 SCMP_CMP_EQ sig].

(** ** The verdict on the socket options *)

(** The options [sb_setsockopt] and [sb_getsockopt] provide for, on a
    build that is not for i386. *)
Definition setsockopt_allowed (e : environment) (level optname : Z)
    : bool :=
  ((level =? SOL_SOCKET)
   && ((optname =? SO_REUSEADDR) || (optname =? SO_SNDBUF)
       || (optname =? SO_RCVBUF)
       || (defined e HAVE_SYSTEMD && (optname =? SO_SNDBUFFORCE))))
  || (defined e HAVE_IP_TRANSPARENT
      && ((level =? SOL_IP) && (optname =? IP_TRANSPARENT)))
  || (defined e HAVE_IPV6_V6ONLY
      && ((level =? IPPROTO_IPV6) && (optname =? IPV6_V6ONLY))).

Definition getsockopt_allowed (e : environment) (level optname : Z)
    : bool :=
  ((level =? SOL_SOCKET)
   && ((optname =? SO_ERROR) || (optname =? SO_ACCEPTCONN)
       || (defined e HAVE_SYSTEMD && (optname =? SO_SNDBUF))))
  || (defined e HAVE_LINUX_NETFILTER_IPV4_H
      && ((level =? SOL_IP) && (optname =? SO_ORIGINAL_DST)))
  || (defined e HAVE_LINUX_NETFILTER_IPV6_IP6_TABLES_H
      && ((level =? SOL_IPV6) && (optname =? IP6T_SO_ORIGINAL_DST)))
  || (defined e HAVE_KIST_SUPPORT
      && ((level =? SOL_TCP) && (optname =? TCP_INFO))).

(** The rule for one pair of level and option. *)
Definition sockopt_rule (n : sysname) (level optname : Z) : scmp_rule :=
  mk_rule SCMP_ACT_ALLOW (SCMP_SYS n)
    [SCMP_CMP 1 SCMP_CMP_EQ level; SCMP_CMP 2 SCMP_CMP_EQ optname].

(** The rule [sb_socket] and its companions add first on i386, where the
    socket calls go through socketcall. *)
Definition i386_rule (e : environment) (n : sysname) : list scmp_rule :=
  if defined e i386 then [mk_rule SCMP_ACT_ALLOW (SCMP_SYS n) []] else [].

(** * Properties *)

Lemma sysname_code_inj (a b : sysname) :
  sysname_code a = sysname_code b -> a = b.
Proof.
  destruct a; destruct b; intros H; first [reflexivity | discriminate H].
Qed.

(** ** Platform capability probe *)

Lemma is_libc_at_least_ver e v major minor :
  defined e CHECK_LIBC_VERSION = true ->
  gnu_get_libc_version e = Some v ->
  is_libc_at_least e major minor = true <-> ver_le (major, minor) v.
Proof.
  intros Hd Hv. unfold is_libc_at_least, ver_le. rewrite Hd, Hv.
  destruct v as [M m]; simpl.
  destruct (Z.gtb_spec M major); [intuition lia|].
  destruct (Z.eqb_spec M major); simpl.
  - destruct (Z.geb_spec m minor); intuition (try lia; discriminate).
  - intuition (try lia; discriminate).
Qed.

(** C8, as stated, fails: the opendir probe is false for glibc 2.14, and
    no two thresholds cut the versions into a range where it is true, a
    middle range where it is false and a range where it is true again. *)
Lemma opendir_probe_not_true_below_threshold :
  opendir_probe_at (2, 14) = false /\
  ~ exists lo hi : Z * Z,
      (forall v, ver_lt v lo -> opendir_probe_at v = true) /\
      (forall v, ver_le lo v -> ver_lt v hi -> opendir_probe_at v = false) /\
      (forall v, ver_le hi v -> opendir_probe_at v = true).
Proof.
  split; [reflexivity|].
  intros (lo & hi & Hlow & Hmid & Hhigh).
  assert (H14 : ~ ver_lt (2, 14) lo).
  { intros H. specialize (Hlow _ H). discriminate Hlow. }
  assert (H15 : ~ (ver_le lo (2, 15) /\ ver_lt (2, 15) hi)).
  { intros [H1 H2]. specialize (Hmid _ H1 H2). discriminate Hmid. }
  assert (H22 : ~ ver_le hi (2, 22)).
  { intros H. specialize (Hhigh _ H). discriminate Hhigh. }
  destruct lo as [l1 l2], hi as [h1 h2].
  unfold ver_lt, ver_le in *; simpl in *. lia.
Qed.

(** C8, amended: with a known glibc version the opendir probe is false
    below 2.15, true from 2.15 up to but not including 2.22, false from
    2.22 up to but not including 2.27, and true from 2.27 on; it is false
    when the version cannot be determined. *)
Theorem libc_uses_openat_for_opendir_ranges e :
  (defined e CHECK_LIBC_VERSION = false \/ gnu_get_libc_version e = None ->
     libc_uses_openat_for_opendir e = false) /\
  (forall v,
     defined e CHECK_LIBC_VERSION = true ->
     gnu_get_libc_version e = Some v ->
     (ver_lt v (2, 15) -> libc_uses_openat_for_opendir e = false) /\
     (ver_le (2, 15) v -> ver_lt v (2, 22) ->
        libc_uses_openat_for_opendir e = true) /\
     (ver_le (2, 22) v -> ver_lt v (2, 27) ->
        libc_uses_openat_for_opendir e = false) /\
     (ver_le (2, 27) v -> libc_uses_openat_for_opendir e = true)).
Proof.
  split.
  { unfold libc_uses_openat_for_opendir, is_libc_at_least.
    intros [-> | ->]; [done|]. by destruct (defined e CHECK_LIBC_VERSION). }
  intros v Hd Hv. unfold libc_uses_openat_for_opendir.
  pose proof (is_libc_at_least_ver e v 2 27 Hd Hv) as H27.
  pose proof (is_libc_at_least_ver e v 2 15 Hd Hv) as H15.
  pose proof (is_libc_at_least_ver e v 2 22 Hd Hv) as H22.
  destruct (is_libc_at_least e 2 27), (is_libc_at_least e 2 15),
    (is_libc_at_least e 2 22); simpl;
    destruct v as [M m]; unfold ver_le, ver_lt in *; simpl in *;
    repeat split; intros; try reflexivity; exfalso;
    intuition (try discriminate; try lia).
Qed.

Lemma libc_uses_openat_for_opendir_ranges_witness :
  defined (with_libc env_linux (Some (2, 24))) CHECK_LIBC_VERSION = true /\
  gnu_get_libc_version (with_libc env_linux (Some (2, 24))) = Some (2, 24) /\
  libc_uses_openat_for_opendir (with_libc env_linux (Some (2, 24))) = false.
Proof.
  split; [reflexivity|]. split; [reflexivity|].
  destruct (libc_uses_openat_for_opendir_ranges
              (with_libc env_linux (Some (2, 24)))) as [_ Hranges].
  apply (Hranges (2, 24) eq_refl eq_refl);
    unfold ver_le, ver_lt; simpl; lia.
Defined.

(** ** Adding rules: what the installers emit *)

Lemma to_int_range z : is_int (to_int z).
Proof.
  unfold is_int, to_int.
  pose proof (Z.mod_pos_bound (z + 2 ^ 31) (2 ^ 32) ltac:(lia)). lia.
Qed.

Lemma is_int_0 : is_int 0.
Proof. unfold is_int. lia. Qed.

#[local] Hint Resolve to_int_range is_int_0 : core.

Lemma ctx_app_nil ctx : ctx = mk_ctx (ctx_default ctx) (ctx_rules ctx ++ []).
Proof. destruct ctx; simpl. by rewrite app_nil_r. Qed.

Section Emits.
Variable e : environment.
Variable sel : scmp_rule -> bool.

Lemma emits_eq prs prs' s : emits sel prs s -> prs = prs' -> emits sel prs' s.
Proof. by intros H <-. Qed.

Lemma emits_ret : emits sel [] (ret 0).
Proof.
  intros ctx. exists []. simpl. split; [apply ctx_app_nil|]. split; auto.
Qed.

Lemma emits_add act call args :
  emits sel (if sel (mk_rule act call args) then [mk_rule act call args]
             else [])
        (seccomp_rule_add e act call args).
Proof.
  intros ctx. unfold seccomp_rule_add.
  destruct (Z.eqb_spec (to_int (os_seccomp_rule_add e (ctx_rules ctx)
                                  (mk_rule act call args))) 0) as [E|E].
  - exists [mk_rule act call args]. simpl. split; [reflexivity|].
    split; [apply is_int_0|]. intros _. by destruct (sel _).
  - exists []. simpl. split; [apply ctx_app_nil|]. split; auto. done.
Qed.

Lemma emits_seq pa pb a b :
  emits sel pa a -> emits sel pb b -> emits sel (pa ++ pb) (a >> b).
Proof.
  intros Ha Hb ctx. unfold and_then.
  destruct (Ha ctx) as (rsa & Ea & Ia & Fa).
  destruct (a ctx) as [rc ctx'] eqn:Eq. simpl in *. subst ctx'.
  destruct (Z.eqb_spec rc 0) as [E|E].
  - destruct (Hb (mk_ctx (ctx_default ctx) (ctx_rules ctx ++ rsa)))
      as (rsb & Eb & Ib & Fb).
    exists (rsa ++ rsb). rewrite Eb. simpl. rewrite app_assoc.
    split; [reflexivity|]. split; [assumption|].
    intros H0. rewrite List.filter_app. by rewrite Fa, Fb.
  - exists rsa. simpl. split; [reflexivity|]. split; [assumption|]. done.
Qed.

Lemma emits_ifdef m pa a :
  emits sel pa a -> emits sel (if defined e m then pa else []) (ifdef e m a).
Proof. unfold ifdef. destruct (defined e m); auto using emits_ret. Qed.

Lemma emits_if (c : bool) pa a :
  emits sel pa a -> emits sel (if c then pa else []) (if c then a else ret 0).
Proof. destruct c; auto using emits_ret. Qed.

Lemma emits_for_each {A} (f : A -> step) (g : A -> list scmp_rule) l :
  (forall x, emits sel (g x) (f x)) ->
  emits sel (flat_map g l) (for_each f l).
Proof.
  intros H. induction l as [|x l IH]; simpl.
  - apply emits_ret.
  - by apply emits_seq.
Qed.

Lemma emits_for_each_nil {A} (f : A -> step) : emits sel [] (for_each f []).
Proof. apply emits_ret. Qed.

Lemma emits_for_each_cons {A} (f : A -> step) x l pa pb :
  emits sel pa (f x) -> emits sel pb (for_each f l) ->
  emits sel (pa ++ pb) (for_each f (x :: l)).
Proof. intros Ha Hb. simpl. by apply emits_seq. Qed.

Lemma for_each_app {A} (f : A -> step) l1 l2 ctx :
  for_each f (l1 ++ l2) ctx = (for_each f l1 >> for_each f l2) ctx.
Proof.
  revert ctx. induction l1 as [|x l1 IH]; intros ctx; simpl.
  - reflexivity.
  - unfold and_then. destruct (f x ctx) as [rc ctx'].
    destruct (rc =? 0) eqn:E; [|by rewrite E]. rewrite IH. reflexivity.
Qed.

Lemma emits_ext prs s s' :
  (forall ctx, s ctx = s' ctx) -> emits sel prs s -> emits sel prs s'.
Proof. intros E H ctx. rewrite <- E. apply H. Qed.

Lemma emits_for_each_app {A} (f : A -> step) l1 l2 pa pb :
  emits sel pa (for_each f l1) -> emits sel pb (for_each f l2) ->
  emits sel (pa ++ pb) (for_each f (l1 ++ l2)).
Proof.
  intros Ha Hb.
  apply (emits_ext _ (for_each f l1 >> for_each f l2)).
  - intros ctx. symmetry. apply for_each_app.
  - by apply emits_seq.
Qed.

Lemma emits_for_each_ifdef {A} (f : A -> step) m l pa :
  emits sel pa (for_each f l) ->
  emits sel (if defined e m then pa else []) (for_each f (ifdef_list e m l)).
Proof. unfold ifdef_list. destruct (defined e m); auto using emits_ret. Qed.

(** Installers none of whose rules is selected. *)

Lemma emits_none_add act call args :
  sel (mk_rule act call args) = false ->
  emits sel [] (seccomp_rule_add e act call args).
Proof.
  intros H. eapply emits_eq; [apply emits_add|]. by rewrite H.
Qed.

Lemma emits_none_seq a b :
  emits sel [] a -> emits sel [] b -> emits sel [] (a >> b).
Proof. intros Ha Hb. apply (emits_seq [] [] a b Ha Hb). Qed.

Lemma emits_none_ifdef m a : emits sel [] a -> emits sel [] (ifdef e m a).
Proof.
  intros H. eapply emits_eq; [apply emits_ifdef, H|]. by destruct (defined e m).
Qed.

Lemma emits_none_for_each {A} (f : A -> step) l :
  (forall x, emits sel [] (f x)) -> emits sel [] (for_each f l).
Proof.
  intros H. eapply emits_eq; [apply (emits_for_each f (fun _ => [])), H|].
  induction l; simpl; auto.
Qed.

End Emits.

Ltac emits_none :=
  unfold seccomp_rule_add_0, seccomp_rule_add_1, seccomp_rule_add_2,
    seccomp_rule_add_3, seccomp_rule_add_4;
  repeat first
    [ apply emits_none_seq
    | apply emits_none_ifdef
    | apply emits_ret
    | apply emits_none_add; reflexivity
    | apply emits_none_for_each; intros ].

Section FixedInstallers.
Variable e : environment.
Variable cfg : sandbox_cfg_t.

Lemma sb_rt_sigaction_emits : emits is_path_rule [] (sb_rt_sigaction e cfg).
Proof. unfold sb_rt_sigaction. emits_none. Qed.

Lemma sb_rt_sigprocmask_emits :
  emits is_path_rule [] (sb_rt_sigprocmask e cfg).
Proof. unfold sb_rt_sigprocmask. emits_none. Qed.

Lemma sb_time_emits : emits is_path_rule [] (sb_time e cfg).
Proof. unfold sb_time. emits_none. Qed.

Lemma sb_accept4_emits : emits is_path_rule [] (sb_accept4 e cfg).
Proof. unfold sb_accept4. emits_none. Qed.

Lemma sb_mmap2_emits : emits is_path_rule [] (sb_mmap2 e cfg).
Proof. unfold sb_mmap2. emits_none. Qed.

Lemma sb_fcntl64_emits : emits is_path_rule [] (sb_fcntl64 e cfg).
Proof. unfold sb_fcntl64. emits_none. Qed.

Lemma sb_epoll_ctl_emits : emits is_path_rule [] (sb_epoll_ctl e cfg).
Proof. unfold sb_epoll_ctl. emits_none. Qed.

Lemma sb_prctl_emits : emits is_path_rule [] (sb_prctl e cfg).
Proof. unfold sb_prctl. emits_none. Qed.

Lemma sb_mprotect_emits : emits is_path_rule [] (sb_mprotect e cfg).
Proof. unfold sb_mprotect. emits_none. Qed.

Lemma sb_flock_emits : emits is_path_rule [] (sb_flock e cfg).
Proof. unfold sb_flock. emits_none. Qed.

Lemma sb_futex_emits : emits is_path_rule [] (sb_futex e cfg).
Proof. unfold sb_futex. emits_none. Qed.

Lemma sb_mremap_emits : emits is_path_rule [] (sb_mremap e cfg).
Proof. unfold sb_mremap. emits_none. Qed.

Lemma sb_socket_emits : emits is_path_rule [] (sb_socket e cfg).
Proof. unfold sb_socket. emits_none. Qed.

Lemma sb_setsockopt_emits : emits is_path_rule [] (sb_setsockopt e cfg).
Proof. unfold sb_setsockopt. emits_none. Qed.

Lemma sb_getsockopt_emits : emits is_path_rule [] (sb_getsockopt e cfg).
Proof. unfold sb_getsockopt. emits_none. Qed.

Lemma sb_socketpair_emits : emits is_path_rule [] (sb_socketpair e cfg).
Proof. unfold sb_socketpair. emits_none. Qed.

Lemma sb_ioctl_emits : emits is_path_rule [] (sb_ioctl e cfg).
Proof. unfold sb_ioctl. emits_none. Qed.

Lemma sb_kill_emits : emits is_path_rule [] (sb_kill e cfg).
Proof. unfold sb_kill. emits_none. Qed.
End FixedInstallers.

(** ** The installers that read the registry *)

Lemma flat_map_rules_for {A B} (sel : A -> bool) (mk : A -> B) l :
  flat_map (fun p => if sel p then [mk p] else []) l
  = map mk (List.filter sel l).
Proof.
  induction l as [|x l IH]; simpl; [done|].
  destruct (sel x); simpl; by rewrite IH.
Qed.

Section PathInstallers.
Variable e : environment.
Variable cfg : sandbox_cfg_t.

Lemma allow_file_open_emits use_openat file :
  emits is_path_rule [open_rule e use_openat file]
        (allow_file_open e use_openat file).
Proof.
  unfold allow_file_open, open_rule, seccomp_rule_add_1, seccomp_rule_add_2.
  destruct use_openat; apply emits_add.
Qed.

(** A loop that adds one rule for each element that [sel] accepts. *)
Lemma path_loop_emits (sel : smp_param_t -> bool) mk (f : smp_param_t -> step) :
  (forall p, emits is_path_rule [mk p] (f p)) ->
  emits is_path_rule (rules_for sel mk cfg)
        (for_each (fun param => if sel param then f param else ret 0) cfg).
Proof.
  intros H. unfold rules_for. rewrite <- flat_map_rules_for.
  apply emits_for_each. intros p. apply emits_if, H.
Qed.

Lemma sb_open_emits :
  emits is_path_rule
    (rules_for (param_is (SCMP_SYS open))
       (fun p => open_rule e (libc_uses_openat_for_open e) (value p)) cfg)
    (sb_open e cfg).
Proof.
  unfold sb_open. apply path_loop_emits. intros p.
  apply allow_file_open_emits.
Qed.

Lemma sb_opendir_emits :
  emits is_path_rule
    (rules_for (param_is PHONY_OPENDIR_SYSCALL)
       (fun p => open_rule e (libc_uses_openat_for_opendir e) (value p)) cfg)
    (sb_opendir e cfg).
Proof.
  unfold sb_opendir. apply path_loop_emits. intros p.
  apply allow_file_open_emits.
Qed.

Lemma sb_chmod_emits :
  emits is_path_rule
    (rules_for (param_is (SCMP_SYS chmod))
       (fun p => path_rule chmod (value p)) cfg)
    (sb_chmod e cfg).
Proof.
  unfold sb_chmod. apply (path_loop_emits _ (fun p => path_rule chmod (value p))).
  intros p. apply emits_add.
Qed.

Lemma sb_chown_emits :
  emits is_path_rule
    (rules_for (param_is (SCMP_SYS chown))
       (fun p => path_rule chown (value p)) cfg)
    (sb_chown e cfg).
Proof.
  unfold sb_chown. apply (path_loop_emits _ (fun p => path_rule chown (value p))).
  intros p. apply emits_add.
Qed.

Lemma sb_rename_emits :
  emits is_path_rule (rules_for (param_is (SCMP_SYS rename)) rename_rule cfg)
        (sb_rename e cfg).
Proof.
  unfold sb_rename. apply (path_loop_emits _ rename_rule).
  intros p. apply emits_add.
Qed.

Lemma sb_openat_emits :
  emits is_path_rule
    (rules_for (param_is (SCMP_SYS openat))
       (fun p => openat_rule e (value p)) cfg)
    (sb_openat e cfg).
Proof.
  unfold sb_openat. apply (path_loop_emits _ (fun p => openat_rule e (value p))).
  intros p. apply emits_add.
Qed.

Lemma sb_stat64_emits :
  emits is_path_rule
    (rules_for stat64_param (fun p => path_rule stat64 (value p)) cfg)
    (sb_stat64 e cfg).
Proof.
  unfold sb_stat64.
  apply (path_loop_emits stat64_param (fun p => path_rule stat64 (value p))).
  intros p. apply emits_add.
Qed.
End PathInstallers.

Create HintDb installers.
#[local] Hint Resolve sb_rt_sigaction_emits sb_rt_sigprocmask_emits
  sb_time_emits sb_accept4_emits sb_mmap2_emits sb_fcntl64_emits
  sb_epoll_ctl_emits sb_prctl_emits sb_mprotect_emits sb_flock_emits
  sb_futex_emits sb_mremap_emits sb_socket_emits sb_setsockopt_emits
  sb_getsockopt_emits sb_socketpair_emits sb_ioctl_emits sb_kill_emits
  sb_open_emits sb_opendir_emits sb_chmod_emits sb_chown_emits
  sb_rename_emits sb_openat_emits sb_stat64_emits : installers.

Lemma if_nil {A} (b : bool) : (if b then [] else []) = @nil A.
Proof. by destruct b. Qed.

Lemma add_param_filter_emits e cfg :
  emits is_path_rule (param_path_rules e cfg) (add_param_filter e cfg).
Proof.
  unfold add_param_filter, filter_func. simpl concat.
  eapply emits_eq.
  - repeat first
      [ solve [eauto with installers]
      | eapply emits_for_each_app
      | eapply emits_for_each_ifdef
      | eapply emits_for_each_cons
      | eapply emits_for_each_nil ].
  - unfold param_path_rules. simpl. rewrite ?if_nil, ?app_nil_r. simpl.
    rewrite ?app_nil_r. reflexivity.
Qed.

Lemma for_each_map {A B} (f : B -> step) (g : A -> B) l ctx :
  for_each f (map g l) ctx = for_each (fun x => f (g x)) l ctx.
Proof.
  revert ctx. induction l as [|x l IH]; intros ctx; simpl; [done|].
  unfold and_then. destruct (f (g x) ctx) as [rc ctx'].
  destruct (rc =? 0); [apply IH|done].
Qed.

Lemma emits_for_each_map {A B} sel (f : B -> step) (g : A -> B) l prs :
  emits sel prs (for_each (fun x => f (g x)) l) ->
  emits sel prs (for_each f (map g l)).
Proof.
  apply emits_ext. intros ctx. symmetry. apply for_each_map.
Qed.

Lemma add_noparam_filter_emits e :
  emits is_path_rule (noparam_path_rules e) (add_noparam_filter e).
Proof.
  unfold add_noparam_filter, filter_nopar_gen. simpl concat.
  eapply emits_eq.
  - eapply emits_seq.
    + apply emits_for_each_map.
      repeat first
        [ eapply emits_for_each_app
        | eapply emits_for_each_ifdef
        | eapply emits_for_each_cons
        | eapply emits_for_each_nil
        | eapply emits_add ].
    + apply emits_if.
      apply emits_none_ifdef, emits_none_add. reflexivity.
  - unfold noparam_path_rules. simpl.
    rewrite ?if_nil, ?app_nil_r. simpl. rewrite ?if_nil, ?app_nil_r.
    reflexivity.
Qed.

(** ** The string protection rules and the installation *)

Lemma prot_strings_rules_emits e pr_mem_base pr_mem_size :
  emits all_rules (prot_rules pr_mem_base pr_mem_size)
        (prot_strings_rules e pr_mem_base pr_mem_size).
Proof.
  unfold prot_strings_rules, seccomp_rule_add_1, seccomp_rule_add_3.
  eapply emits_eq; [repeat first [eapply emits_seq | eapply emits_add]|].
  reflexivity.
Qed.

Lemma filter_all_rules l : List.filter all_rules l = l.
Proof. induction l; simpl; congruence. Qed.

(** What [prot_strings] returns: the context only grows, the status is an
    [int], and on success the arena was mapped, every string was copied,
    and the four rules tied to the arena were added. *)
Lemma prot_strings_spec e cfg ctx :
  let r := prot_strings e cfg ctx in
  let pr_mem_size := prot_strings_size 0 cfg in
  is_int r.1.1 /\
  ctx_default r.1.2 = ctx_default ctx /\
  (r.1.1 = 0 ->
   exists b st,
     os_mmap e (to_size_t (MALLOC_MP_LIM + pr_mem_size)) = Some b /\
     prot_strings_copy (prot_strings_start (Z.of_N b) pr_mem_size) cfg
       = (0, st, r.2) /\
     ctx_rules r.1.2 = ctx_rules ctx ++ prot_rules (Z.of_N b) pr_mem_size).
Proof.
  unfold prot_strings. simpl.
  destruct (os_mmap e _) as [b|] eqn:Emap; simpl.
  2: { split; [unfold is_int; lia|]. split; [done|]. intros H; discriminate H. }
  destruct (prot_strings_copy _ cfg) as [[ret st] cfg'] eqn:Ecopy.
  assert (Hret : ret = 0 \/ ret = -2).
  { clear -Ecopy. revert Ecopy.
    generalize (prot_strings_start (Z.of_N b) (prot_strings_size 0 cfg)).
    revert ret st cfg'.
    induction cfg as [|el cfg IH]; intros ret st cfg' st0; simpl.
    - intros [= <- <- <-]. by left.
    - destruct (prot_strings_helper st0 (Some (value el))) as [[rc1 st1] v1].
      destruct (rc1 <? 0); [intros [= <- <- <-]; by right|].
      destruct (prot_strings_helper st1 _) as [[rc2 st2] v2].
      destruct (rc2 <? 0); [intros [= <- <- <-]; by right|].
      destruct (prot_strings_copy st2 cfg) as [[ret' st'] next'] eqn:E.
      intros [= <- <- <-]. eapply IH, E. }
  destruct (Z.eqb_spec ret 0) as [->|Hne]; simpl.
  2: { destruct Hret as [?| ->]; [done|].
       split; [unfold is_int; lia|]. split; [done|]. intros H; discriminate H. }
  destruct (to_int (os_mprotect e _ _ _) =? 0); simpl.
  2: { split; [unfold is_int; lia|]. split; [done|]. intros H; discriminate H. }
  destruct (prot_strings_rules_emits e (Z.of_N b) (prot_strings_size 0 cfg) ctx)
    as (rs & E2 & Hint & Hrs).
  destruct (prot_strings_rules e _ _ ctx) as [rc2 ctx2]; simpl in *.
  split; [done|]. split; [by rewrite E2|].
  intros ->. exists b, st. split; [done|]. split; [done|].
  rewrite E2. simpl. f_equal. rewrite <- Hrs by done.
  by rewrite filter_all_rules.
Qed.

Lemma install_result_nonzero rc : is_int rc -> rc <> 0 -> install_result rc <> 0.
Proof.
  unfold install_result, is_int, to_int. intros Hint Hne.
  destruct (Z.ltb_spec rc 0); [|done].
  destruct (Z.eq_dec rc (- 2 ^ 31)) as [->|Hmin]; [done|].
  rewrite Z.mod_small by lia. lia.
Qed.

(** [seccomp_load] returns an [int], and 0 only when every loaded filter
    lets the load through and the kernel accepts the filter. *)
Lemma seccomp_load_spec e w ctx :
  is_int (seccomp_load e w ctx) /\
  (seccomp_load e w ctx = 0 <->
   load_permitted w = true /\ to_int (os_seccomp_load e ctx) = 0).
Proof.
  unfold seccomp_load. destruct (load_permitted w).
  - split; [apply to_int_range|]. tauto.
  - split; [by vm_compute|]. split; [discriminate|]. by intros [? _].
Qed.

(** The step that fails depends on the process state through the loaded
    filters only. *)
Lemma first_failure_filters e w w' cfg :
  kernel_filters w = kernel_filters w' ->
  first_failure e w cfg = first_failure e w' cfg.
Proof.
  intros Hk. unfold first_failure, seccomp_load, load_permitted.
  by rewrite Hk.
Qed.

(** The outcome of [install_syscall_filter], by the first step that
    fails: on a failure the status is not 0 and the process state is as
    before; otherwise the status is 0 and the state records the filter
    that was loaded, whose rules for the path syscalls are those of the
    two tables. *)
Lemma install_syscall_filter_spec e w cfg :
  let r := install_syscall_filter e w cfg in
  let pr_mem_size := prot_strings_size 0 cfg in
  match first_failure e w cfg with
  | Some _ => r.1.1 <> 0 /\ r.1.2 = w /\ is_int r.1.1
  | None =>
      r.1.1 = 0 /\
      exists b st F,
        os_mmap e (to_size_t (MALLOC_MP_LIM + pr_mem_size)) = Some b /\
        prot_strings_copy (prot_strings_start (Z.of_N b) pr_mem_size) cfg
          = (0, st, r.2) /\
        r.1.2 = mk_world 1 (filter_dynamic w) (kernel_filters w ++ [F])
                         (libc_fatal_stderr w) (sigsys_handler w) /\
        ctx_default F = SCMP_ACT_ERRNO EPERM /\
        (load_permitted w = true /\ to_int (os_seccomp_load e F) = 0) /\
        (exists rs, ctx_rules F = prot_rules (Z.of_N b) pr_mem_size ++ rs) /\
        List.filter is_path_rule (ctx_rules F)
          = param_path_rules e r.2 ++ noparam_path_rules e
  end.
Proof.
  unfold install_syscall_filter, first_failure. simpl.
  destruct (os_seccomp_init e); simpl.
  2: { split; [done|]. split; [done|]. by vm_compute. }
  pose proof (prot_strings_spec e cfg (mk_ctx (SCMP_ACT_ERRNO EPERM) []))
    as (Hi1 & Hd1 & Hok1).
  destruct (prot_strings e cfg _) as [[rc1 ctx1] cfg1]; simpl in *.
  destruct (Z.eqb_spec rc1 0) as [->|Hne1]; simpl.
  2: { split; [by apply install_result_nonzero|]. split; [done|].
       unfold install_result. destruct (rc1 <? 0); auto. }
  destruct (Hok1 eq_refl) as (b & st & Emap & Ecopy & Erules1).
  destruct ctx1 as [d1 r1]. cbn [ctx_default ctx_rules] in *. subst d1 r1.
  set (ctx1 := mk_ctx _ _).
  destruct (add_param_filter_emits e cfg1 ctx1) as (rs2 & E2 & Hi2 & Hrs2).
  destruct (add_param_filter e cfg1 ctx1) as [rc2 ctx2].
  cbn [fst snd] in *. subst ctx2.
  destruct (Z.eqb_spec rc2 0) as [->|Hne2]; cbn [negb fst snd].
  2: { split; [by apply install_result_nonzero|]. split; [done|].
       unfold install_result. destruct (rc2 <? 0); auto. }
  set (ctx2 := mk_ctx _ _).
  destruct (add_noparam_filter_emits e ctx2) as (rs3 & E3 & Hi3 & Hrs3).
  destruct (add_noparam_filter e ctx2) as [rc3 ctx3].
  cbn [fst snd] in *. subst ctx3.
  destruct (Z.eqb_spec rc3 0) as [->|Hne3]; cbn [negb fst snd].
  2: { split; [by apply install_result_nonzero|]. split; [done|].
       unfold install_result. destruct (rc3 <? 0); auto. }
  set (ctx3 := mk_ctx _ _).
  pose proof (seccomp_load_spec e w ctx3) as Hload.
  destruct (Z.eqb_spec (seccomp_load e w ctx3) 0) as [E4|Hne4];
    cbn [negb fst snd].
  2: { destruct Hload as [Hi4 _].
       split; [by apply install_result_nonzero|]. split; [done|].
       unfold install_result. destruct (_ <? 0); auto. }
  split; [by rewrite E4|]. destruct Hload as [_ Hload].
  exists b, st, ctx3. split; [done|]. split; [done|]. split; [done|].
  split; [done|]. split; [by apply Hload|]. subst ctx3 ctx2 ctx1.
  cbn [ctx_default ctx_rules app]. split.
  - eexists. rewrite <- app_assoc. reflexivity.
  - rewrite !List.filter_app. rewrite Hrs2, Hrs3 by done. reflexivity.
Qed.

(** C3: if any step of the installation fails (the seccomp context, the
    string protection, the parameter rules, the parameterless rules or
    the load into the kernel), [install_syscall_filter] returns a nonzero
    status and leaves the process state, [sandbox_active] with it,
    unchanged; when no step fails it returns 0 and [sandbox_active] is 1,
    a filter having been loaded. *)
Theorem install_failure_leaves_sandbox_inactive e w cfg :
  let r := install_syscall_filter e w cfg in
  (first_failure e w cfg <> None ->
     r.1.1 <> 0 /\ r.1.2 = w /\
     (sandbox_active w = 0 -> sandbox_active r.1.2 = 0)) /\
  (first_failure e w cfg = None ->
     r.1.1 = 0 /\ sandbox_active r.1.2 = 1 /\
     exists F, to_int (os_seccomp_load e F) = 0 /\
               kernel_filters r.1.2 = kernel_filters w ++ [F]) /\
  (sandbox_active r.1.2 <> sandbox_active w -> first_failure e w cfg = None).
Proof.
  intros r. pose proof (install_syscall_filter_spec e w cfg) as H.
  simpl in H. fold r in H.
  destruct (first_failure e w cfg) as [s|].
  - destruct H as (Hrc & Hw & _). repeat split; try done.
    + by rewrite Hw.
    + intros Hne. by rewrite Hw in Hne.
  - destruct H as (Hrc & b & st & F & _ & _ & Hw & _ & [_ Hload] & _).
    repeat split; try done.
    + by rewrite Hw.
    + exists F. by rewrite Hw.
Qed.

Lemma install_failure_leaves_sandbox_inactive_witness :
  first_failure (with_load env_linux (-1)) initial_world example_cfg
  = Some step_seccomp_load
  /\ (install_syscall_filter (with_load env_linux (-1)) initial_world
        example_cfg).1.1 <> 0
  /\ sandbox_active
       (install_syscall_filter (with_load env_linux (-1)) initial_world
          example_cfg).1.2 = 0.
Proof.
  split; [vm_compute; reflexivity|].
  destruct (install_failure_leaves_sandbox_inactive
              (with_load env_linux (-1)) initial_world example_cfg)
    as (Hfail & _ & _).
  destruct Hfail as (Hrc & _ & Hact).
  - vm_compute. discriminate.
  - split; [exact Hrc|]. apply Hact. reflexivity.
Defined.

(** ** The lifecycle: [sandbox_init] and the registration functions *)

(** The two outcomes of [sandbox_init]: either nothing is installed and
    the two static variables and the loaded filters are as before, or a
    whole installation took place. *)
Lemma sandbox_init_spec e w cfg :
  let r := sandbox_init e w cfg in
  (sandbox_active r.1.2 = sandbox_active w /\
   filter_dynamic r.1.2 = filter_dynamic w /\
   kernel_filters r.1.2 = kernel_filters w /\
   (if defined e USE_LIBSECCOMP then r.1.1 = -1 \/ r.1.1 = -2
    else r.1.1 = 0 /\ r.1.2 = w /\ r.2 = cfg))
  \/
  (defined e USE_LIBSECCOMP = true /\
   to_int (os_sigaction e) >= 0 /\ to_int (os_sigprocmask e) = 0 /\
   first_failure e w cfg = None /\
   r.1.1 = 0 /\ sandbox_active r.1.2 = 1 /\
   filter_dynamic r.1.2 = filter_dynamic w ++ r.2 /\
   exists F, kernel_filters r.1.2 = kernel_filters w ++ [F] /\
             to_int (os_seccomp_load e F) = 0).
Proof.
  unfold sandbox_init. destruct (defined e USE_LIBSECCOMP) eqn:Hdef; simpl.
  2: { left. repeat split; done. }
  unfold initialise_libseccomp_sandbox, install_sigsys_debugging.
  destruct (Z.ltb_spec (to_int (os_sigaction e)) 0) as [Hsa|Hsa]; simpl.
  { left. repeat split; auto. }
  destruct (Z.eqb_spec (to_int (os_sigprocmask e)) 0) as [Hsp|Hsp]; simpl.
  2: { left. repeat split; auto. }
  set (w1 := mk_world _ _ _ _ _).
  pose proof (install_syscall_filter_spec e w1 cfg) as H. simpl in H.
  destruct (install_syscall_filter e w1 cfg) as [[rc w2] cfg2]. simpl in H.
  rewrite (first_failure_filters e w1 w) in H by done.
  destruct (first_failure e w cfg) as [s|].
  - destruct H as (Hrc & -> & _).
    destruct (Z.eqb_spec rc 0); [done|]. simpl. left. repeat split; auto.
  - destruct H as (-> & b & st & F & _ & _ & -> & _ & [_ Hload] & _). simpl.
    right. split; [done|]. split; [lia|]. split; [done|]. split; [done|].
    unfold register_cfg. simpl.
    destruct (filter_dynamic w) as [|p l] eqn:Hfd; simpl;
      (split; [done|]; split; [done|]; split; [|by exists F]).
    + done.
    + done.
Qed.

(** An inactive sandbox has registered nothing and loaded nothing. *)
Lemma reachable_inactive w :
  reachable w ->
  sandbox_active w = 0 -> filter_dynamic w = [] /\ kernel_filters w = [].
Proof.
  induction 1 as [|e w cfg Hw IH]; [done|].
  destruct (sandbox_init_spec e w cfg)
    as [(Ha & Hf & Hk & _)|(_ & _ & _ & _ & _ & Ha & _)].
  - rewrite Ha, Hf, Hk. exact IH.
  - rewrite Ha. discriminate.
Qed.

(** C4, as stated, fails: with a filter installed and the sandbox
    active, registering a path for open succeeds (status 0) and the new
    element is at the head of the caller's list. *)
Lemma registration_succeeds_when_active :
  sandbox_active example_world = 1 /\
  sandbox_cfg_allow_open_filename env_linux example_world second_cfg
    (mk_cstr 32768 "/etc/shadow")
  = (0, new_element (SCMP_SYS open) (mk_cstr 32768 "/etc/shadow")
        :: second_cfg,
     example_world).
Proof. split; [vm_compute; reflexivity|reflexivity]. Qed.

(** C4, amended: no registration function consults [sandbox_active].
    Active or not, each returns 0 and leaves the process state, the
    loaded filters and the registered list included, as it is; with
    libseccomp it puts a new, unprotected element at the head of the
    caller's list, without it the list is unchanged. *)
Theorem registration_never_rejects e w cfg (file file2 : cstr) :
  let added el := (0, (if defined e USE_LIBSECCOMP then el :: cfg else cfg), w)
  in
  sandbox_cfg_allow_open_filename e w cfg file
    = added (mk_param (SCMP_SYS open) file None 0) /\
  sandbox_cfg_allow_stat_filename e w cfg file
    = added (mk_param (SCMP_stat e) file None 0) /\
  sandbox_cfg_allow_chmod_filename e w cfg file
    = added (mk_param (SCMP_SYS chmod) file None 0) /\
  sandbox_cfg_allow_chown_filename e w cfg file
    = added (mk_param (SCMP_SYS chown) file None 0) /\
  sandbox_cfg_allow_rename e w cfg file file2
    = added (mk_param (SCMP_SYS rename) file (Some file2) 0) /\
  sandbox_cfg_allow_openat_filename e w cfg file
    = added (mk_param (SCMP_SYS openat) file None 0) /\
  sandbox_cfg_allow_opendir_dirname e w cfg file
    = added (mk_param PHONY_OPENDIR_SYSCALL file None 0).
Proof.
  unfold sandbox_cfg_allow_open_filename, sandbox_cfg_allow_stat_filename,
    sandbox_cfg_allow_chmod_filename, sandbox_cfg_allow_chown_filename,
    sandbox_cfg_allow_rename, sandbox_cfg_allow_openat_filename,
    sandbox_cfg_allow_opendir_dirname, new_element, new_element2.
  simpl. by destruct (defined e USE_LIBSECCOMP).
Qed.

(** ** Looking up interned strings *)

Lemma interned_in_cons p cfg r :
  interned_in (p :: cfg) r <->
  (prot p <> 0 /\ In r (param_strings p)) \/ interned_in cfg r.
Proof.
  unfold interned_in. split.
  - intros (q & [<-|Hq] & Hp & Hr); [by left|]. right. by exists q.
  - intros [[Hp Hr]|(q & Hq & Hp & Hr)].
    + exists p. repeat split; auto. by left.
    + exists q. repeat split; auto. by right.
Qed.

Lemma get_interned_string_Some cfg s r :
  get_interned_string cfg s = Some r ->
  interned_in cfg r /\ c_str r = c_str s.
Proof.
  induction cfg as [|p cfg IH]; simpl; [done|].
  rewrite interned_in_cons. unfold param_strings, streq.
  destruct (Z.eqb_spec (prot p) 0) as [Hp|Hp]; simpl.
  { intros H. destruct (IH H). auto. }
  case_bool_decide as E1.
  { intros [= <-]. split; [|done]. left. split; [done|]. by left. }
  destruct (value2 p) as [v2|].
  - case_bool_decide as E2.
    + intros [= <-]. split; [|done]. left. split; [done|]. right. by left.
    + intros H. destruct (IH H). auto.
  - intros H. destruct (IH H). auto.
Qed.

Lemma get_interned_string_None cfg s r :
  get_interned_string cfg s = None ->
  interned_in cfg r -> c_str r <> c_str s.
Proof.
  induction cfg as [|p cfg IH]; simpl.
  { intros _ (q & [] & _). }
  rewrite interned_in_cons. unfold param_strings, streq.
  destruct (Z.eqb_spec (prot p) 0) as [Hp|Hp]; simpl.
  { intros H [[? _]|Hr]; [done|]. by apply IH. }
  case_bool_decide as E1; [done|].
  destruct (value2 p) as [v2|].
  - case_bool_decide as E2; [done|].
    intros H [[_ [<-|[<-|[]]]]|Hr]; [congruence|congruence|]. by apply IH.
  - intros H [[_ [<-|[]]]|Hr]; [congruence|]. by apply IH.
Qed.

Lemma get_interned_string_content cfg s s' :
  c_str s' = c_str s -> get_interned_string cfg s' = get_interned_string cfg s.
Proof.
  intros E. induction cfg as [|p cfg IH]; simpl; [done|].
  unfold streq. rewrite E, IH. reflexivity.
Qed.

(** C6: for a non-NULL string [s], [sandbox_intern_string] returns an
    interned copy, a string of a protected element of the registered list
    that equals [s] byte for byte, whenever there is one, and the same
    copy for every pointer to those bytes; it returns [s] itself when
    there is none, as is the case while the sandbox is inactive.
    [sandbox_interned_string_is_missing] is true exactly when the sandbox
    is active and there is no interned copy of [s]. *)
Theorem sandbox_intern_string_spec w (s : cstr) :
  (has_interned_copy w s ->
     exists r, sandbox_intern_string w (Some s) = Some r /\
               interned_in (filter_dynamic w) r /\ c_str r = c_str s) /\
  (forall s', c_str s' = c_str s ->
     has_interned_copy w s ->
     sandbox_intern_string w (Some s') = sandbox_intern_string w (Some s)) /\
  (~ has_interned_copy w s -> sandbox_intern_string w (Some s) = Some s) /\
  (reachable w -> sandbox_active w = 0 ->
     sandbox_intern_string w (Some s) = Some s) /\
  (sandbox_interned_string_is_missing w (Some s) = true <->
     sandbox_active w <> 0 /\ ~ has_interned_copy w s).
Proof.
  unfold sandbox_intern_string, sandbox_interned_string_is_missing,
    sandbox_get_interned_string, has_interned_copy.
  destruct (get_interned_string (filter_dynamic w) s) as [r|] eqn:Hget.
  - destruct (get_interned_string_Some _ _ _ Hget) as [Hin Hstr].
    split; [intros _; by exists r|]. split.
    { intros s' E _. by rewrite (get_interned_string_content _ s s' E), Hget. }
    split; [intros []; by exists r|]. split.
    { intros Hw H0. destruct (reachable_inactive w Hw H0) as [Hfd _].
      rewrite Hfd in Hget. discriminate Hget. }
    rewrite bool_decide_eq_false_2 by done. rewrite andb_false_r.
    split; [done|]. intros [_ []]. by exists r.
  - assert (Hno : ~ exists r, interned_in (filter_dynamic w) r
                              /\ c_str r = c_str s).
    { intros (r & Hin & Hstr).
      by apply (get_interned_string_None _ _ _ Hget Hin). }
    split; [done|]. split.
    { intros s' E H. by destruct Hno. }
    split; [done|]. split; [done|].
    rewrite bool_decide_eq_true_2 by done. rewrite andb_true_r.
    destruct (Z.eqb_spec (sandbox_active w) 0); simpl; intuition congruence.
Qed.

Lemma sandbox_intern_string_spec_witness :
  has_interned_copy example_world (mk_cstr 4096 "/tmp/b") /\
  exists r, sandbox_intern_string example_world (Some (mk_cstr 4096 "/tmp/b"))
            = Some r /\
            interned_in (filter_dynamic example_world) r /\
            c_str r = "/tmp/b"%string.
Proof.
  assert (Hcopy : has_interned_copy example_world (mk_cstr 4096 "/tmp/b")).
  { exists (mk_cstr (139637976727552 + MALLOC_MP_LIM + 26) "/tmp/b").
    split; [|reflexivity].
    exists (mk_param (SCMP_SYS rename)
              (mk_cstr (139637976727552 + MALLOC_MP_LIM + 19) "/tmp/a")
              (Some (mk_cstr (139637976727552 + MALLOC_MP_LIM + 26) "/tmp/b"))
              1).
    split; [vm_compute; auto|]. split; [done|]. vm_compute; auto. }
  split; [exact Hcopy|].
  destruct (sandbox_intern_string_spec example_world (mk_cstr 4096 "/tmp/b"))
    as [Hfound _].
  exact (Hfound Hcopy).
Defined.

(** ** The string protection arena *)

Lemma string_size_nonneg s : 0 <= string_size s.
Proof.
  unfold string_size, to_size_t.
  pose proof (Z.mod_pos_bound (Z.of_nat (String.length s) + 1) (2 ^ 64)
                ltac:(lia)). lia.
Qed.

Lemma packed_snoc a m z x s :
  packed a m z -> x = z -> packed a (m ++ [(x, s)]) (z + string_size s).
Proof.
  revert a. induction m as [|[y t] m IH]; simpl; intros a.
  - intros <- ->. done.
  - intros [-> H] ->. split; [done|]. by apply IH.
Qed.

Lemma packed_bounds a m z :
  packed a m z ->
  a <= z /\ forall x s, In (x, s) m -> a <= x /\ x + string_size s <= z.
Proof.
  revert a. induction m as [|[y t] m IH]; simpl; intros a.
  - intros <-. split; [lia|]. intros ? ? [].
  - intros [-> H]. destruct (IH _ H) as [Hle Hin].
    pose proof (string_size_nonneg t).
    split; [lia|]. intros x s [[= <- <-]|Hxs]; [lia|].
    destruct (Hin _ _ Hxs). lia.
Qed.

Lemma NoDup_snd_inj {A B} (m : list (A * B)) a1 a2 k :
  NoDup (map snd m) -> In (a1, k) m -> In (a2, k) m -> a1 = a2.
Proof.
  induction m as [|[a b] m IH]; simpl; [done|].
  rewrite NoDup_cons. intros [Hnot Hnd] [E1|H1] [E2|H2].
  - congruence.
  - exfalso. inversion E1; subst. apply Hnot.
    apply list_elem_of_In, in_map_iff. by exists (a2, k).
  - exfalso. inversion E2; subst. apply Hnot.
    apply list_elem_of_In, in_map_iff. by exists (a1, k).
  - by apply IH.
Qed.

Lemma arena_inv_start start pr_mem_size :
  0 < start -> 0 <= pr_mem_size ->
  arena_inv start (start + pr_mem_size)
            (mk_prot_state ∅ start pr_mem_size []).
Proof.
  intros H1 H2. unfold arena_inv; simpl.
  repeat split; try done; try apply NoDup_nil_2.
Qed.

(** One call of the helper on a string: it fails only for lack of space;
    otherwise the state stays consistent, nothing copied before is lost,
    and the pointer it stores is that of the copy of the same bytes. *)
Lemma prot_strings_helper_inv start end_ st v :
  arena_inv start end_ st ->
  let r := prot_strings_helper st (Some v) in
  (r.1.1 = -1 /\ pr_mem_left st < string_size (c_str v) /\
   r.1.2 = st /\ r.2 = Some v)
  \/
  (r.1.1 = 0 /\ arena_inv start end_ r.1.2 /\
   (forall x, In x (pr_mem st) -> In x (pr_mem r.1.2)) /\
   pr_mem_left st - string_size (c_str v) <= pr_mem_left r.1.2 /\
   exists u, r.2 = Some u /\ c_str u = c_str v /\
             In (c_addr u, c_str u) (pr_mem r.1.2)).
Proof.
  intros (Hstart & Hpacked & Hleft & Hend & Hnd & Hloc).
  unfold prot_strings_helper, strmap_get, strlen. fold (string_size (c_str v)).
  pose proof (string_size_nonneg (c_str v)) as Hsz.
  destruct (packed_bounds _ _ _ Hpacked) as [Hnext Hbnd].
  destruct (locations st !! c_str v) as [l|] eqn:Hlook; simpl.
  - (* We already interned this string. *)
    assert (Hin : In (l, c_str v) (pr_mem st)) by by apply Hloc.
    assert (l <> 0) by (destruct (Hbnd _ _ Hin); lia).
    destruct (Z.eqb_spec l 0); [done|]. simpl. right.
    split; [done|]. split; [done|]. split; [done|]. split; [lia|].
    eexists. split; [done|]. simpl. done.
  - destruct (Z.geb_spec (pr_mem_left st) (string_size (c_str v)))
      as [Hfit|Hfit]; simpl.
    + (* copy to protected *)
      right. split; [done|]. split.
      { unfold arena_inv; simpl. split; [done|].
        split; [by apply packed_snoc|]. split; [lia|]. split; [lia|]. split.
        - rewrite map_app. simpl. apply NoDup_app. split; [done|].
          split; [|apply NoDup_singleton].
          intros k Hk ->%list_elem_of_singleton.
          apply list_elem_of_In, in_map_iff in Hk as ([l k'] & E & Hk).
          simpl in E. subst k'. apply Hloc in Hk. congruence.
        - intros k l. rewrite in_app_iff. simpl.
          destruct (decide (c_str v = k)) as [<-|Hk].
          + rewrite lookup_insert_eq. rewrite <- Hloc, Hlook.
            split; [intros [= <-]; auto|].
            intros [?|[[= <-]|[]]]; [done|done].
          + rewrite lookup_insert_ne by done. rewrite Hloc.
            split; [auto|]. intros [?|[[= ? ?]|[]]]; [done|done]. }
      split; [intros x Hx; apply in_app_iff; by left|]. split; [lia|].
      eexists. split; [done|]. simpl. split; [done|].
      apply in_app_iff. right. by left.
    + left. split; [done|]. split; [lia|]. done.
Qed.

Lemma prot_strings_helper_None st :
  prot_strings_helper st None = (0, st, None).
Proof. reflexivity. Qed.

(** With room for the string the helper does not fail, and it takes no
    more room than the string needs. *)
Lemma prot_strings_helper_space st v :
  string_size (c_str v) <= pr_mem_left st ->
  let r := prot_strings_helper st (Some v) in
  r.1.1 = 0 /\ pr_mem_left st - string_size (c_str v) <= pr_mem_left r.1.2.
Proof.
  intros Hfit. unfold prot_strings_helper, strlen.
  fold (string_size (c_str v)).
  pose proof (string_size_nonneg (c_str v)).
  destruct (negb _); simpl; [lia|].
  destruct (Z.geb_spec (pr_mem_left st) (string_size (c_str v))); simpl; lia.
Qed.

Lemma strlen_nonneg v : 0 <= strlen v.
Proof. unfold strlen. lia. Qed.

Lemma param_bytes_pos p : 0 < param_bytes p.
Proof.
  unfold param_bytes. pose proof (strlen_nonneg (value p)).
  destruct (value2 p) as [v2|]; [pose proof (strlen_nonneg v2)|]; lia.
Qed.

Lemma cfg_bytes_nonneg cfg : 0 <= cfg_bytes cfg.
Proof.
  induction cfg as [|p cfg IH]; simpl; [lia|].
  pose proof (param_bytes_pos p). lia.
Qed.

Lemma string_size_small v :
  strlen v + 1 < 2 ^ 64 -> string_size (c_str v) = strlen v + 1.
Proof.
  intros H. unfold string_size, to_size_t. fold (strlen v).
  pose proof (strlen_nonneg v). apply Z.mod_small. lia.
Qed.

(** Without wrap-around the first loop computes the sum of [strlen + 1]
    over all string arguments. *)
Lemma prot_strings_size_exact cfg acc :
  0 <= acc -> acc + cfg_bytes cfg < 2 ^ 64 ->
  prot_strings_size acc cfg = acc + cfg_bytes cfg.
Proof.
  revert acc. induction cfg as [|p cfg IH]; intros acc Hacc Hsum; simpl in *.
  { lia. }
  pose proof (cfg_bytes_nonneg cfg). pose proof (strlen_nonneg (value p)).
  unfold param_bytes in *. unfold to_size_t.
  destruct (value2 p) as [v2|].
  - pose proof (strlen_nonneg v2).
    rewrite (Z.mod_small (acc + _)) by lia.
    rewrite Z.mod_small by lia. rewrite IH; lia.
  - rewrite Z.mod_small by lia. rewrite IH; lia.
Qed.

Lemma prot_strings_copy_space cfg st :
  cfg_bytes cfg < 2 ^ 64 -> cfg_bytes cfg <= pr_mem_left st ->
  (prot_strings_copy st cfg).1.1 = 0.
Proof.
  revert st. induction cfg as [|el cfg IH]; intros st Hsmall Hfit; [done|].
  simpl in Hsmall, Hfit. unfold param_bytes in *.
  pose proof (cfg_bytes_nonneg cfg). pose proof (strlen_nonneg (value el)).
  assert (Hv2 : 0 <= match value2 el with
                     | Some v2 => strlen v2 + 1 | None => 0 end).
  { destruct (value2 el) as [v2|]; [pose proof (strlen_nonneg v2)|]; lia. }
  simpl.
  destruct (prot_strings_helper_space st (value el)) as [Hrc1 Hleft1].
  { rewrite string_size_small; lia. }
  rewrite string_size_small in Hleft1 by lia.
  destruct (prot_strings_helper st (Some (value el))) as [[rc1 st1] v1].
  simpl in Hrc1, Hleft1. subst rc1. simpl.
  assert (Hcall2 : let r := prot_strings_helper st1 (value2 el) in
            r.1.1 = 0 /\
            pr_mem_left st1
              - match value2 el with
                | Some v2 => strlen v2 + 1 | None => 0 end
            <= pr_mem_left r.1.2).
  { destruct (value2 el) as [v2|]; simpl.
    - pose proof (strlen_nonneg v2).
      destruct (prot_strings_helper_space st1 v2) as [Hrc2 Hleft2].
      { rewrite string_size_small; lia. }
      rewrite string_size_small in Hleft2 by lia. done.
    - simpl. lia. }
  destruct (prot_strings_helper st1 (value2 el)) as [[rc2 st2] v2'].
  simpl in Hcall2. destruct Hcall2 as [-> Hleft2]. simpl.
  specialize (IH st2 ltac:(lia) ltac:(lia)).
  destruct (prot_strings_copy st2 cfg) as [[ret st3] next]. done.
Qed.

(** C9: when the strings of the registry fit in the address space, the
    first loop of [prot_strings] sizes the arena at the sum of
    [strlen + 1] over every string argument, and the copy loop that
    follows, started with that much room, returns 0: no call of
    [prot_strings_helper] in it takes the out-of-space exit.  Hence
    [prot_strings], once the arena is mapped, never leaves through its
    [-2] exit: it returns [-3] when the arena cannot be made read-only
    and the status of its rule additions otherwise. *)
Theorem prot_strings_never_out_of_space pr_mem_base cfg :
  cfg_bytes cfg < 2 ^ 64 ->
  let pr_mem_size := prot_strings_size 0 cfg in
  pr_mem_size = cfg_bytes cfg /\
  (prot_strings_copy (prot_strings_start pr_mem_base pr_mem_size) cfg).1.1
    = 0 /\
  (forall e ctx b,
     os_mmap e (to_size_t (MALLOC_MP_LIM + pr_mem_size)) = Some b ->
     (prot_strings e cfg ctx).1.1
     = if to_int (os_mprotect e (Z.of_N b)
                    (to_size_t (MALLOC_MP_LIM + pr_mem_size)) PROT_READ) =? 0
       then (prot_strings_rules e (Z.of_N b) pr_mem_size ctx).1
       else -3).
Proof.
  intros Hsmall pr_mem_size.
  assert (Hsize : pr_mem_size = cfg_bytes cfg).
  { unfold pr_mem_size. rewrite prot_strings_size_exact; lia. }
  assert (Hcopy : forall base,
            (prot_strings_copy (prot_strings_start base pr_mem_size) cfg).1.1
            = 0).
  { intros base. apply prot_strings_copy_space; [done|]. simpl. lia. }
  split; [done|]. split; [apply Hcopy|].
  intros e ctx b Hmap. unfold prot_strings. fold pr_mem_size. rewrite Hmap.
  specialize (Hcopy (Z.of_N b)).
  destruct (prot_strings_copy _ cfg) as [[ret st] cfg']. simpl in Hcopy.
  subst ret. simpl.
  destruct (to_int (os_mprotect e _ _ _) =? 0); simpl; [|done].
  by destruct (prot_strings_rules e _ _ ctx).
Qed.

Lemma prot_strings_never_out_of_space_witness :
  cfg_bytes example_cfg < 2 ^ 64 /\
  prot_strings_size 0 example_cfg = 52 /\
  (prot_strings_copy
     (prot_strings_start 139637976727552 (prot_strings_size 0 example_cfg))
     example_cfg).1.1 = 0.
Proof.
  split; [by vm_compute|].
  destruct (prot_strings_never_out_of_space 139637976727552 example_cfg)
    as (Hsize & Hcopy & _); [by vm_compute|].
  split; [|exact Hcopy]. rewrite Hsize. reflexivity.
Defined.

(** The copy loop, when it returns 0: the state stays consistent, the
    list holds the same elements with their strings replaced by the
    copies in the arena, and every element is marked protected. *)
Lemma prot_strings_copy_inv start end_ cfg :
  forall st st' cfg',
  arena_inv start end_ st ->
  prot_strings_copy st cfg = (0, st', cfg') ->
  arena_inv start end_ st' /\
  (forall x, In x (pr_mem st) -> In x (pr_mem st')) /\
  Forall2 protected_copy cfg cfg' /\
  (forall u, In u (cfg_strings cfg') -> In (c_addr u, c_str u) (pr_mem st')).
Proof.
  induction cfg as [|el cfg IH]; intros st st' cfg' Hinv; simpl.
  { intros [= <- <-]. split; [done|]. split; [done|].
    split; [constructor|]. intros u []. }
  destruct (prot_strings_helper_inv start end_ st (value el) Hinv)
    as [(Hrc & _)|(Hrc & Hinv1 & Hmono1 & _ & u1 & Hu1 & Hstr1 & Hin1)];
    destruct (prot_strings_helper st (Some (value el))) as [[rc1 st1] v1];
    simpl in *; subst rc1; simpl.
  { intros [= ?]. }
  subst v1. simpl.
  assert (Hcall2 : let r := prot_strings_helper st1 (value2 el) in
            (r.1.1 = -1) \/
            (r.1.1 = 0 /\ arena_inv start end_ r.1.2 /\
             (forall x, In x (pr_mem st1) -> In x (pr_mem r.1.2)) /\
             match value2 el, r.2 with
             | Some v, Some v' =>
                 c_str v' = c_str v /\ In (c_addr v', c_str v') (pr_mem r.1.2)
             | None, None => True
             | _, _ => False
             end)).
  { destruct (value2 el) as [v2|].
    - destruct (prot_strings_helper_inv start end_ st1 v2 Hinv1)
        as [(Hrc & _)|(Hrc & Hinv2 & Hmono2 & _ & u2 & Hu2 & Hstr2 & Hin2)].
      + by left.
      + right. simpl. rewrite Hu2. auto.
    - right. rewrite prot_strings_helper_None. simpl. auto. }
  destruct (prot_strings_helper st1 (value2 el)) as [[rc2 st2] v2'].
  simpl in Hcall2.
  destruct Hcall2 as [->|(-> & Hinv2 & Hmono2 & Hv2)]; simpl.
  { intros [= ?]. }
  destruct (prot_strings_copy st2 cfg) as [[ret st3] next] eqn:Ecopy.
  intros [= -> <- <-].
  destruct (IH st2 st3 next Hinv2 Ecopy) as (Hinv3 & Hmono3 & Hall & Hstrs).
  split; [done|]. split; [auto|]. split.
  - constructor; [|done]. unfold protected_copy; simpl.
    split; [done|]. split; [done|]. split; [done|].
    destruct (value2 el), v2'; intuition.
  - unfold cfg_strings. simpl. fold (cfg_strings next).
    intros u [<-|Hu]; [auto|]. apply in_app_iff in Hu as [Hu|Hu]; [|auto].
    unfold param_strings in Hu. simpl in Hu.
    destruct (value2 el), v2'; try done; simpl in Hu;
      destruct Hu as [<-|[]]. apply Hmono3. apply Hv2.
Qed.

Lemma prot_strings_size_nonneg cfg acc :
  0 <= acc -> 0 <= prot_strings_size acc cfg.
Proof.
  revert acc. induction cfg as [|p cfg IH]; intros acc Hacc; simpl; [done|].
  apply IH. unfold to_size_t.
  destruct (value2 p); apply Z.mod_pos_bound; lia.
Qed.

(** The copy loop started as [prot_strings] starts it, when it returns
    0: equal strings share one address in the string area of the arena,
    and no string is copied twice. *)
Lemma prot_strings_copy_interns (b : N) cfg st cfg' :
  let pr_mem_size := prot_strings_size 0 cfg in
  let start := Z.of_N b + MALLOC_MP_LIM in
  prot_strings_copy (prot_strings_start (Z.of_N b) pr_mem_size) cfg
    = (0, st, cfg') ->
  Forall2 protected_copy cfg cfg' /\
  (forall u v, In u (cfg_strings cfg') -> In v (cfg_strings cfg') ->
     c_str u = c_str v -> c_addr u = c_addr v) /\
  (forall u, In u (cfg_strings cfg') ->
     In (c_addr u, c_str u) (pr_mem st) /\
     start <= c_addr u /\
     c_addr u + string_size (c_str u) <= start + pr_mem_size) /\
  NoDup (map snd (pr_mem st)) /\
  packed start (pr_mem st) (pr_mem_next st).
Proof.
  intros pr_mem_size start Hcopy.
  assert (Hsize : 0 <= pr_mem_size).
  { apply prot_strings_size_nonneg. lia. }
  assert (Hstart : 0 < start) by (unfold start, MALLOC_MP_LIM; lia).
  destruct (prot_strings_copy_inv start (start + pr_mem_size) cfg _ st cfg'
              (arena_inv_start start pr_mem_size Hstart Hsize) Hcopy)
    as (Hinv & _ & Hall & Hstrs).
  destruct Hinv as (_ & Hpacked & Hleft & Hend & Hnd & _).
  destruct (packed_bounds _ _ _ Hpacked) as [_ Hbnd].
  split; [done|]. split.
  { intros u v Hu Hv E. apply (NoDup_snd_inj (pr_mem st) _ _ (c_str u) Hnd).
    - by apply Hstrs.
    - rewrite E. by apply Hstrs. }
  split; [|done].
  intros u Hu. split; [by apply Hstrs|].
  destruct (Hbnd _ _ (Hstrs u Hu)). lia.
Qed.

(** C7: after [prot_strings] has succeeded the list holds the same
    elements, now protected; any two string arguments with the same
    bytes, whatever the syscalls of their elements, hold the same address;
    that address lies in the string area of the arena, after the canary,
    where the bytes were copied; and no string was copied twice, the
    copies lying packed one after the other from the end of the canary. *)
Theorem interning_is_idempotent e cfg ctx :
  (prot_strings e cfg ctx).1.1 = 0 ->
  let cfg' := (prot_strings e cfg ctx).2 in
  let pr_mem_size := prot_strings_size 0 cfg in
  exists (b : N) (st : prot_state),
    os_mmap e (to_size_t (MALLOC_MP_LIM + pr_mem_size)) = Some b /\
    prot_strings_copy (prot_strings_start (Z.of_N b) pr_mem_size) cfg
      = (0, st, cfg') /\
    Forall2 protected_copy cfg cfg' /\
    (forall u v, In u (cfg_strings cfg') -> In v (cfg_strings cfg') ->
       c_str u = c_str v -> c_addr u = c_addr v) /\
    (forall u, In u (cfg_strings cfg') ->
       In (c_addr u, c_str u) (pr_mem st) /\
       Z.of_N b + MALLOC_MP_LIM <= c_addr u /\
       c_addr u + string_size (c_str u)
       <= Z.of_N b + MALLOC_MP_LIM + pr_mem_size) /\
    NoDup (map snd (pr_mem st)) /\
    packed (Z.of_N b + MALLOC_MP_LIM) (pr_mem st) (pr_mem_next st).
Proof.
  intros Hrc cfg' pr_mem_size.
  destruct (prot_strings_spec e cfg ctx) as (_ & _ & Hok).
  destruct (Hok Hrc) as (b & st & Hmap & Hcopy & _).
  exists b, st. split; [done|]. split; [done|].
  by apply prot_strings_copy_interns.
Qed.

Lemma interning_is_idempotent_witness :
  (prot_strings env_linux example_cfg
                (mk_ctx (SCMP_ACT_ERRNO EPERM) [])).1.1 = 0 /\
  c_addr (value (nth 0
     (prot_strings env_linux example_cfg
                   (mk_ctx (SCMP_ACT_ERRNO EPERM) [])).2
     (new_element PHONY_OPENDIR_SYSCALL (mk_cstr 0 ""))))
  = c_addr (value (nth 2
     (prot_strings env_linux example_cfg
                   (mk_ctx (SCMP_ACT_ERRNO EPERM) [])).2
     (new_element PHONY_OPENDIR_SYSCALL (mk_cstr 0 "")))).
Proof.
  split; [by vm_compute|].
  destruct (interning_is_idempotent env_linux example_cfg
              (mk_ctx (SCMP_ACT_ERRNO EPERM) []))
    as (b & st & _ & _ & _ & Hsame & _).
  - by vm_compute.
  - apply Hsame.
    + vm_compute. auto.
    + vm_compute. auto.
    + reflexivity.
Defined.

(** ** The mprotect rules of the arena *)

Lemma to_datum_small z : 0 <= z < 2 ^ 64 -> to_datum z = z.
Proof. intros H. unfold to_datum. by apply Z.mod_small. Qed.

(** C2, as stated, fails: on [env_linux], after [prot_strings] has
    succeeded on [example_cfg], a request for read and write permission on
    the 8192 bytes from one page below the arena is matched by the first
    of the two mprotect allow rules, and its range covers the first page
    of the canary padding. *)
Lemma mprotect_rw_reaches_canary :
  let base := 139637976727552 in
  let pr_mem_size := prot_strings_size 0 example_cfg in
  let r := prot_strings env_linux example_cfg
                        (mk_ctx (SCMP_ACT_ERRNO EPERM) []) in
  let call := mk_call (SCMP_SYS mprotect)
                      [base - 4096; 8192; PROT_READ ||| PROT_WRITE] in
  r.1.1 = 0 /\
  ctx_rules r.1.2 = prot_rules base pr_mem_size /\
  some_rule SCMP_ACT_ALLOW r.1.2 call = true /\
  (base - 4096 < base + MALLOC_MP_LIM + pr_mem_size /\
   base < (base - 4096) + 8192).
Proof. vm_compute. repeat split; reflexivity. Qed.

(** C2, amended: after [prot_strings] succeeds with the arena inside
    the address space, the two mprotect allow rules it has added match
    only requests for exactly read and write permission whose range
    [addr, addr+len) lies wholly below the interned strings, ending
    before [base + MALLOC_MP_LIM], or wholly above them: no such request
    reaches the string area [base + MALLOC_MP_LIM,
    base + MALLOC_MP_LIM + size).  The canary padding below the strings
    is not covered by this guarantee. *)
Theorem mprotect_rw_never_reaches_strings e cfg ctx (b : N) addr len prt :
  let pr_mem_size := prot_strings_size 0 cfg in
  let base := Z.of_N b in
  let r := prot_strings e cfg ctx in
  r.1.1 = 0 ->
  os_mmap e (to_size_t (MALLOC_MP_LIM + pr_mem_size)) = Some b ->
  base + MALLOC_MP_LIM + pr_mem_size < 2 ^ 64 ->
  ctx_rules r.1.2 = ctx_rules ctx ++ prot_rules base pr_mem_size /\
  forall rule,
    In rule (prot_rules base pr_mem_size) ->
    rule_act rule = SCMP_ACT_ALLOW ->
    rule_matches rule (mk_call (SCMP_SYS mprotect) [addr; len; prt]) = true ->
    prt = PROT_READ ||| PROT_WRITE /\
    (addr + len < base + MALLOC_MP_LIM \/
     base + MALLOC_MP_LIM + pr_mem_size < addr).
Proof.
  intros pr_mem_size base r Hrc Hmap Hfits.
  destruct (prot_strings_spec e cfg ctx) as (_ & _ & Hok).
  destruct (Hok Hrc) as (b' & st & Hmap' & _ & Hrules).
  fold pr_mem_size in Hmap'. rewrite Hmap in Hmap'.
  injection Hmap' as <-. split; [exact Hrules|].
  assert (Hsize : 0 <= pr_mem_size) by (apply prot_strings_size_nonneg; lia).
  assert (Hbase : 0 <= base) by (unfold base; lia).
  assert (Hlim : MALLOC_MP_LIM = 20971520) by reflexivity.
  intros rule Hin Hact Hmatch.
  unfold prot_rules in Hin. simpl in Hin.
  destruct Hin as [<-|[<-|[<-|[<-|[]]]]]; try discriminate Hact;
    unfold rule_matches in Hmatch; simpl in Hmatch;
    rewrite !andb_true_r in Hmatch;
    apply andb_prop in Hmatch as [Ha Hmatch];
    apply andb_prop in Hmatch as [Hl Hp];
    unfold arg_cmp_matches, SCMP_CMP, SCMP_CMP4 in Ha, Hl, Hp;
    simpl in Ha, Hl, Hp;
    rewrite to_datum_small in Hp by (by vm_compute);
    rewrite to_datum_small in Hl by (by vm_compute);
    apply Z.eqb_eq in Hp; apply Z.leb_le in Hl;
    (split; [exact Hp|]).
  - rewrite to_datum_small in Ha by lia. apply Z.ltb_lt in Ha. left. lia.
  - unfold to_size_t in Ha. rewrite (Z.mod_small _ (2 ^ 64)) in Ha by lia.
    rewrite to_datum_small in Ha by lia.
    apply Z.gtb_gt in Ha. right. lia.
Qed.

Lemma mprotect_rw_never_reaches_strings_witness :
  (prot_strings env_linux example_cfg
                (mk_ctx (SCMP_ACT_ERRNO EPERM) [])).1.1 = 0 /\
  139637976727552 + MALLOC_MP_LIM + prot_strings_size 0 example_cfg < 2 ^ 64 /\
  3 = PROT_READ ||| PROT_WRITE /\
  (139637976727552 - 8192 + 4096 < 139637976727552 + MALLOC_MP_LIM \/
   139637976727552 + MALLOC_MP_LIM + prot_strings_size 0 example_cfg
   < 139637976727552 - 8192).
Proof.
  split; [by vm_compute|]. split; [by vm_compute|].
  destruct (mprotect_rw_never_reaches_strings env_linux example_cfg
              (mk_ctx (SCMP_ACT_ERRNO EPERM) []) 139637976727552%N
              (139637976727552 - 8192) 4096 3) as [_ Hrules].
  - by vm_compute.
  - by vm_compute.
  - by vm_compute.
  - apply (Hrules
             (mk_rule SCMP_ACT_ALLOW (SCMP_SYS mprotect)
                [SCMP_CMP 0 SCMP_CMP_LT 139637976727552;
                 SCMP_CMP 1 SCMP_CMP_LE MALLOC_MP_LIM;
                 SCMP_CMP 2 SCMP_CMP_EQ (PROT_READ ||| PROT_WRITE)])).
    + right. right. left. reflexivity.
    + reflexivity.
    + by vm_compute.
Defined.

(** ** The verdict of the installed filter on the path syscalls *)

Lemma bool_decide_sys a b :
  bool_decide (SCMP_SYS a = SCMP_SYS b)
  = Pos.eqb (sysname_code a) (sysname_code b).
Proof.
  destruct (Pos.eqb_spec (sysname_code a) (sysname_code b)) as [E|E].
  - apply bool_decide_eq_true_2. f_equal. by apply sysname_code_inj.
  - apply bool_decide_eq_false_2. intros [= ->]. done.
Qed.

Lemma rule_allows_path_rule c n v :
  rule_allows c (path_rule n v)
  = bool_decide (SCMP_SYS n = call_nr c)
    && (call_arg c 0 =? to_datum (c_addr v)).
Proof.
  unfold rule_allows, rule_matches, path_rule, call_arg. simpl.
  by rewrite andb_true_r.
Qed.

Lemma rule_allows_rename_rule c p :
  rule_allows c (rename_rule p)
  = bool_decide (SCMP_SYS rename = call_nr c)
    && ((call_arg c 0 =? to_datum (c_addr (value p)))
        && (call_arg c 1 =? to_datum (addr2 p))).
Proof.
  unfold rule_allows, rule_matches, rename_rule, call_arg. simpl.
  by rewrite andb_true_r.
Qed.

Lemma rule_allows_openat_rule e c v :
  rule_allows c (openat_rule e v)
  = (bool_decide (SCMP_SYS openat = call_nr c)
     && (call_arg c 0 =? at_fdcwd e) && (call_arg c 2 =? openat_flags e))
    && (call_arg c 1 =? to_datum (c_addr v)).
Proof.
  unfold rule_allows, rule_matches, openat_rule, call_arg, at_fdcwd,
    openat_flags.
  cbn [rule_act rule_call rule_args forallb].
  rewrite bool_decide_eq_true_2 by done.
  unfold arg_cmp_matches at 2 3. cbn -[to_datum Z.lor].
  unfold arg_cmp_matches, SCMP_CMP_NEG.
  destruct (libc_negative_constant_needs_cast e); cbn -[to_datum Z.lor];
    destruct (bool_decide _), (_ =? _), (_ =? _), (_ =? _); reflexivity.
Qed.

Lemma rule_allows_open_rule e c (b : bool) v :
  rule_allows c (open_rule e b v)
  = (if b then bool_decide (SCMP_SYS openat = call_nr c)
               && (call_arg c 0 =? at_fdcwd e)
     else bool_decide (SCMP_SYS open = call_nr c))
    && (call_arg c (if b then 1 else 0)%nat =? to_datum (c_addr v)).
Proof.
  unfold rule_allows, rule_matches, open_rule, call_arg, at_fdcwd.
  destruct b; cbn [rule_act rule_call rule_args forallb];
    rewrite bool_decide_eq_true_2 by done.
  - unfold arg_cmp_matches at 2. cbn -[to_datum].
    unfold arg_cmp_matches, SCMP_CMP_NEG.
    destruct (libc_negative_constant_needs_cast e); cbn -[to_datum];
      destruct (bool_decide _), (_ =? _), (_ =? _); reflexivity.
  - unfold arg_cmp_matches. cbn -[to_datum]. by rewrite andb_true_r.
Qed.

(** A loop's rules, when each of them allows the call under a condition
    [K] common to all and a condition [g] on its element. *)
Lemma existsb_rules_for_factor c sel mk cfg (K : bool)
    (g : smp_param_t -> bool) :
  (forall p, rule_allows c (mk p) = K && g p) ->
  existsb (rule_allows c) (rules_for sel mk cfg)
  = K && existsb (fun p => sel p && g p) cfg.
Proof.
  intros H. unfold rules_for.
  induction cfg as [|p cfg IH]; simpl; [by rewrite andb_false_r|].
  destruct (sel p); simpl; [|exact IH].
  rewrite H, IH. destruct K, (g p); reflexivity.
Qed.

(** *** The rule database *)

Lemma unconditional_holds c r :
  unconditional r = true -> chain_holds c r = true.
Proof. unfold unconditional, chain_holds. by destruct (rule_args r). Qed.

Lemma existsb_db_insert (m : scmp_rule -> bool) r db :
  existsb m (db_insert r db) = m r || existsb m db.
Proof.
  induction db as [|x db IH]; simpl; [done|].
  destruct (_ <? _)%nat; simpl; [done|].
  rewrite IH. by destruct (m x), (m r).
Qed.

Lemma In_db_insert x r db : In x (db_insert r db) <-> x = r \/ In x db.
Proof.
  induction db as [|y db IH]; simpl; [intuition|].
  destruct (_ <? _)%nat; simpl; [intuition|]. rewrite IH. intuition.
Qed.

Lemma existsb_db_add c db r :
  existsb (chain_holds c) (db_add db r)
  = existsb (chain_holds c) db || chain_holds c r.
Proof.
  unfold db_add. destruct (unconditional r) eqn:Hr.
  - cbn [existsb]. rewrite (unconditional_holds c r Hr).
    by rewrite orb_true_r.
  - destruct (existsb unconditional db) eqn:Hdb.
    + apply existsb_exists in Hdb as (x & Hx & Hux).
      assert (existsb (chain_holds c) db = true) as ->; [|done].
      apply existsb_exists. exists x. split; [done|].
      by apply unconditional_holds.
    + rewrite existsb_db_insert. apply orb_comm.
Qed.

Lemma In_db_add x db r : In x (db_add db r) -> In x db \/ x = r.
Proof.
  unfold db_add. destruct (unconditional r).
  - intros [<-|[]]. by right.
  - destruct (existsb unconditional db); [by left|].
    rewrite In_db_insert. tauto.
Qed.

Lemma existsb_fold_db_add c rs acc :
  existsb (chain_holds c) (fold_left db_add rs acc)
  = existsb (chain_holds c) acc || existsb (chain_holds c) rs.
Proof.
  revert acc. induction rs as [|r rs IH]; intros acc; simpl.
  - by rewrite orb_false_r.
  - rewrite IH, existsb_db_add. by rewrite orb_assoc.
Qed.

Lemma In_fold_db_add x rs acc :
  In x (fold_left db_add rs acc) -> In x acc \/ In x rs.
Proof.
  revert acc. induction rs as [|r rs IH]; intros acc; simpl; [by left|].
  intros H. destruct (IH _ H) as [H'|H']; [|tauto].
  destruct (In_db_add _ _ _ H'); subst; tauto.
Qed.

(** The chains libseccomp holds for a syscall are rules that were added
    for it. *)
Lemma In_seccomp_db x call rules :
  In x (seccomp_db call rules) -> In x rules /\ rule_call x = call.
Proof.
  intros H. apply In_fold_db_add in H as [[]|H].
  apply filter_In in H as [Hin Hcall].
  by apply bool_decide_eq_true_1 in Hcall.
Qed.

(** Rules without comparisons, once added, are all that is left: the last
    of them is the syscall's only chain. *)
Lemma fold_db_add_unconditional rs acc :
  rs <> [] -> Forall (fun r => unconditional r = true) rs ->
  exists r, fold_left db_add rs acc = [r] /\ In r rs.
Proof.
  revert acc. induction rs as [|x rs IH]; intros acc Hne Hall; [done|].
  apply Forall_cons_1 in Hall as [Hx Hall]. simpl.
  unfold db_add at 2. rewrite Hx.
  destruct rs as [|y rs].
  - exists x. split; [done|]. by left.
  - destruct (IH [x] ltac:(done) Hall) as (r & -> & Hr).
    exists r. split; [done|]. by right.
Qed.

Lemma seccomp_db_unconditional call l1 l2 r :
  Forall (fun r => unconditional r = true) l2 ->
  In r l2 -> rule_call r = call ->
  exists r', seccomp_db call (l1 ++ l2) = [r'] /\ In r' l2 /\
             rule_call r' = call /\ unconditional r' = true.
Proof.
  intros Hall Hin Hcall. unfold seccomp_db.
  rewrite List.filter_app, fold_left_app.
  set (f := fun r0 => bool_decide (rule_call r0 = call)).
  destruct (fold_db_add_unconditional (List.filter f l2)
              (fold_left db_add (List.filter f l1) []))
    as (r' & -> & Hr').
  - intros Hnil. assert (H : In r (List.filter f l2)).
    { apply filter_In. split; [done|]. by apply bool_decide_eq_true_2. }
    by rewrite Hnil in H.
  - apply List.Forall_forall. intros x Hx. apply filter_In in Hx as [Hx _].
    by apply (proj1 (List.Forall_forall _ _) Hall).
  - apply filter_In in Hr' as [Hr' Hc]. apply bool_decide_eq_true_1 in Hc.
    exists r'. repeat split; try done.
    by apply (proj1 (List.Forall_forall _ _) Hall).
Qed.

(** A syscall whose last rules have no comparisons gets their action,
    whatever its arguments and whatever was added before. *)
Lemma seccomp_verdict_unconditional d l1 l2 r c :
  Forall (fun r => unconditional r = true /\ rule_act r = SCMP_ACT_ALLOW)
         l2 ->
  In r l2 -> rule_call r = call_nr c ->
  seccomp_verdict (mk_ctx d (l1 ++ l2)) c = SCMP_ACT_ALLOW.
Proof.
  intros Hall Hin Hcall. unfold seccomp_verdict. cbn [ctx_rules].
  destruct (seccomp_db_unconditional (call_nr c) l1 l2 r)
    as (r' & -> & Hr' & Hc & Hu); [|done|done|].
  { eapply Forall_impl; [exact Hall|]. by intros x [? _]. }
  cbn [find]. unfold rule_matches. fold (chain_holds c r').
  rewrite bool_decide_eq_true_2 by done.
  rewrite (unconditional_holds c r' Hu). cbn [andb].
  by apply (proj1 (List.Forall_forall _ _) Hall).
Qed.

(** On a syscall whose rules all allow, the filter allows a call when
    some rule matches it, and otherwise takes its default action. *)
Lemma seccomp_verdict_allow_rules ctx c :
  (forall r, In r (ctx_rules ctx) -> rule_call r = call_nr c ->
     rule_act r = SCMP_ACT_ALLOW) ->
  seccomp_verdict ctx c = union_verdict ctx c.
Proof.
  intros Hallow. unfold seccomp_verdict, union_verdict, some_rule.
  assert (Hkill :
    existsb (fun r => bool_decide (rule_act r = SCMP_ACT_KILL)
                      && rule_matches r c) (ctx_rules ctx) = false).
  { apply not_true_is_false. intros H.
    apply existsb_exists in H as (r & Hin & Hr).
    apply andb_prop in Hr as [Hact Hm].
    apply bool_decide_eq_true_1 in Hact.
    unfold rule_matches in Hm. apply andb_prop in Hm as [Hc _].
    apply bool_decide_eq_true_1 in Hc.
    rewrite (Hallow r Hin Hc) in Hact. discriminate Hact. }
  rewrite Hkill.
  assert (Hsome :
    existsb (fun r => bool_decide (rule_act r = SCMP_ACT_ALLOW)
                      && rule_matches r c) (ctx_rules ctx)
    = existsb (chain_holds c) (seccomp_db (call_nr c) (ctx_rules ctx))).
  { unfold seccomp_db. rewrite existsb_fold_db_add. cbn [existsb orb].
    clear Hkill. induction (ctx_rules ctx) as [|r l IH]; [done|].
    cbn [existsb List.filter].
    rewrite IH by (intros; apply Hallow; simpl; auto).
    unfold rule_matches. fold (chain_holds c r).
    destruct (decide (rule_call r = call_nr c)) as [Hc|Hc].
    - rewrite (bool_decide_eq_true_2 (rule_act r = SCMP_ACT_ALLOW))
        by (apply Hallow; [by left|done]).
      by rewrite (bool_decide_eq_true_2 (rule_call r = call_nr c)).
    - rewrite (bool_decide_eq_false_2 (rule_call r = call_nr c)) by done.
      by rewrite andb_false_r. }
  rewrite Hsome.
  destruct (find _ _) as [r|] eqn:Hfind.
  - apply find_some in Hfind as [Hin Hm].
    destruct (In_seccomp_db _ _ _ Hin) as [Hin' Hc].
    rewrite (Hallow r Hin' Hc).
    assert (existsb (chain_holds c) (seccomp_db (call_nr c) (ctx_rules ctx))
            = true) as ->; [|done].
    apply existsb_exists. exists r. split; [done|].
    unfold rule_matches in Hm. fold (chain_holds c r) in Hm.
    by apply andb_prop in Hm as [_ ?].
  - assert (existsb (chain_holds c) (seccomp_db (call_nr c) (ctx_rules ctx))
            = false) as ->; [|done].
    apply not_true_is_false. intros H.
    apply existsb_exists in H as (r & Hin & Hm).
    pose proof (find_none _ _ Hfind r Hin) as Hno. cbv beta in Hno.
    destruct (In_seccomp_db _ _ _ Hin) as [_ Hc].
    unfold rule_matches in Hno. fold (chain_holds c r) in Hno.
    rewrite bool_decide_eq_true_2 in Hno by done.
    cbn [andb] in Hno. congruence.
Qed.

Lemma some_rule_path_filter act ctx c :
  is_path_call (call_nr c) = true ->
  some_rule act ctx c
  = existsb (fun r => bool_decide (rule_act r = act) && rule_matches r c)
            (List.filter is_path_rule (ctx_rules ctx)).
Proof.
  intros Hc. unfold some_rule.
  induction (ctx_rules ctx) as [|r l IH]; simpl; [done|].
  destruct (is_path_rule r) eqn:Hr; simpl; rewrite IH; [done|].
  unfold rule_matches. rewrite (bool_decide_eq_false_2 (rule_call r = _)).
  - simpl. by rewrite andb_false_r.
  - intros E. unfold is_path_rule in Hr. congruence.
Qed.

Lemma param_path_rules_allow e cfg r :
  In r (param_path_rules e cfg ++ noparam_path_rules e) ->
  rule_act r = SCMP_ACT_ALLOW.
Proof.
  unfold param_path_rules, noparam_path_rules, rules_for.
  rewrite !in_app_iff, !in_map_iff.
  intros H.
  repeat match goal with
         | H : _ \/ _ |- _ => destruct H as [H|H]
         | H : exists _, _ |- _ => destruct H as (? & <- & _)
         end; try done.
  - unfold open_rule. by destruct (libc_uses_openat_for_open e).
  - unfold open_rule. by destruct (libc_uses_openat_for_opendir e).
  - destruct (defined e NR_stat64); [|done].
    apply in_map_iff in H as (? & <- & _). done.
  - simpl in H. destruct H as [<-|H]; [done|].
    destruct (defined e NR_stat64); [|done].
    by destruct H as [<-|[]].
Qed.

(** The verdict of a filter whose rules for the path syscalls are those
    of the two tables, on a call of a path syscall. *)
Lemma verdict_on_paths e cfg F c :
  List.filter is_path_rule (ctx_rules F)
    = param_path_rules e cfg ++ noparam_path_rules e ->
  ctx_default F = SCMP_ACT_ERRNO EPERM ->
  is_path_call (call_nr c) = true ->
  seccomp_verdict F c
  = if path_allowed e cfg c then SCMP_ACT_ALLOW else SCMP_ACT_ERRNO EPERM.
Proof.
  intros Hrules Hdef Hc.
  rewrite seccomp_verdict_allow_rules.
  2: { intros r Hin Hcall.
       apply (param_path_rules_allow e cfg). rewrite <- Hrules.
       apply filter_In. split; [done|]. unfold is_path_rule. by rewrite Hcall. }
  unfold union_verdict.
  rewrite !some_rule_path_filter by done. rewrite Hrules, Hdef.
  destruct (existsb _ _) eqn:Hkill at 1.
  { apply existsb_exists in Hkill as (r & Hin & Hr).
    rewrite (param_path_rules_allow _ _ _ Hin) in Hr. discriminate Hr. }
  clear Hkill Hrules Hdef.
  change (fun r => bool_decide (rule_act r = SCMP_ACT_ALLOW)
                   && rule_matches r c) with (rule_allows c).
  f_equal. unfold param_path_rules, noparam_path_rules.
  assert (Hstat64 :
    existsb (rule_allows c)
      (if defined e NR_stat64
       then rules_for stat64_param (fun p => path_rule stat64 (value p)) cfg
       else [])
    = defined e NR_stat64
      && (bool_decide (SCMP_SYS stat64 = call_nr c)
          && registered stat64_param cfg (call_arg c 0))).
  { destruct (defined e NR_stat64); [|done].
    erewrite existsb_rules_for_factor
      by (intros; apply rule_allows_path_rule). done. }
  rewrite !existsb_app, Hstat64.
  erewrite !existsb_rules_for_factor;
    try (intros; first [ apply rule_allows_path_rule
                       | apply rule_allows_rename_rule
                       | apply rule_allows_openat_rule
                       | apply rule_allows_open_rule ]).
  clear Hstat64. cbv beta.
  unfold path_allowed, registered, registered_pair, rule_allows, rule_matches.
  destruct c as [[n|] args]; [|discriminate Hc].
  destruct n; try discriminate Hc; clear Hc;
    destruct (libc_uses_openat_for_open e),
      (libc_uses_openat_for_opendir e), (defined e NR_stat64);
    cbn [call_nr call_args rule_act rule_call rule_args forallb existsb negb];
    rewrite ?bool_decide_sys;
    rewrite ?(bool_decide_eq_true_2 (SCMP_ACT_ALLOW = SCMP_ACT_ALLOW)) by done;
    cbn [sysname_code Pos.eqb andb orb negb];
    repeat match goal with
           | |- context [existsb ?f cfg] =>
               let b := fresh "b" in generalize (existsb f cfg); intros b
           | |- context [?x =? ?y] =>
               let b := fresh "b" in generalize (x =? y); intros b
           end;
    repeat match goal with b : bool |- _ => destruct b end;
    reflexivity.
Qed.



Lemma protected_copy_In_r cfg cfg' p' :
  Forall2 protected_copy cfg cfg' -> In p' cfg' ->
  exists p, In p cfg /\ protected_copy p p'.
Proof.
  induction 1 as [|p q l l' Hpq _ IH]; simpl; [done|].
  intros [<-|Hin].
  - exists p. auto.
  - destruct (IH Hin) as (p0 & ? & ?). exists p0. auto.
Qed.

Lemma protected_copy_In_l cfg cfg' p :
  Forall2 protected_copy cfg cfg' -> In p cfg ->
  exists p', In p' cfg' /\ protected_copy p p'.
Proof.
  induction 1 as [|p0 q l l' Hpq _ IH]; simpl; [done|].
  intros [<-|Hin].
  - exists q. auto.
  - destruct (IH Hin) as (q0 & ? & ?). exists q0. auto.
Qed.

Lemma param_is_protected sc p :
  prot p = 1 -> syscall p = sc -> param_is sc p = true.
Proof.
  intros Hp Hs. unfold param_is. rewrite Hp. simpl.
  by apply bool_decide_eq_true_2.
Qed.

(** A successful installation: the process state, the protected
    registry and the loaded filter. *)
Lemma install_success e w cfg :
  (install_syscall_filter e w cfg).1.1 = 0 ->
  let r := install_syscall_filter e w cfg in
  Forall2 protected_copy cfg r.2 /\
  exists F,
    kernel_filters r.1.2 = kernel_filters w ++ [F] /\
    ctx_default F = SCMP_ACT_ERRNO EPERM /\
    List.filter is_path_rule (ctx_rules F)
      = param_path_rules e r.2 ++ noparam_path_rules e.
Proof.
  intros Hrc r. pose proof (install_syscall_filter_spec e w cfg) as H.
  simpl in H. fold r in H.
  destruct (first_failure e w cfg); [by destruct H|].
  destruct H as (_ & b & st & F & _ & Hcopy & Hw & Hdef & _ & _ & Hrules).
  split.
  - assert (Hstart : 0 < Z.of_N b + MALLOC_MP_LIM)
      by (unfold MALLOC_MP_LIM; lia).
    pose proof (prot_strings_size_nonneg cfg 0 ltac:(lia)) as Hsize.
    by destruct (prot_strings_copy_inv _ _ cfg _ _ _
                   (arena_inv_start _ _ Hstart Hsize) Hcopy)
      as (_ & _ & Hall & _).
  - exists F. rewrite Hw. done.
Qed.




(** ** stat64 on the paths registered for open *)

Lemma In_filter_path_rules r l :
  In r (List.filter is_path_rule l) -> In r l.
Proof. intros H. by apply filter_In in H as [? _]. Qed.

(** C10: [sb_stat64], when it succeeds, has added the rule that allows
    stat64 on the first string of every protected element whose syscall
    is open or stat64; where stat64 exists the installer is in the table,
    so after a successful installation every element registered for open
    has a protected copy for whose interned pointer the context that was
    loaded has been given that rule, which matches stat64 on that
    pointer, and the loaded filter allows stat64 on it. *)
Theorem open_paths_are_allowed_stat64 e :
  (forall cfg ctx param,
     (sb_stat64 e cfg ctx).1 = 0 ->
     In param cfg -> prot param = 1 ->
     syscall param = SCMP_SYS open \/ syscall param = SCMP_SYS stat64 ->
     In (path_rule stat64 (value param))
        (ctx_rules (sb_stat64 e cfg ctx).2)) /\
  (forall w cfg param,
     defined e NR_stat64 = true ->
     (install_syscall_filter e w cfg).1.1 = 0 ->
     In param cfg -> syscall param = SCMP_SYS open ->
     let r := install_syscall_filter e w cfg in
     exists F param',
       kernel_filters r.1.2 = kernel_filters w ++ [F] /\
       In param' r.2 /\ protected_copy param param' /\
       In (path_rule stat64 (value param')) (ctx_rules F) /\
       rule_allows
         (mk_call (SCMP_SYS stat64) [to_datum (c_addr (value param'))])
         (path_rule stat64 (value param')) = true /\
       seccomp_verdict F
         (mk_call (SCMP_SYS stat64) [to_datum (c_addr (value param'))])
       = SCMP_ACT_ALLOW).
Proof.
  split.
  - intros cfg ctx param Hrc Hin Hprot Hsys.
    destruct (sb_stat64_emits e cfg ctx) as (rs & Hctx & _ & Hrs).
    rewrite Hctx. simpl. apply in_app_iff. right.
    apply In_filter_path_rules. rewrite (Hrs Hrc).
    unfold rules_for. apply in_map_iff. exists param. split; [done|].
    apply filter_In. split; [done|]. unfold stat64_param.
    destruct Hsys as [Hs|Hs]; rewrite (param_is_protected _ _ Hprot Hs);
      by rewrite ?orb_true_r.
  - intros w cfg param Hdef Hrc Hin Hsys r.
    destruct (install_success e w cfg Hrc)
      as (Hcopy & F & Hk & Hdefault & Hrules).
    fold r in Hcopy, Hk, Hrules.
    destruct (protected_copy_In_l _ _ _ Hcopy Hin) as (param' & Hin' & Hpc).
    exists F, param'. split; [done|]. split; [done|]. split; [done|].
    destruct Hpc as (Hsys' & Hprot' & _).
    split.
    + apply In_filter_path_rules. rewrite Hrules.
      unfold param_path_rules. rewrite Hdef.
      rewrite !in_app_iff. left. do 6 right.
      unfold rules_for. apply in_map_iff. exists param'. split; [done|].
      apply filter_In. split; [done|]. unfold stat64_param.
      rewrite (param_is_protected (SCMP_SYS open) param'); [done|done|].
      by rewrite Hsys'.
    + split.
      * rewrite rule_allows_path_rule. unfold call_arg. simpl.
        by rewrite Z.eqb_refl.
      * rewrite (verdict_on_paths e r.2 F _ Hrules Hdefault) by done.
        unfold path_allowed. simpl. by rewrite Hdef.
Qed.

Lemma open_paths_are_allowed_stat64_witness :
  let r := install_syscall_filter env_linux initial_world example_cfg in
  let param := new_element (SCMP_SYS open)
                           (mk_cstr 8192 "/var/lib/tor/state") in
  exists F param',
    kernel_filters r.1.2 = [F] /\
    In param' r.2 /\ protected_copy param param' /\
    In (path_rule stat64 (value param')) (ctx_rules F) /\
    rule_allows
      (mk_call (SCMP_SYS stat64) [to_datum (c_addr (value param'))])
      (path_rule stat64 (value param')) = true /\
    seccomp_verdict F
      (mk_call (SCMP_SYS stat64) [to_datum (c_addr (value param'))])
    = SCMP_ACT_ALLOW.
Proof.
  intros r param.
  destruct (open_paths_are_allowed_stat64 env_linux) as [_ Hinstall].
  apply (Hinstall initial_world example_cfg param).
  - reflexivity.
  - by vm_compute.
  - simpl. auto.
  - reflexivity.
Defined.

(** * Further properties of the installed filter *)

Lemma emits_ite sel (c : bool) pa pb a b :
  emits sel pa a -> emits sel pb b ->
  emits sel (if c then pa else pb) (if c then a else b).
Proof. by destruct c. Qed.

Lemma flat_map_all_nil {A B} (g : A -> list B) l :
  (forall x, g x = []) -> flat_map g l = [].
Proof.
  intros H. induction l as [|x l IH]; simpl; [done|]. by rewrite H, IH.
Qed.

(** Builds the list of selected rules of a table of installers. *)
Ltac emits_build :=
  repeat first
    [ eapply emits_for_each_app
    | eapply emits_for_each_ifdef
    | eapply emits_for_each_cons
    | eapply emits_for_each_nil
    | eapply emits_for_each_map
    | eapply emits_ret
    | eapply emits_add
    | eapply emits_seq
    | eapply emits_ifdef
    | eapply emits_if
    | eapply emits_ite
    | eapply emits_for_each; intros ].

Ltac unfold_installers :=
  unfold sb_rt_sigaction, sb_rt_sigprocmask, sb_time, sb_accept4, sb_mmap2,
    sb_chown, sb_chmod, sb_open, sb_openat, sb_opendir, sb_rename,
    sb_fcntl64, sb_epoll_ctl, sb_prctl, sb_mprotect, sb_flock, sb_futex,
    sb_mremap, sb_stat64, sb_socket, sb_setsockopt, sb_getsockopt,
    sb_socketpair, sb_ioctl, sb_kill, allow_file_open,
    seccomp_rule_add_0, seccomp_rule_add_1, seccomp_rule_add_2,
    seccomp_rule_add_3, seccomp_rule_add_4.

Ltac nil_norm :=
  repeat first
    [ progress cbn [app]
    | rewrite app_nil_r
    | rewrite if_nil
    | rewrite flat_map_all_nil
        by (intros; repeat case_match; reflexivity) ].

(** The selected rules of the two tables, for a selector that computes
    on the rules the installers build. *)
Ltac param_rules sel_unfold :=
  unfold add_param_filter, filter_func; simpl concat; unfold_installers;
  eapply emits_eq; [emits_build|];
  sel_unfold; nil_norm; reflexivity.

Ltac noparam_rules sel_unfold :=
  unfold add_noparam_filter, filter_nopar_gen, seccomp_rule_add_0;
  simpl concat;
  eapply emits_eq; [emits_build|];
  sel_unfold; nil_norm; reflexivity.

Ltac sel_call_unfold := cbn [sel_call rule_call sysname_code Pos.eqb].
Ltac sel_not_allow_unfold := cbn [sel_not_allow rule_act].

Lemma sel_call_spec n r : sel_call n r = true <-> rule_call r = SCMP_SYS n.
Proof.
  unfold sel_call. destruct (rule_call r) as [m|]; [|done].
  rewrite Pos.eqb_eq. split.
  - intros E. f_equal. by apply sysname_code_inj.
  - by intros [= ->].
Qed.

Lemma some_rule_sel_call n act ctx c :
  call_nr c = SCMP_SYS n ->
  some_rule act ctx c
  = existsb (fun r => bool_decide (rule_act r = act) && rule_matches r c)
            (List.filter (sel_call n) (ctx_rules ctx)).
Proof.
  intros Hc. unfold some_rule.
  induction (ctx_rules ctx) as [|r l IH]; simpl; [done|].
  destruct (sel_call n r) eqn:Hr; simpl; rewrite IH; [done|].
  unfold rule_matches. rewrite (bool_decide_eq_false_2 (rule_call r = _)).
  - simpl. by rewrite andb_false_r.
  - rewrite Hc. intros E. apply sel_call_spec in E. congruence.
Qed.

(** A successful installation: the context that is loaded was given the
    rules of the arena, then those of the installers, then those of the
    parameterless table. *)
Lemma install_syscall_filter_parts e w cfg selP selN
    (P : sandbox_cfg_t -> list scmp_rule) (N : list scmp_rule) :
  (forall cfg, emits selP (P cfg) (add_param_filter e cfg)) ->
  emits selN N (add_noparam_filter e) ->
  (install_syscall_filter e w cfg).1.1 = 0 ->
  let r := install_syscall_filter e w cfg in
  let pr_mem_size := prot_strings_size 0 cfg in
  exists b F rsP rsN,
    os_mmap e (to_size_t (MALLOC_MP_LIM + pr_mem_size)) = Some b /\
    r.1.2 = mk_world 1 (filter_dynamic w) (kernel_filters w ++ [F])
                     (libc_fatal_stderr w) (sigsys_handler w) /\
    ctx_default F = SCMP_ACT_ERRNO EPERM /\
    ctx_rules F = prot_rules (Z.of_N b) pr_mem_size ++ rsP ++ rsN /\
    List.filter selP rsP = P r.2 /\
    List.filter selN rsN = N.
Proof.
  intros HP HN. unfold install_syscall_filter.
  destruct (os_seccomp_init e); simpl; [|discriminate].
  pose proof (prot_strings_spec e cfg (mk_ctx (SCMP_ACT_ERRNO EPERM) []))
    as (Hi1 & Hd1 & Hok1).
  destruct (prot_strings e cfg _) as [[rc1 ctx1] cfg1]; simpl in *.
  destruct (Z.eqb_spec rc1 0) as [->|Hne1]; simpl.
  2: { intros H. by apply install_result_nonzero in H. }
  destruct (Hok1 eq_refl) as (b & st & Emap & Ecopy & Erules1).
  destruct ctx1 as [d1 r1]. cbn [ctx_default ctx_rules] in *. subst d1 r1.
  set (ctx1 := mk_ctx _ _).
  destruct (HP cfg1 ctx1) as (rs2 & E2 & Hi2 & Hrs2).
  destruct (add_param_filter e cfg1 ctx1) as [rc2 ctx2].
  cbn [fst snd] in *. subst ctx2.
  destruct (Z.eqb_spec rc2 0) as [->|Hne2]; cbn [negb fst snd].
  2: { intros H. by apply install_result_nonzero in H. }
  set (ctx2 := mk_ctx _ _).
  destruct (HN ctx2) as (rs3 & E3 & Hi3 & Hrs3).
  destruct (add_noparam_filter e ctx2) as [rc3 ctx3].
  cbn [fst snd] in *. subst ctx3.
  destruct (Z.eqb_spec rc3 0) as [->|Hne3]; cbn [negb fst snd].
  2: { intros H. by apply install_result_nonzero in H. }
  set (ctx3 := mk_ctx _ _).
  pose proof (seccomp_load_spec e w ctx3) as [Hi4 _].
  destruct (Z.eqb_spec (seccomp_load e w ctx3) 0) as [E4|Hne4];
    cbn [negb fst snd].
  2: { intros H. by apply install_result_nonzero in H. }
  intros _. exists b, ctx3, rs2, rs3.
  split; [done|]. split; [done|]. split; [done|].
  subst ctx3 ctx2 ctx1. cbn [ctx_default ctx_rules app].
  split; [by rewrite <- app_assoc|]. split; auto.
Qed.

(** The same, for one selection of rules. *)
Lemma install_syscall_filter_rules e w cfg sel
    (P : sandbox_cfg_t -> list scmp_rule) (N : list scmp_rule) :
  (forall cfg, emits sel (P cfg) (add_param_filter e cfg)) ->
  emits sel N (add_noparam_filter e) ->
  (install_syscall_filter e w cfg).1.1 = 0 ->
  let r := install_syscall_filter e w cfg in
  let pr_mem_size := prot_strings_size 0 cfg in
  exists b F,
    os_mmap e (to_size_t (MALLOC_MP_LIM + pr_mem_size)) = Some b /\
    kernel_filters r.1.2 = kernel_filters w ++ [F] /\
    ctx_default F = SCMP_ACT_ERRNO EPERM /\
    List.filter sel (ctx_rules F)
    = List.filter sel (prot_rules (Z.of_N b) pr_mem_size) ++ P r.2 ++ N.
Proof.
  intros HP HN Hrc r pr_mem_size.
  destruct (install_syscall_filter_parts e w cfg sel sel P N HP HN Hrc)
    as (b & F & rsP & rsN & Hmap & Hw & Hdef & Hrules & HrsP & HrsN).
  exists b, F. split; [done|]. fold r in Hw. rewrite Hw.
  split; [done|]. split; [done|].
  rewrite Hrules, !List.filter_app. by rewrite HrsP, HrsN.
Qed.

Lemma add_param_filter_kill e cfg :
  emits (sel_call kill)
    (if defined e NR_kill
     then [mk_rule SCMP_ACT_ALLOW (SCMP_SYS kill) [SCMP_CMP 1 SCMP_CMP_EQ 0]]
     else [])
    (add_param_filter e cfg).
Proof. param_rules sel_call_unfold. Qed.

Lemma add_noparam_filter_kill e :
  emits (sel_call kill) [] (add_noparam_filter e).
Proof. noparam_rules sel_call_unfold. Qed.

(** Evaluates the rules of a list on a call. *)
Ltac decide_eqs :=
  repeat match goal with
  | |- context [bool_decide (?a = ?b)] =>
      first [ rewrite (bool_decide_eq_true_2 (a = b)) by done
            | rewrite (bool_decide_eq_false_2 (a = b)) by done ]
  end.

Ltac no_var t :=
  match t with
  | context [?v] => is_var v; fail 1
  | _ => idtac
  end.

Ltac datum_consts :=
  repeat match goal with
  | |- context [to_datum ?x] =>
      no_var x;
      let v := eval vm_compute in (to_datum x) in
      change (to_datum x) with v
  end.

(** Evaluates the chains of a syscall on a call. *)
Ltac eval_db :=
  unfold prot_rules;
  cbn [List.filter sel_call rule_call sysname_code Pos.eqb app];
  cbn [fold_left db_add db_insert unconditional existsb orb rule_args
       chain_arg map cmp_arg SCMP_CMP SCMP_CMP4 fold_right Nat.ltb Nat.leb];
  cbn [find]; unfold rule_matches, arg_cmp_matches, SCMP_CMP, SCMP_CMP4;
  cbn [forallb rule_act rule_call rule_args call_nr call_args
       cmp_arg cmp_op cmp_datum_a cmp_datum_b nth];
  decide_eqs;
  cbn [andb orb];
  rewrite ?andb_true_r;
  datum_consts.

Ltac eval_rules :=
  unfold union_verdict, some_rule, prot_rules;
  cbn [ctx_rules ctx_default];
  cbn [List.filter sel_call sel_not_allow rule_call rule_act sysname_code
       Pos.eqb app];
  unfold rule_matches, arg_cmp_matches, SCMP_CMP, SCMP_CMP_MASKED, SCMP_CMP4;
  cbn [existsb forallb rule_act rule_call rule_args call_nr call_args
       cmp_arg cmp_op cmp_datum_a cmp_datum_b nth];
  decide_eqs;
  cbn [andb orb];
  rewrite ?andb_true_r, ?orb_false_r;
  datum_consts.

Lemma add_param_filter_prctl e cfg :
  emits (sel_call prctl)
    [mk_rule SCMP_ACT_ALLOW (SCMP_SYS prctl)
       [SCMP_CMP 0 SCMP_CMP_EQ PR_SET_DUMPABLE]]
    (add_param_filter e cfg).
Proof. param_rules sel_call_unfold. Qed.

Lemma add_noparam_filter_prctl e :
  emits (sel_call prctl) [] (add_noparam_filter e).
Proof. noparam_rules sel_call_unfold. Qed.

Lemma add_param_filter_futex e cfg :
  emits (sel_call futex)
    [mk_rule SCMP_ACT_ALLOW (SCMP_SYS futex)
       [SCMP_CMP 1 SCMP_CMP_EQ
          (Z.lor FUTEX_WAIT_BITSET_PRIVATE FUTEX_CLOCK_REALTIME)];
     mk_rule SCMP_ACT_ALLOW (SCMP_SYS futex)
       [SCMP_CMP 1 SCMP_CMP_EQ FUTEX_WAKE_PRIVATE];
     mk_rule SCMP_ACT_ALLOW (SCMP_SYS futex)
       [SCMP_CMP 1 SCMP_CMP_EQ FUTEX_WAIT_PRIVATE]]
    (add_param_filter e cfg).
Proof. param_rules sel_call_unfold. Qed.

Lemma add_noparam_filter_futex e :
  emits (sel_call futex) [mk_rule SCMP_ACT_ALLOW (SCMP_SYS futex) []]
    (add_noparam_filter e).
Proof. noparam_rules sel_call_unfold. Qed.

Lemma add_param_filter_mprotect e cfg :
  emits (sel_call mprotect)
    [mk_rule SCMP_ACT_ALLOW (SCMP_SYS mprotect)
       [SCMP_CMP 2 SCMP_CMP_EQ PROT_READ];
     mk_rule SCMP_ACT_ALLOW (SCMP_SYS mprotect)
       [SCMP_CMP 2 SCMP_CMP_EQ PROT_NONE]]
    (add_param_filter e cfg).
Proof. param_rules sel_call_unfold. Qed.

Lemma add_noparam_filter_mprotect e :
  emits (sel_call mprotect) [] (add_noparam_filter e).
Proof. noparam_rules sel_call_unfold. Qed.

Lemma add_param_filter_not_allow e cfg :
  emits sel_not_allow [] (add_param_filter e cfg).
Proof. param_rules sel_not_allow_unfold. Qed.

Lemma add_noparam_filter_not_allow e :
  emits sel_not_allow [] (add_noparam_filter e).
Proof. noparam_rules sel_not_allow_unfold. Qed.

(** What follows when the rules of a filter that do not allow are the two
    kill rules of the arena. *)
Lemma kill_rules_spec F base :
  List.filter sel_not_allow (ctx_rules F) = arena_kill_rules base ->
  (forall rule, In rule (arena_kill_rules base) -> In rule (ctx_rules F)) /\
  (forall rule, In rule (ctx_rules F) ->
     In rule (arena_kill_rules base) \/ rule_act rule = SCMP_ACT_ALLOW).
Proof.
  intros Hrules.
  assert (Hin : forall rule,
            In rule (ctx_rules F) /\ sel_not_allow rule = true
            <-> In rule (arena_kill_rules base)).
  { intros rule. by rewrite <- filter_In, Hrules. }
  split; [intros rule Hr; by apply Hin|].
  intros rule Hr. destruct (sel_not_allow rule) eqn:Hsel.
  - left. by apply Hin.
  - right. unfold sel_not_allow in Hsel. by destruct (rule_act rule).
Qed.

(** The rules given to a loaded context allow, but for the two kill rules
    of the arena, which are for mremap and munmap. *)
Lemma installed_rules_allow e w cfg F call :
  (install_syscall_filter e w cfg).1.1 = 0 ->
  kernel_filters (install_syscall_filter e w cfg).1.2
  = kernel_filters w ++ [F] ->
  call <> SCMP_SYS mremap -> call <> SCMP_SYS munmap ->
  forall rule, In rule (ctx_rules F) -> rule_call rule = call ->
    rule_act rule = SCMP_ACT_ALLOW.
Proof.
  intros Hrc Hk Hn1 Hn2 rule Hin Hcall.
  destruct (install_syscall_filter_rules e w cfg sel_not_allow _ _
              (add_param_filter_not_allow e) (add_noparam_filter_not_allow e)
              Hrc)
    as (b & F' & _ & Hk' & _ & Hrules).
  rewrite Hk in Hk'. apply app_inj_tail in Hk' as [_ <-].
  destruct (kill_rules_spec F _ Hrules) as [_ Hall].
  destruct (Hall rule Hin) as [[<-|[<-|[]]]|Hallow]; [| |done].
  - by destruct Hn1.
  - by destruct Hn2.
Qed.

(** The verdict of a loaded filter on a syscall other than mremap and
    munmap, from the rules for that syscall. *)
Lemma seccomp_verdict_sel_call e w cfg n F :
  (install_syscall_filter e w cfg).1.1 = 0 ->
  kernel_filters (install_syscall_filter e w cfg).1.2
  = kernel_filters w ++ [F] ->
  n <> mremap -> n <> munmap ->
  forall c, call_nr c = SCMP_SYS n ->
  seccomp_verdict F c
  = let rs := List.filter (sel_call n) (ctx_rules F) in
    let hit act :=
      existsb (fun r => bool_decide (rule_act r = act) && rule_matches r c)
              rs in
    if hit SCMP_ACT_KILL then SCMP_ACT_KILL
    else if hit SCMP_ACT_ALLOW then SCMP_ACT_ALLOW
    else ctx_default F.
Proof.
  intros Hrc Hk Hn1 Hn2 c Hc.
  rewrite seccomp_verdict_allow_rules.
  - unfold union_verdict. by rewrite !(some_rule_sel_call n).
  - rewrite Hc. apply (installed_rules_allow e w cfg F); try done.
    + by intros [= ->].
    + by intros [= ->].
Qed.

(** The verdict of a filter on a call, from the chains libseccomp holds
    for the syscall. *)
Lemma seccomp_verdict_db n F c :
  call_nr c = SCMP_SYS n ->
  seccomp_verdict F c
  = match find (fun r => rule_matches r c)
               (fold_left db_add (List.filter (sel_call n) (ctx_rules F)) [])
    with
    | Some r => rule_act r
    | None => ctx_default F
    end.
Proof.
  intros Hc. unfold seccomp_verdict, seccomp_db. rewrite Hc.
  replace (List.filter (fun r => bool_decide (rule_call r = SCMP_SYS n))
             (ctx_rules F))
    with (List.filter (sel_call n) (ctx_rules F)); [done|].
  apply filter_ext. intros r. apply Bool.eq_iff_eq_true.
  by rewrite sel_call_spec, bool_decide_eq_true.
Qed.

(** X1: on a filter that [install_syscall_filter] has loaded, kill is
    allowed exactly with signal 0, whatever the process it names, and
    only where the build has the syscall; every other kill gets EPERM. *)
Theorem installed_filter_on_kill e w cfg :
  (install_syscall_filter e w cfg).1.1 = 0 ->
  let r := install_syscall_filter e w cfg in
  exists F,
    kernel_filters r.1.2 = kernel_filters w ++ [F] /\
    forall pid sig rest,
      seccomp_verdict F (mk_call (SCMP_SYS kill) (pid :: sig :: rest))
      = if defined e NR_kill && (sig =? 0)
        then SCMP_ACT_ALLOW else SCMP_ACT_ERRNO EPERM.
Proof.
  intros Hrc r.
  destruct (install_syscall_filter_rules e w cfg (sel_call kill) _ _
              (add_param_filter_kill e) (add_noparam_filter_kill e) Hrc)
    as (b & F & _ & Hk & Hdef & Hrules).
  exists F. split; [exact Hk|]. intros pid sig rest.
  rewrite (seccomp_verdict_sel_call e w cfg kill F Hrc Hk) by done. cbv zeta.
  rewrite Hrules, Hdef. by destruct (defined e NR_kill); eval_rules.
Qed.

Lemma installed_filter_on_kill_witness :
  let r := install_syscall_filter env_linux initial_world example_cfg in
  r.1.1 = 0 /\
  exists F,
    kernel_filters r.1.2 = [F] /\
    seccomp_verdict F (mk_call (SCMP_SYS kill) [1; 0]) = SCMP_ACT_ALLOW /\
    seccomp_verdict F (mk_call (SCMP_SYS kill) [1; 9])
    = SCMP_ACT_ERRNO EPERM.
Proof.
  intros r. split; [by vm_compute|].
  destruct (installed_filter_on_kill env_linux initial_world example_cfg)
    as (F & Hk & Hv); [by vm_compute|].
  exists F. split; [exact Hk|]. rewrite !Hv. split; by vm_compute.
Defined.

(** The verdict of a loaded filter on prctl. *)
Lemma installed_verdict_prctl e w cfg F option rest :
  (install_syscall_filter e w cfg).1.1 = 0 ->
  kernel_filters (install_syscall_filter e w cfg).1.2
  = kernel_filters w ++ [F] ->
  seccomp_verdict F (mk_call (SCMP_SYS prctl) (option :: rest))
  = if option =? PR_SET_DUMPABLE
    then SCMP_ACT_ALLOW else SCMP_ACT_ERRNO EPERM.
Proof.
  intros Hrc Hk.
  destruct (install_syscall_filter_rules e w cfg (sel_call prctl) _ _
              (add_param_filter_prctl e) (add_noparam_filter_prctl e) Hrc)
    as (b & F' & _ & Hk' & Hdef & Hrules).
  rewrite Hk in Hk'. apply app_inj_tail in Hk' as [_ <-].
  rewrite (seccomp_verdict_sel_call e w cfg prctl F Hrc Hk) by done. cbv zeta.
  rewrite Hrules, Hdef. by eval_rules.
Qed.

(** X2: on a loaded filter, prctl is allowed with the option
    PR_SET_DUMPABLE and with no other option. *)
Theorem installed_filter_on_prctl e w cfg :
  (install_syscall_filter e w cfg).1.1 = 0 ->
  let r := install_syscall_filter e w cfg in
  exists F,
    kernel_filters r.1.2 = kernel_filters w ++ [F] /\
    forall option rest,
      seccomp_verdict F (mk_call (SCMP_SYS prctl) (option :: rest))
      = if option =? PR_SET_DUMPABLE
        then SCMP_ACT_ALLOW else SCMP_ACT_ERRNO EPERM.
Proof.
  intros Hrc r.
  destruct (install_syscall_filter_rules e w cfg (sel_call prctl) _ _
              (add_param_filter_prctl e) (add_noparam_filter_prctl e) Hrc)
    as (b & F & _ & Hk & Hdef & Hrules).
  exists F. split; [exact Hk|]. intros option rest.
  by apply (installed_verdict_prctl e w cfg).
Qed.

Lemma installed_filter_on_prctl_witness :
  let r := install_syscall_filter env_linux initial_world example_cfg in
  r.1.1 = 0 /\
  exists F,
    kernel_filters r.1.2 = [F] /\
    seccomp_verdict F (mk_call (SCMP_SYS prctl) [PR_SET_DUMPABLE; 0])
    = SCMP_ACT_ALLOW /\
    seccomp_verdict F (mk_call (SCMP_SYS prctl) [38; 1])
    = SCMP_ACT_ERRNO EPERM.
Proof.
  intros r. split; [by vm_compute|].
  destruct (installed_filter_on_prctl env_linux initial_world example_cfg)
    as (F & Hk & Hv); [by vm_compute|].
  exists F. split; [exact Hk|]. rewrite !Hv. split; by vm_compute.
Defined.

(** X3: futex is in the list of syscalls allowed without a condition, so
    a loaded filter allows every futex call: the three operations that
    [sb_futex] names restrict nothing. *)
Theorem installed_filter_on_futex e w cfg :
  (install_syscall_filter e w cfg).1.1 = 0 ->
  let r := install_syscall_filter e w cfg in
  exists F,
    kernel_filters r.1.2 = kernel_filters w ++ [F] /\
    In (mk_rule SCMP_ACT_ALLOW (SCMP_SYS futex) []) (ctx_rules F) /\
    forall args,
      seccomp_verdict F (mk_call (SCMP_SYS futex) args) = SCMP_ACT_ALLOW.
Proof.
  intros Hrc r.
  destruct (install_syscall_filter_rules e w cfg (sel_call futex) _ _
              (add_param_filter_futex e) (add_noparam_filter_futex e) Hrc)
    as (b & F & _ & Hk & Hdef & Hrules).
  exists F. split; [exact Hk|]. split.
  - apply (proj1 (filter_In (sel_call futex) _ (ctx_rules F))).
    rewrite Hrules, !in_app_iff. right. right. by left.
  - intros args.
    rewrite (seccomp_verdict_sel_call e w cfg futex F Hrc Hk) by done.
    cbv zeta.
    rewrite Hrules, Hdef. eval_rules.
    by rewrite !orb_true_r.
Qed.

Lemma installed_filter_on_futex_witness :
  let r := install_syscall_filter env_linux initial_world example_cfg in
  r.1.1 = 0 /\
  exists F,
    kernel_filters r.1.2 = [F] /\
    seccomp_verdict F (mk_call (SCMP_SYS futex) [4096; FUTEX_WAKE_PRIVATE])
    = SCMP_ACT_ALLOW /\
    seccomp_verdict F (mk_call (SCMP_SYS futex) [4096; 0]) = SCMP_ACT_ALLOW.
Proof.
  intros r. split; [by vm_compute|].
  destruct (installed_filter_on_futex env_linux initial_world example_cfg)
    as (F & Hk & _ & Hv); [by vm_compute|].
  exists F. split; [exact Hk|]. rewrite !Hv. split; by vm_compute.
Defined.

Lemma if_verdict_eq (a b : bool) (x y : scmp_action) :
  a = b -> (if a then x else y) = (if b then x else y).
Proof. by intros ->. Qed.

(** X4: the verdict of a loaded filter on mprotect, from the rules of
    [sb_mprotect] and of [prot_strings] together.  With the arena inside
    the address space, a request is allowed when it asks for PROT_READ
    or PROT_NONE, or when it asks for exactly PROT_READ|PROT_WRITE on at
    most MALLOC_MP_LIM bytes that start below the arena or above its
    end; every other request gets EPERM.  So no allowed request makes
    memory executable, and none that asks for write access reaches the
    interned strings. *)
Theorem installed_filter_on_mprotect e w cfg :
  (install_syscall_filter e w cfg).1.1 = 0 ->
  let r := install_syscall_filter e w cfg in
  let pr_mem_size := prot_strings_size 0 cfg in
  exists (b : N) F,
    os_mmap e (to_size_t (MALLOC_MP_LIM + pr_mem_size)) = Some b /\
    kernel_filters r.1.2 = kernel_filters w ++ [F] /\
    (Z.of_N b + MALLOC_MP_LIM + pr_mem_size < 2 ^ 64 ->
     forall addr len prt rest,
       let base := Z.of_N b in
       let c := mk_call (SCMP_SYS mprotect) (addr :: len :: prt :: rest) in
       seccomp_verdict F c
       = (if (prt =? PROT_READ) || (prt =? PROT_NONE)
             || ((prt =? PROT_READ ||| PROT_WRITE)
                 && (len <=? MALLOC_MP_LIM)
                 && ((addr <? base)
                     || (addr >? base + pr_mem_size + MALLOC_MP_LIM)))
          then SCMP_ACT_ALLOW else SCMP_ACT_ERRNO EPERM) /\
       (seccomp_verdict F c = SCMP_ACT_ALLOW ->
        Z.land prt PROT_EXEC = 0 /\
        (Z.land prt PROT_WRITE <> 0 ->
         addr + len < base + MALLOC_MP_LIM \/
         base + MALLOC_MP_LIM + pr_mem_size < addr))).
Proof.
  intros Hrc r pr_mem_size.
  destruct (install_syscall_filter_rules e w cfg (sel_call mprotect) _ _
              (add_param_filter_mprotect e) (add_noparam_filter_mprotect e)
              Hrc)
    as (b & F & Hmap & Hk & Hdef & Hrules).
  exists b, F. split; [exact Hmap|]. split; [exact Hk|].
  intros Hfits addr len prt rest base c.
  fold pr_mem_size in Hrules. fold base in Hrules.
  assert (Hsize : 0 <= pr_mem_size) by (apply prot_strings_size_nonneg; lia).
  assert (Hbase : 0 <= base) by (unfold base; lia).
  assert (Hlim : MALLOC_MP_LIM = 20971520) by reflexivity.
  assert (Hverdict :
    seccomp_verdict F c
    = (if (prt =? PROT_READ) || (prt =? PROT_NONE)
          || ((prt =? PROT_READ ||| PROT_WRITE)
              && (len <=? MALLOC_MP_LIM)
              && ((addr <? base)
                  || (addr >? base + pr_mem_size + MALLOC_MP_LIM)))
       then SCMP_ACT_ALLOW else SCMP_ACT_ERRNO EPERM)).
  { unfold c.
    rewrite (seccomp_verdict_sel_call e w cfg mprotect F Hrc Hk) by done.
    cbv zeta.
    rewrite Hrules, Hdef. eval_rules.
    unfold to_size_t. rewrite (Z.mod_small _ (2 ^ 64)) by lia.
    rewrite !to_datum_small by lia.
    apply if_verdict_eq, Bool.eq_iff_eq_true.
    change PROT_READ with 1. change PROT_NONE with 0.
    change (1 ||| PROT_WRITE) with 3.
    rewrite !orb_true_iff, !andb_true_iff, !orb_true_iff, !Z.eqb_eq,
      !Z.leb_le, !Z.ltb_lt, !Z.gtb_gt.
    lia. }
  split; [exact Hverdict|]. rewrite Hverdict. clear Hverdict.
  destruct (_ || _) eqn:Hcond; [intros _|discriminate].
  change PROT_READ with 1 in Hcond. change PROT_NONE with 0 in Hcond.
  change (1 ||| PROT_WRITE) with 3 in Hcond.
  rewrite !orb_true_iff, !andb_true_iff, !orb_true_iff, !Z.eqb_eq,
    !Z.leb_le, !Z.ltb_lt, !Z.gtb_gt in Hcond.
  destruct Hcond as [[->| ->]|[[-> Hlen] Haddr]].
  - split; [reflexivity|]. intros H. by contradict H.
  - split; [reflexivity|]. intros H. by contradict H.
  - split; [reflexivity|]. intros _. lia.
Qed.

Lemma installed_filter_on_mprotect_witness :
  let r := install_syscall_filter env_linux initial_world example_cfg in
  let base := 139637976727552 in
  r.1.1 = 0 /\
  base + MALLOC_MP_LIM + prot_strings_size 0 example_cfg < 2 ^ 64 /\
  exists F,
    kernel_filters r.1.2 = [F] /\
    seccomp_verdict F
      (mk_call (SCMP_SYS mprotect) [base - 8192; 4096; 3]) = SCMP_ACT_ALLOW /\
    seccomp_verdict F
      (mk_call (SCMP_SYS mprotect) [base + MALLOC_MP_LIM; 4096; 3])
    = SCMP_ACT_ERRNO EPERM /\
    seccomp_verdict F
      (mk_call (SCMP_SYS mprotect) [base - 8192; 4096; 5])
    = SCMP_ACT_ERRNO EPERM.
Proof.
  intros r base. split; [by vm_compute|]. split; [by vm_compute|].
  destruct (installed_filter_on_mprotect env_linux initial_world example_cfg)
    as (b & F & Hmap & Hk & Hv); [by vm_compute|].
  injection Hmap as <-.
  exists F. split; [exact Hk|].
  specialize (Hv ltac:(by vm_compute)).
  pose proof (fun addr len prt => proj1 (Hv addr len prt [])) as Hv'.
  rewrite !Hv'. repeat split; by vm_compute.
Defined.

Lemma add_param_filter_mremap e cfg :
  emits (sel_call mremap)
    [mk_rule SCMP_ACT_ALLOW (SCMP_SYS mremap)
       [SCMP_CMP 3 SCMP_CMP_EQ MREMAP_MAYMOVE]]
    (add_param_filter e cfg).
Proof. param_rules sel_call_unfold. Qed.

Lemma add_noparam_filter_mremap e :
  emits (sel_call mremap) [] (add_noparam_filter e).
Proof. noparam_rules sel_call_unfold. Qed.

Lemma add_param_filter_munmap e cfg :
  emits (sel_call munmap) [] (add_param_filter e cfg).
Proof. param_rules sel_call_unfold. Qed.

Lemma add_noparam_filter_munmap e :
  emits (sel_call munmap) [mk_rule SCMP_ACT_ALLOW (SCMP_SYS munmap) []]
    (add_noparam_filter e).
Proof. noparam_rules sel_call_unfold. Qed.



Lemma add_param_filter_socket e cfg :
  emits (sel_call socket)
    ((if defined e i386
      then [mk_rule SCMP_ACT_ALLOW (SCMP_SYS socket) []] else [])
     ++ socket_rules e)
    (add_param_filter e cfg).
Proof. param_rules sel_call_unfold. Qed.

Lemma add_noparam_filter_socket e :
  emits (sel_call socket) [] (add_noparam_filter e).
Proof. noparam_rules sel_call_unfold. Qed.

(** X6: the verdict of a loaded filter on socket.  A build for i386
    allows every socket call.  Any other build allows the calls that
    [socket_allowed] lists and gives EPERM to the rest: so an allowed
    socket is a local, an IPv4, an IPv6 or a netlink socket, and on IPv4
    and IPv6 it is a stream or a datagram socket, never a raw one. *)
Theorem installed_filter_on_socket e w cfg :
  (install_syscall_filter e w cfg).1.1 = 0 ->
  let r := install_syscall_filter e w cfg in
  exists F,
    kernel_filters r.1.2 = kernel_filters w ++ [F] /\
    forall domain ty protocol rest,
      let c := mk_call (SCMP_SYS socket) (domain :: ty :: protocol :: rest) in
      let type := without_flags (SOCK_CLOEXEC ||| SOCK_NONBLOCK) ty in
      seccomp_verdict F c
      = (if defined e i386 || socket_allowed e domain ty protocol
         then SCMP_ACT_ALLOW else SCMP_ACT_ERRNO EPERM) /\
      (defined e i386 = false -> seccomp_verdict F c = SCMP_ACT_ALLOW ->
       (domain = PF_UNIX \/ domain = PF_INET \/ domain = PF_INET6 \/
        domain = PF_NETLINK) /\
       (domain = PF_INET \/ domain = PF_INET6 ->
        type = SOCK_STREAM \/ type = SOCK_DGRAM)).
Proof.
  intros Hrc r.
  destruct (install_syscall_filter_rules e w cfg (sel_call socket) _ _
              (add_param_filter_socket e) (add_noparam_filter_socket e) Hrc)
    as (b & F & _ & Hk & Hdef & Hrules).
  exists F. split; [exact Hk|]. intros domain ty protocol rest c type.
  assert (Hverdict :
    seccomp_verdict F c
    = (if defined e i386 || socket_allowed e domain ty protocol
       then SCMP_ACT_ALLOW else SCMP_ACT_ERRNO EPERM)).
  { unfold c.
    rewrite (seccomp_verdict_sel_call e w cfg socket F Hrc Hk) by done.
    cbv zeta.
    rewrite Hrules, Hdef. unfold socket_rules, socket_allowed, without_flags.
    destruct (defined e i386), (defined e ENABLE_NSS); eval_rules;
      try reflexivity; apply if_verdict_eq;
      unfold PF_FILE, PF_INET, PF_INET6, PF_UNIX, PF_NETLINK, SOCK_STREAM,
        SOCK_DGRAM, SOCK_RAW, IPPROTO_TCP, IPPROTO_IP, IPPROTO_UDP;
      btauto. }
  split; [exact Hverdict|]. intros Hi386. rewrite Hverdict, Hi386.
  clear Hverdict. cbn [orb].
  destruct (socket_allowed e domain ty protocol) eqn:Hcond;
    [intros _|discriminate].
  unfold socket_allowed in Hcond. fold type in Hcond.
  unfold PF_FILE, PF_INET, PF_INET6, PF_UNIX, PF_NETLINK, SOCK_STREAM,
    SOCK_DGRAM, IPPROTO_TCP, IPPROTO_IP, IPPROTO_UDP in *.
  repeat (rewrite orb_true_iff in Hcond || rewrite andb_true_iff in Hcond).
  rewrite !Z.eqb_eq in Hcond.
  assert (Hnss : ty = 1 -> type = 1) by (intros ->; by vm_compute).
  lia.
Qed.

Lemma installed_filter_on_socket_witness :
  let r := install_syscall_filter env_x86_64 initial_world example_cfg in
  r.1.1 = 0 /\
  exists F,
    kernel_filters r.1.2 = [F] /\
    seccomp_verdict F
      (mk_call (SCMP_SYS socket)
         [PF_INET; SOCK_STREAM ||| SOCK_CLOEXEC; IPPROTO_TCP])
    = SCMP_ACT_ALLOW /\
    seccomp_verdict F (mk_call (SCMP_SYS socket) [PF_INET; SOCK_RAW; 1])
    = SCMP_ACT_ERRNO EPERM.
Proof.
  intros r. split; [by vm_compute|].
  destruct (installed_filter_on_socket env_x86_64 initial_world example_cfg)
    as (F & Hk & Hv); [by vm_compute|].
  exists F. split; [exact Hk|].
  pose proof (fun d t p => proj1 (Hv d t p [])) as Hv'.
  rewrite !Hv'. split; by vm_compute.
Defined.

(** X19: the verdict of a loaded filter on munmap and mremap away from
    the arena.  For an address that is not the base of the arena, munmap
    is allowed, and mremap is allowed with the flags MREMAP_MAYMOVE and
    gets EPERM with any other flags. *)
Theorem installed_filter_on_unmapping e w cfg :
  (install_syscall_filter e w cfg).1.1 = 0 ->
  let r := install_syscall_filter e w cfg in
  let pr_mem_size := prot_strings_size 0 cfg in
  exists (b : N) F,
    os_mmap e (to_size_t (MALLOC_MP_LIM + pr_mem_size)) = Some b /\
    kernel_filters r.1.2 = kernel_filters w ++ [F] /\
    forall addr, addr <> to_datum (Z.of_N b) ->
      (forall rest,
         seccomp_verdict F (mk_call (SCMP_SYS munmap) (addr :: rest))
         = SCMP_ACT_ALLOW) /\
      (forall len newlen flags rest,
         seccomp_verdict F
           (mk_call (SCMP_SYS mremap)
              (addr :: len :: newlen :: flags :: rest))
         = if flags =? MREMAP_MAYMOVE
           then SCMP_ACT_ALLOW else SCMP_ACT_ERRNO EPERM).
Proof.
  intros Hrc r pr_mem_size.
  destruct (install_syscall_filter_rules e w cfg (sel_call munmap) _ _
              (add_param_filter_munmap e) (add_noparam_filter_munmap e) Hrc)
    as (b & F & Hmap & Hk & Hdef & Hun).
  destruct (install_syscall_filter_rules e w cfg (sel_call mremap) _ _
              (add_param_filter_mremap e) (add_noparam_filter_mremap e) Hrc)
    as (b' & F' & Hmap' & Hk' & _ & Hre).
  rewrite Hmap in Hmap'. injection Hmap' as <-.
  assert (F' = F) as ->.
  { rewrite Hk in Hk'. by apply app_inj_tail in Hk' as [_ ->]. }
  exists b, F. split; [exact Hmap|]. split; [exact Hk|].
  intros addr Hne. apply Z.eqb_neq in Hne. split.
  - intros rest. rewrite (seccomp_verdict_db munmap) by done.
    rewrite Hun, Hdef. by eval_db.
  - intros len newlen flags rest. rewrite (seccomp_verdict_db mremap) by done.
    rewrite Hre, Hdef. eval_db. rewrite Hne. change MREMAP_MAYMOVE with 1.
    by destruct (flags =? 1).
Qed.

Lemma installed_filter_on_unmapping_witness :
  let r := install_syscall_filter env_linux initial_world example_cfg in
  r.1.1 = 0 /\
  exists F,
    kernel_filters r.1.2 = [F] /\
    seccomp_verdict F (mk_call (SCMP_SYS munmap) [4096; 4096])
    = SCMP_ACT_ALLOW /\
    seccomp_verdict F (mk_call (SCMP_SYS mremap) [4096; 4096; 8192; 2])
    = SCMP_ACT_ERRNO EPERM.
Proof.
  intros r. split; [by vm_compute|].
  destruct (installed_filter_on_unmapping env_linux initial_world
              example_cfg) as (b & F & Hmap & Hk & Hv); [by vm_compute|].
  injection Hmap as <-.
  exists F. split; [exact Hk|].
  destruct (Hv 4096 ltac:(by vm_compute)) as [Hun Hre].
  rewrite Hun, Hre. split; by vm_compute.
Defined.

Lemma add_noparam_filter_all e :
  emits all_rules (noparam_rules e) (add_noparam_filter e).
Proof.
  unfold add_noparam_filter, noparam_rules. eapply emits_eq.
  - eapply emits_seq.
    + eapply (emits_for_each _ _ (fun call => [noparam_rule call])).
      intros call. unfold seccomp_rule_add_0.
      apply (emits_add e all_rules).
    + apply emits_if, emits_ifdef, emits_add.
  - f_equal.
    all: induction (filter_nopar_gen e) as [|x l IH]; simpl; congruence.
Qed.

Lemma noparam_rules_unconditional e :
  Forall (fun r => unconditional r = true /\ rule_act r = SCMP_ACT_ALLOW)
         (noparam_rules e).
Proof.
  apply List.Forall_forall. intros x Hx. unfold noparam_rules in Hx.
  apply in_app_iff in Hx as [Hx|Hx].
  - by apply in_map_iff in Hx as (call & <- & _).
  - destruct (is_libc_at_least e 2 33), (defined e NR_newfstatat);
      try done; by destruct Hx as [<-|[]].
Qed.

Lemma In_noparam_rules e r :
  In r (noparam_rules e) -> r = noparam_rule (rule_call r).
Proof.
  unfold noparam_rules. intros Hx.
  apply in_app_iff in Hx as [Hx|Hx].
  - by apply in_map_iff in Hx as (call & <- & _).
  - destruct (is_libc_at_least e 2 33), (defined e NR_newfstatat);
      try done; by destruct Hx as [<-|[]].
Qed.

(** X9: the syscalls of the table [filter_nopar_gen] are allowed on a
    loaded filter whatever their arguments: the context is given a rule
    without conditions for each of them, after the rules of the arena and
    of the installers, and that rule is then the only one libseccomp
    holds for the syscall.  This goes for munmap as well, for which the
    arena had a kill rule.  The same holds of newfstatat where the build
    has it and the C library is 2.33 or later. *)
Theorem installed_filter_allow_list e w cfg :
  (install_syscall_filter e w cfg).1.1 = 0 ->
  let r := install_syscall_filter e w cfg in
  exists F,
    kernel_filters r.1.2 = kernel_filters w ++ [F] /\
    (forall call, In call (filter_nopar_gen e) ->
       In (noparam_rule call) (ctx_rules F)) /\
    (forall n args, In (SCMP_SYS n) (filter_nopar_gen e) ->
       some_rule SCMP_ACT_ALLOW F (mk_call (SCMP_SYS n) args) = true /\
       seccomp_db (SCMP_SYS n) (ctx_rules F) = [noparam_rule (SCMP_SYS n)] /\
       seccomp_verdict F (mk_call (SCMP_SYS n) args) = SCMP_ACT_ALLOW) /\
    (is_libc_at_least e 2 33 = true -> defined e NR_newfstatat = true ->
     forall args,
       seccomp_verdict F (mk_call (SCMP_SYS newfstatat) args)
       = SCMP_ACT_ALLOW).
Proof.
  intros Hrc r.
  destruct (install_syscall_filter_parts e w cfg sel_not_allow all_rules
              _ _ (add_param_filter_not_allow e) (add_noparam_filter_all e)
              Hrc)
    as (b & F & rsP & rsN & Hmap & Hw & Hdef & Hrules & HrsP & HrsN).
  rewrite filter_all_rules in HrsN. subst rsN.
  exists F. fold r in Hw. rewrite Hw. split; [done|].
  destruct F as [d rules]. cbn [ctx_rules ctx_default] in *.
  rewrite app_assoc in Hrules. subst rules.
  set (l1 := prot_rules _ _ ++ rsP).
  assert (Hallow : forall call args, In (noparam_rule call) (noparam_rules e) ->
            some_rule SCMP_ACT_ALLOW (mk_ctx d (l1 ++ noparam_rules e))
              (mk_call call args) = true).
  { intros call args Hin. unfold some_rule. apply existsb_exists.
    exists (noparam_rule call). split; [apply in_app_iff; by right|].
    unfold rule_matches. simpl.
    by rewrite !bool_decide_eq_true_2 by done. }
  assert (Hverdict : forall call args,
            In (noparam_rule call) (noparam_rules e) ->
            seccomp_verdict (mk_ctx d (l1 ++ noparam_rules e))
              (mk_call call args) = SCMP_ACT_ALLOW).
  { intros call args Hin.
    apply (seccomp_verdict_unconditional d l1 _ (noparam_rule call));
      [apply noparam_rules_unconditional|done|done]. }
  assert (Htable : forall call, In call (filter_nopar_gen e) ->
            In (noparam_rule call) (noparam_rules e)).
  { intros call H. unfold noparam_rules.
    apply in_app_iff. left. by apply in_map. }
  split; [intros call H; apply in_app_iff; right; by apply Htable|]. split.
  - intros n args H. split; [by apply Hallow, Htable|].
    split; [|by apply Hverdict, Htable].
    destruct (seccomp_db_unconditional (SCMP_SYS n) l1 (noparam_rules e)
                (noparam_rule (SCMP_SYS n)))
      as (r' & -> & Hr' & Hc & _); [|by apply Htable|done|].
    { eapply Forall_impl; [apply noparam_rules_unconditional|].
      by intros x [? _]. }
    by rewrite (In_noparam_rules e r' Hr'), Hc.
  - intros Hlibc Hnr args. apply Hverdict.
    unfold noparam_rules. rewrite Hlibc, Hnr.
    apply in_app_iff. right. by left.
Qed.

Lemma installed_filter_allow_list_witness :
  let r := install_syscall_filter env_linux initial_world example_cfg in
  r.1.1 = 0 /\
  exists F,
    kernel_filters r.1.2 = [F] /\
    seccomp_verdict F (mk_call (SCMP_SYS write) [2; 4096; 17])
    = SCMP_ACT_ALLOW /\
    seccomp_verdict F (mk_call (SCMP_SYS munmap) [139637976727552; 4096])
    = SCMP_ACT_ALLOW.
Proof.
  intros r. split; [by vm_compute|].
  destruct (installed_filter_allow_list env_linux initial_world example_cfg)
    as (F & Hk & _ & Hv & _); [by vm_compute|].
  exists F. split; [exact Hk|]. split.
  - apply Hv. vm_compute. tauto.
  - apply Hv. vm_compute. tauto.
Defined.

Ltac eqb_consts :=
  repeat match goal with
  | |- context [Z.eqb ?v ?k] =>
      no_var k;
      let k' := eval vm_compute in k in
      lazymatch k with
      | k' => fail
      | _ => idtac
      end;
      change (Z.eqb v k) with (Z.eqb v k')
  end.

Lemma add_param_filter_mmap2 e cfg :
  emits (sel_call mmap2)
    (if defined e NR_mmap2 then map mmap2_rule mmap2_table else [])
    (add_param_filter e cfg).
Proof. param_rules sel_call_unfold. Qed.

Lemma add_noparam_filter_mmap2 e :
  emits (sel_call mmap2) [] (add_noparam_filter e).
Proof. noparam_rules sel_call_unfold. Qed.

(** X15: the verdict of a loaded filter on mmap2.  Where the build has
    the syscall, a request is allowed when its protection and its flags
    are one of the seven pairs of [sb_mmap2], and gets EPERM otherwise;
    where it has not, every request gets EPERM.  So no allowed request
    asks for memory that is writable and executable at once, and an
    executable mapping is a private one with MAP_DENYWRITE. *)
Theorem installed_filter_on_mmap2 e w cfg :
  (install_syscall_filter e w cfg).1.1 = 0 ->
  let r := install_syscall_filter e w cfg in
  exists F,
    kernel_filters r.1.2 = kernel_filters w ++ [F] /\
    forall addr len prt flags rest,
      let c := mk_call (SCMP_SYS mmap2)
                 (addr :: len :: prt :: flags :: rest) in
      seccomp_verdict F c
      = (if defined e NR_mmap2 && mmap2_allowed prt flags
         then SCMP_ACT_ALLOW else SCMP_ACT_ERRNO EPERM) /\
      (seccomp_verdict F c = SCMP_ACT_ALLOW ->
       (Z.land prt PROT_WRITE = 0 \/ Z.land prt PROT_EXEC = 0) /\
       (Z.land prt PROT_EXEC <> 0 ->
        prt = PROT_READ ||| PROT_EXEC /\
        flags = MAP_PRIVATE ||| MAP_DENYWRITE)).
Proof.
  intros Hrc r.
  destruct (install_syscall_filter_rules e w cfg (sel_call mmap2) _ _
              (add_param_filter_mmap2 e) (add_noparam_filter_mmap2 e) Hrc)
    as (b & F & _ & Hk & Hdef & Hrules).
  exists F. split; [exact Hk|]. intros addr len prt flags rest c.
  assert (Hverdict :
    seccomp_verdict F c
    = (if defined e NR_mmap2 && mmap2_allowed prt flags
       then SCMP_ACT_ALLOW else SCMP_ACT_ERRNO EPERM)).
  { unfold c.
    rewrite (seccomp_verdict_sel_call e w cfg mmap2 F Hrc Hk) by done.
    cbv zeta.
    rewrite Hrules, Hdef. unfold mmap2_allowed, mmap2_table, mmap2_rule.
    cbn [map fst snd].
    destruct (defined e NR_mmap2); eval_rules; [|done].
    apply if_verdict_eq. cbn [existsb fst snd]. eqb_consts. btauto. }
  split; [exact Hverdict|]. rewrite Hverdict. clear Hverdict.
  destruct (defined e NR_mmap2 && mmap2_allowed prt flags) eqn:Hcond;
    [intros _|discriminate].
  apply andb_prop in Hcond as [_ Hcond].
  unfold mmap2_allowed in Hcond. apply existsb_exists in Hcond.
  destruct Hcond as ([p f] & Hin & Hpf). cbn [fst snd] in Hpf.
  apply andb_prop in Hpf as [Hp Hf].
  apply Z.eqb_eq in Hp. apply Z.eqb_eq in Hf. subst prt flags.
  unfold mmap2_table in Hin. cbn [In] in Hin.
  repeat (destruct Hin as [[= <- <-]|Hin]; [by vm_compute; intuition|]).
  destruct Hin.
Qed.

Lemma installed_filter_on_mmap2_witness :
  let r := install_syscall_filter env_linux initial_world example_cfg in
  r.1.1 = 0 /\
  exists F,
    kernel_filters r.1.2 = [F] /\
    seccomp_verdict F
      (mk_call (SCMP_SYS mmap2)
         [0; 4096; PROT_READ ||| PROT_WRITE;
          MAP_PRIVATE ||| MAP_ANONYMOUS; -1; 0]) = SCMP_ACT_ALLOW /\
    seccomp_verdict F
      (mk_call (SCMP_SYS mmap2)
         [0; 4096; PROT_READ ||| PROT_WRITE ||| PROT_EXEC;
          MAP_PRIVATE ||| MAP_ANONYMOUS; -1; 0]) = SCMP_ACT_ERRNO EPERM.
Proof.
  intros r. split; [by vm_compute|].
  destruct (installed_filter_on_mmap2 env_linux initial_world example_cfg)
    as (F & Hk & Hv); [by vm_compute|].
  exists F. split; [exact Hk|].
  pose proof (fun a l p f rest => proj1 (Hv a l p f rest)) as Hv'.
  rewrite !Hv'. split; by vm_compute.
Defined.

Lemma add_param_filter_rt_sigaction e cfg :
  emits (sel_call rt_sigaction) (map sigaction_rule (sigaction_signals e))
    (add_param_filter e cfg).
Proof.
  unfold sigaction_signals. rewrite map_app.
  replace (map sigaction_rule
             (if defined e HAVE_SIGXFSZ then [SIGXFSZ] else []))
    with (if defined e HAVE_SIGXFSZ then [sigaction_rule SIGXFSZ] else [])
    by (by destruct (defined e HAVE_SIGXFSZ)).
  param_rules sel_call_unfold.
Qed.

Lemma add_noparam_filter_rt_sigaction e :
  emits (sel_call rt_sigaction) [] (add_noparam_filter e).
Proof. noparam_rules sel_call_unfold. Qed.

Lemma add_param_filter_rt_sigprocmask e cfg :
  emits (sel_call rt_sigprocmask)
    [mk_rule SCMP_ACT_ALLOW (SCMP_SYS rt_sigprocmask)
       [SCMP_CMP 0 SCMP_CMP_EQ SIG_UNBLOCK];
     mk_rule SCMP_ACT_ALLOW (SCMP_SYS rt_sigprocmask)
       [SCMP_CMP 0 SCMP_CMP_EQ SIG_SETMASK]]
    (add_param_filter e cfg).
Proof. param_rules sel_call_unfold. Qed.

Lemma add_noparam_filter_rt_sigprocmask e :
  emits (sel_call rt_sigprocmask) [] (add_noparam_filter e).
Proof. noparam_rules sel_call_unfold. Qed.

(** X16: the verdict of a loaded filter on the two signal syscalls.
    rt_sigaction is allowed for the signals of [sb_rt_sigaction], SIGXFSZ
    among them where the platform has it, and for no other signal;
    rt_sigprocmask is allowed with SIG_UNBLOCK and with SIG_SETMASK, and
    not with SIG_BLOCK or any other value. *)
Theorem installed_filter_on_signals e w cfg :
  (install_syscall_filter e w cfg).1.1 = 0 ->
  let r := install_syscall_filter e w cfg in
  exists F,
    kernel_filters r.1.2 = kernel_filters w ++ [F] /\
    (forall sig rest,
       seccomp_verdict F (mk_call (SCMP_SYS rt_sigaction) (sig :: rest))
       = if existsb (Z.eqb sig) (sigaction_signals e)
         then SCMP_ACT_ALLOW else SCMP_ACT_ERRNO EPERM) /\
    (forall how rest,
       seccomp_verdict F (mk_call (SCMP_SYS rt_sigprocmask) (how :: rest))
       = if (how =? SIG_UNBLOCK) || (how =? SIG_SETMASK)
         then SCMP_ACT_ALLOW else SCMP_ACT_ERRNO EPERM).
Proof.
  intros Hrc r.
  destruct (install_syscall_filter_rules e w cfg (sel_call rt_sigaction) _ _
              (add_param_filter_rt_sigaction e)
              (add_noparam_filter_rt_sigaction e) Hrc)
    as (b & F & _ & Hk & Hdef & Hrules).
  destruct (install_syscall_filter_rules e w cfg (sel_call rt_sigprocmask)
              _ _ (add_param_filter_rt_sigprocmask e)
              (add_noparam_filter_rt_sigprocmask e) Hrc)
    as (b' & F' & _ & Hk' & _ & Hrules').
  assert (F' = F) as ->.
  { rewrite Hk in Hk'. by apply app_inj_tail in Hk' as [_ ->]. }
  exists F. split; [exact Hk|]. split.
  - intros sig rest.
    rewrite (seccomp_verdict_sel_call e w cfg rt_sigaction F Hrc Hk) by done.
    cbv zeta.
    rewrite Hrules, Hdef. unfold sigaction_signals, sigaction_rule.
    destruct (defined e HAVE_SIGXFSZ); cbn [map app]; eval_rules;
      apply if_verdict_eq; cbn [existsb]; eqb_consts; btauto.
  - intros how rest.
    rewrite (seccomp_verdict_sel_call e w cfg rt_sigprocmask F Hrc Hk) by done.
    cbv zeta.
    rewrite Hrules', Hdef. eval_rules.
    apply if_verdict_eq. eqb_consts. btauto.
Qed.

Lemma installed_filter_on_signals_witness :
  let r := install_syscall_filter env_linux initial_world example_cfg in
  r.1.1 = 0 /\
  exists F,
    kernel_filters r.1.2 = [F] /\
    seccomp_verdict F (mk_call (SCMP_SYS rt_sigaction) [SIGTERM; 4096; 0])
    = SCMP_ACT_ALLOW /\
    seccomp_verdict F (mk_call (SCMP_SYS rt_sigaction) [14; 4096; 0])
    = SCMP_ACT_ERRNO EPERM /\
    seccomp_verdict F (mk_call (SCMP_SYS rt_sigprocmask) [0; 4096; 0])
    = SCMP_ACT_ERRNO EPERM.
Proof.
  intros r. split; [by vm_compute|].
  destruct (installed_filter_on_signals env_linux initial_world example_cfg)
    as (F & Hk & Hsa & Hsp); [by vm_compute|].
  exists F. split; [exact Hk|]. rewrite !Hsa, Hsp. repeat split; by vm_compute.
Defined.

Lemma filter_filter_idem {A} (f : A -> bool) l :
  List.filter f (List.filter f l) = List.filter f l.
Proof.
  induction l as [|x l IH]; simpl; [done|].
  destruct (f x) eqn:E; simpl; [|done]. by rewrite E, IH.
Qed.

(** The verdict of a loaded filter on a syscall for which the arena has
    no rule: it is the verdict of the rules that the two tables hold for
    the syscall. *)
Lemma installed_verdict e w cfg n P N F :
  (forall cfg, emits (sel_call n) (P cfg) (add_param_filter e cfg)) ->
  emits (sel_call n) N (add_noparam_filter e) ->
  (install_syscall_filter e w cfg).1.1 = 0 ->
  let r := install_syscall_filter e w cfg in
  kernel_filters r.1.2 = kernel_filters w ++ [F] ->
  List.filter (sel_call n) (prot_rules 0 0) = [] ->
  forall c, call_nr c = SCMP_SYS n ->
    seccomp_verdict F c
    = union_verdict (mk_ctx (SCMP_ACT_ERRNO EPERM) (P r.2 ++ N)) c.
Proof.
  intros HP HN Hrc r Hk Hprot c Hc.
  assert (Hn1 : n <> mremap) by (by intros ->).
  assert (Hn2 : n <> munmap) by (by intros ->).
  rewrite (seccomp_verdict_sel_call e w cfg n F Hrc Hk) by done.
  destruct (install_syscall_filter_parts e w cfg (sel_call n) (sel_call n)
              P N HP HN Hrc)
    as (b & F' & rsP & rsN & _ & Hw & Hdef & Hrules & HrsP & HrsN).
  fold r in Hw, HrsP. rewrite Hw in Hk. cbn [kernel_filters] in Hk.
  apply app_inj_tail in Hk as [_ ->].
  unfold union_verdict. rewrite !(some_rule_sel_call n) by done. cbv zeta.
  cbn [ctx_rules ctx_default]. rewrite Hdef, Hrules.
  assert (Hnone : List.filter (sel_call n)
                    (prot_rules (Z.of_N b) (prot_strings_size 0 cfg)) = []).
  { revert Hprot. unfold prot_rules.
    cbn [List.filter sel_call rule_call].
    by repeat destruct (Pos.eqb _ _). }
  rewrite <- HrsP, <- HrsN, !List.filter_app, !filter_filter_idem, Hnone.
  done.
Qed.

Lemma add_param_filter_epoll_ctl e cfg :
  emits (sel_call epoll_ctl)
    [mk_rule SCMP_ACT_ALLOW (SCMP_SYS epoll_ctl)
       [SCMP_CMP 1 SCMP_CMP_EQ EPOLL_CTL_ADD];
     mk_rule SCMP_ACT_ALLOW (SCMP_SYS epoll_ctl)
       [SCMP_CMP 1 SCMP_CMP_EQ EPOLL_CTL_MOD];
     mk_rule SCMP_ACT_ALLOW (SCMP_SYS epoll_ctl)
       [SCMP_CMP 1 SCMP_CMP_EQ EPOLL_CTL_DEL]]
    (add_param_filter e cfg).
Proof. param_rules sel_call_unfold. Qed.

Lemma add_noparam_filter_epoll_ctl e :
  emits (sel_call epoll_ctl) [] (add_noparam_filter e).
Proof. noparam_rules sel_call_unfold. Qed.

Lemma add_param_filter_flock e cfg :
  emits (sel_call flock)
    [mk_rule SCMP_ACT_ALLOW (SCMP_SYS flock)
       [SCMP_CMP 1 SCMP_CMP_EQ (LOCK_EX ||| LOCK_NB)];
     mk_rule SCMP_ACT_ALLOW (SCMP_SYS flock)
       [SCMP_CMP 1 SCMP_CMP_EQ LOCK_UN]]
    (add_param_filter e cfg).
Proof. param_rules sel_call_unfold. Qed.

Lemma add_noparam_filter_flock e :
  emits (sel_call flock) [] (add_noparam_filter e).
Proof. noparam_rules sel_call_unfold. Qed.

Lemma add_param_filter_fcntl64 e cfg :
  emits (sel_call fcntl64)
    (if defined e NR_fcntl64
     then [mk_rule SCMP_ACT_ALLOW (SCMP_SYS fcntl64)
             [SCMP_CMP 1 SCMP_CMP_EQ F_GETFL];
           mk_rule SCMP_ACT_ALLOW (SCMP_SYS fcntl64)
             [SCMP_CMP 1 SCMP_CMP_EQ F_SETFL;
              SCMP_CMP 2 SCMP_CMP_EQ (O_RDWR ||| O_NONBLOCK)];
           mk_rule SCMP_ACT_ALLOW (SCMP_SYS fcntl64)
             [SCMP_CMP 1 SCMP_CMP_EQ F_GETFD];
           mk_rule SCMP_ACT_ALLOW (SCMP_SYS fcntl64)
             [SCMP_CMP 1 SCMP_CMP_EQ F_SETFD;
              SCMP_CMP 2 SCMP_CMP_EQ FD_CLOEXEC]]
     else [])
    (add_param_filter e cfg).
Proof. param_rules sel_call_unfold. Qed.

Lemma add_noparam_filter_fcntl64 e :
  emits (sel_call fcntl64) [] (add_noparam_filter e).
Proof. noparam_rules sel_call_unfold. Qed.

Lemma add_param_filter_time e cfg :
  emits (sel_call time)
    (if defined e NR_time
     then [mk_rule SCMP_ACT_ALLOW (SCMP_SYS time) [SCMP_CMP 0 SCMP_CMP_EQ 0]]
     else [])
    (add_param_filter e cfg).
Proof. param_rules sel_call_unfold. Qed.

Lemma add_noparam_filter_time e :
  emits (sel_call time) [] (add_noparam_filter e).
Proof. noparam_rules sel_call_unfold. Qed.

Lemma add_param_filter_ioctl e cfg :
  emits (sel_call ioctl)
    (if defined e HAVE_KIST_SUPPORT
     then [mk_rule SCMP_ACT_ALLOW (SCMP_SYS ioctl)
             [SCMP_CMP 1 SCMP_CMP_EQ SIOCOUTQNSD]]
     else [])
    (add_param_filter e cfg).
Proof. param_rules sel_call_unfold. Qed.

Lemma add_noparam_filter_ioctl e :
  emits (sel_call ioctl) [] (add_noparam_filter e).
Proof. noparam_rules sel_call_unfold. Qed.

(** X17: the verdict of a loaded filter on the syscalls that act on a
    descriptor and on time.  epoll_ctl is allowed to add, to modify and
    to delete; flock to take an exclusive lock without blocking and to
    unlock, so neither a blocking nor a shared lock; fcntl64, where the
    build has it, to read the flags, to set them to O_RDWR|O_NONBLOCK,
    to read the descriptor flags and to set them to FD_CLOEXEC; ioctl,
    on a build with KIST, with the request SIOCOUTQNSD; time, where the
    build has it, with a NULL argument.  Every other request of these
    syscalls gets EPERM. *)
Theorem installed_filter_on_descriptors e w cfg :
  (install_syscall_filter e w cfg).1.1 = 0 ->
  let r := install_syscall_filter e w cfg in
  let verdict (b : bool) :=
    if b then SCMP_ACT_ALLOW else SCMP_ACT_ERRNO EPERM in
  exists F,
    kernel_filters r.1.2 = kernel_filters w ++ [F] /\
    (forall epfd op rest,
       seccomp_verdict F (mk_call (SCMP_SYS epoll_ctl) (epfd :: op :: rest))
       = verdict ((op =? EPOLL_CTL_ADD) || (op =? EPOLL_CTL_MOD)
                  || (op =? EPOLL_CTL_DEL))) /\
    (forall fd op rest,
       seccomp_verdict F (mk_call (SCMP_SYS flock) (fd :: op :: rest))
       = verdict ((op =? LOCK_EX ||| LOCK_NB) || (op =? LOCK_UN))) /\
    (forall fd cmd arg rest,
       seccomp_verdict F
         (mk_call (SCMP_SYS fcntl64) (fd :: cmd :: arg :: rest))
       = verdict (defined e NR_fcntl64
                  && ((cmd =? F_GETFL)
                      || ((cmd =? F_SETFL) && (arg =? O_RDWR ||| O_NONBLOCK))
                      || (cmd =? F_GETFD)
                      || ((cmd =? F_SETFD) && (arg =? FD_CLOEXEC))))) /\
    (forall fd request rest,
       seccomp_verdict F (mk_call (SCMP_SYS ioctl) (fd :: request :: rest))
       = verdict (defined e HAVE_KIST_SUPPORT && (request =? SIOCOUTQNSD))) /\
    (forall tloc rest,
       seccomp_verdict F (mk_call (SCMP_SYS time) (tloc :: rest))
       = verdict (defined e NR_time && (tloc =? 0))).
Proof.
  intros Hrc r verdict.
  destruct (install_success e w cfg Hrc) as (_ & F & Hk & _).
  fold r in Hk. exists F. split; [exact Hk|].
  pose proof (fun n P N HP HN =>
                installed_verdict e w cfg n P N F HP HN Hrc Hk) as Hv.
  unfold verdict. repeat split.
  - intros epfd op rest.
    rewrite (Hv epoll_ctl _ _ (add_param_filter_epoll_ctl e)
               (add_noparam_filter_epoll_ctl e) eq_refl) by done.
    eval_rules. apply if_verdict_eq. eqb_consts. btauto.
  - intros fd op rest.
    rewrite (Hv flock _ _ (add_param_filter_flock e)
               (add_noparam_filter_flock e) eq_refl) by done.
    eval_rules. apply if_verdict_eq. eqb_consts. btauto.
  - intros fd cmd arg rest.
    rewrite (Hv fcntl64 _ _ (add_param_filter_fcntl64 e)
               (add_noparam_filter_fcntl64 e) eq_refl) by done.
    destruct (defined e NR_fcntl64); eval_rules; [|done].
    apply if_verdict_eq. eqb_consts. btauto.
  - intros fd request rest.
    rewrite (Hv ioctl _ _ (add_param_filter_ioctl e)
               (add_noparam_filter_ioctl e) eq_refl) by done.
    destruct (defined e HAVE_KIST_SUPPORT); eval_rules; [|done].
    apply if_verdict_eq. eqb_consts. btauto.
  - intros tloc rest.
    rewrite (Hv time _ _ (add_param_filter_time e)
               (add_noparam_filter_time e) eq_refl) by done.
    destruct (defined e NR_time); eval_rules; [|done].
    apply if_verdict_eq. eqb_consts. btauto.
Qed.

Lemma installed_filter_on_descriptors_witness :
  let r := install_syscall_filter env_linux initial_world example_cfg in
  r.1.1 = 0 /\
  exists F,
    kernel_filters r.1.2 = [F] /\
    seccomp_verdict F (mk_call (SCMP_SYS flock) [3; LOCK_EX ||| LOCK_NB])
    = SCMP_ACT_ALLOW /\
    seccomp_verdict F (mk_call (SCMP_SYS flock) [3; LOCK_EX])
    = SCMP_ACT_ERRNO EPERM.
Proof.
  intros r. split; [by vm_compute|].
  destruct (installed_filter_on_descriptors env_linux initial_world
              example_cfg) as (F & Hk & _ & Hv & _); [by vm_compute|].
  exists F. split; [exact Hk|]. rewrite !Hv. split; by vm_compute.
Defined.

Lemma add_param_filter_setsockopt e cfg :
  emits (sel_call setsockopt)
    (i386_rule e setsockopt
     ++ [sockopt_rule setsockopt SOL_SOCKET SO_REUSEADDR;
         sockopt_rule setsockopt SOL_SOCKET SO_SNDBUF;
         sockopt_rule setsockopt SOL_SOCKET SO_RCVBUF]
     ++ (if defined e HAVE_SYSTEMD
         then [sockopt_rule setsockopt SOL_SOCKET SO_SNDBUFFORCE] else [])
     ++ (if defined e HAVE_IP_TRANSPARENT
         then [sockopt_rule setsockopt SOL_IP IP_TRANSPARENT] else [])
     ++ (if defined e HAVE_IPV6_V6ONLY
         then [sockopt_rule setsockopt IPPROTO_IPV6 IPV6_V6ONLY] else []))
    (add_param_filter e cfg).
Proof. param_rules sel_call_unfold. Qed.

Lemma add_noparam_filter_setsockopt e :
  emits (sel_call setsockopt) [] (add_noparam_filter e).
Proof. noparam_rules sel_call_unfold. Qed.

Lemma add_param_filter_getsockopt e cfg :
  emits (sel_call getsockopt)
    (i386_rule e getsockopt
     ++ [sockopt_rule getsockopt SOL_SOCKET SO_ERROR;
         sockopt_rule getsockopt SOL_SOCKET SO_ACCEPTCONN]
     ++ (if defined e HAVE_SYSTEMD
         then [sockopt_rule getsockopt SOL_SOCKET SO_SNDBUF] else [])
     ++ (if defined e HAVE_LINUX_NETFILTER_IPV4_H
         then [sockopt_rule getsockopt SOL_IP SO_ORIGINAL_DST] else [])
     ++ (if defined e HAVE_LINUX_NETFILTER_IPV6_IP6_TABLES_H
         then [sockopt_rule getsockopt SOL_IPV6 IP6T_SO_ORIGINAL_DST]
         else [])
     ++ (if defined e HAVE_KIST_SUPPORT
         then [sockopt_rule getsockopt SOL_TCP TCP_INFO] else []))
    (add_param_filter e cfg).
Proof. param_rules sel_call_unfold. Qed.

Lemma add_noparam_filter_getsockopt e :
  emits (sel_call getsockopt) [] (add_noparam_filter e).
Proof. noparam_rules sel_call_unfold. Qed.

Lemma add_param_filter_socketpair e cfg :
  emits (sel_call socketpair)
    (i386_rule e socketpair
     ++ [mk_rule SCMP_ACT_ALLOW (SCMP_SYS socketpair)
           [SCMP_CMP 0 SCMP_CMP_EQ PF_FILE;
            SCMP_CMP 1 SCMP_CMP_EQ (SOCK_STREAM ||| SOCK_CLOEXEC)]])
    (add_param_filter e cfg).
Proof. param_rules sel_call_unfold. Qed.

Lemma add_noparam_filter_socketpair e :
  emits (sel_call socketpair) [] (add_noparam_filter e).
Proof. noparam_rules sel_call_unfold. Qed.

Lemma add_param_filter_accept4 e cfg :
  emits (sel_call accept4)
    [mk_rule SCMP_ACT_ALLOW (SCMP_SYS accept4)
       [SCMP_CMP_MASKED 3 (SOCK_CLOEXEC ||| SOCK_NONBLOCK) 0]]
    (add_param_filter e cfg).
Proof. param_rules sel_call_unfold. Qed.

Lemma add_noparam_filter_accept4 e :
  emits (sel_call accept4) [] (add_noparam_filter e).
Proof. noparam_rules sel_call_unfold. Qed.

(** X18: the verdict of a loaded filter on the socket options and on
    the two other socket syscalls with an installer.  A build for i386
    allows every setsockopt, getsockopt and socketpair.  Any other build
    allows setsockopt and getsockopt for the pairs of level and option
    that [setsockopt_allowed] and [getsockopt_allowed] list, which depend
    on what the build was configured with, and socketpair for a local
    stream socket with SOCK_CLOEXEC.  On every build accept4 is allowed
    when its flags hold nothing but SOCK_CLOEXEC and SOCK_NONBLOCK.
    Every other request gets EPERM. *)
Theorem installed_filter_on_socket_options e w cfg :
  (install_syscall_filter e w cfg).1.1 = 0 ->
  let r := install_syscall_filter e w cfg in
  let verdict (b : bool) :=
    if b then SCMP_ACT_ALLOW else SCMP_ACT_ERRNO EPERM in
  exists F,
    kernel_filters r.1.2 = kernel_filters w ++ [F] /\
    (forall fd level optname rest,
       seccomp_verdict F
         (mk_call (SCMP_SYS setsockopt) (fd :: level :: optname :: rest))
       = verdict (defined e i386 || setsockopt_allowed e level optname)) /\
    (forall fd level optname rest,
       seccomp_verdict F
         (mk_call (SCMP_SYS getsockopt) (fd :: level :: optname :: rest))
       = verdict (defined e i386 || getsockopt_allowed e level optname)) /\
    (forall domain type rest,
       seccomp_verdict F
         (mk_call (SCMP_SYS socketpair) (domain :: type :: rest))
       = verdict (defined e i386
                  || ((domain =? PF_FILE)
                      && (type =? SOCK_STREAM ||| SOCK_CLOEXEC)))) /\
    (forall fd addr len flags rest,
       seccomp_verdict F
         (mk_call (SCMP_SYS accept4) (fd :: addr :: len :: flags :: rest))
       = verdict (without_flags (SOCK_CLOEXEC ||| SOCK_NONBLOCK) flags
                  =? 0)).
Proof.
  intros Hrc r verdict.
  destruct (install_success e w cfg Hrc) as (_ & F & Hk & _).
  fold r in Hk. exists F. split; [exact Hk|].
  pose proof (fun n P N HP HN =>
                installed_verdict e w cfg n P N F HP HN Hrc Hk) as Hv.
  unfold verdict. repeat split.
  - intros fd level optname rest.
    rewrite (Hv setsockopt _ _ (add_param_filter_setsockopt e)
               (add_noparam_filter_setsockopt e) eq_refl) by done.
    unfold setsockopt_allowed, i386_rule, sockopt_rule.
    destruct (defined e i386), (defined e HAVE_SYSTEMD),
      (defined e HAVE_IP_TRANSPARENT), (defined e HAVE_IPV6_V6ONLY);
      eval_rules; try reflexivity; apply if_verdict_eq; eqb_consts; btauto.
  - intros fd level optname rest.
    rewrite (Hv getsockopt _ _ (add_param_filter_getsockopt e)
               (add_noparam_filter_getsockopt e) eq_refl) by done.
    unfold getsockopt_allowed, i386_rule, sockopt_rule.
    destruct (defined e i386), (defined e HAVE_SYSTEMD),
      (defined e HAVE_LINUX_NETFILTER_IPV4_H),
      (defined e HAVE_LINUX_NETFILTER_IPV6_IP6_TABLES_H),
      (defined e HAVE_KIST_SUPPORT);
      eval_rules; try reflexivity; apply if_verdict_eq; eqb_consts; btauto.
  - intros domain type rest.
    rewrite (Hv socketpair _ _ (add_param_filter_socketpair e)
               (add_noparam_filter_socketpair e) eq_refl) by done.
    unfold i386_rule.
    destruct (defined e i386); eval_rules; try reflexivity;
      apply if_verdict_eq; eqb_consts; btauto.
  - intros fd addr len flags rest.
    rewrite (Hv accept4 _ _ (add_param_filter_accept4 e)
               (add_noparam_filter_accept4 e) eq_refl) by done.
    unfold without_flags. eval_rules. apply if_verdict_eq. btauto.
Qed.

Lemma installed_filter_on_socket_options_witness :
  let r := install_syscall_filter env_x86_64 initial_world example_cfg in
  r.1.1 = 0 /\
  exists F,
    kernel_filters r.1.2 = [F] /\
    seccomp_verdict F
      (mk_call (SCMP_SYS setsockopt) [3; SOL_SOCKET; SO_REUSEADDR; 4096; 4])
    = SCMP_ACT_ALLOW /\
    seccomp_verdict F
      (mk_call (SCMP_SYS setsockopt) [3; SOL_SOCKET; 9; 4096; 4])
    = SCMP_ACT_ERRNO EPERM.
Proof.
  intros r. split; [by vm_compute|].
  destruct (installed_filter_on_socket_options env_x86_64 initial_world
              example_cfg) as (F & Hk & Hv & _); [by vm_compute|].
  exists F. split; [exact Hk|]. rewrite !Hv. split; by vm_compute.
Defined.

(** * The life cycle of the sandbox *)







(** * The string arena *)

Lemma prot_strings_helper_origin st v x :
  In x (pr_mem (prot_strings_helper st (Some v)).1.2) ->
  In x (pr_mem st) \/ x.2 = c_str v.
Proof.
  unfold prot_strings_helper.
  destruct (negb _); [by left|].
  destruct (_ >=? _); [|by left].
  cbn [fst snd pr_mem]. rewrite in_app_iff.
  intros [H|[<-|[]]]; [by left|by right].
Qed.

Lemma prot_strings_copy_origin cfg :
  forall st x,
  In x (pr_mem (prot_strings_copy st cfg).1.2) ->
  In x (pr_mem st) \/ In x.2 (cfg_contents cfg).
Proof.
  induction cfg as [|el cfg IH]; intros st x; [by left|].
  unfold cfg_contents, cfg_strings. cbn [flat_map]. rewrite map_app.
  fold (cfg_strings cfg). fold (cfg_contents cfg).
  cbn [prot_strings_copy].
  pose proof (prot_strings_helper_origin st (value el) x) as H1.
  destruct (prot_strings_helper st (Some (value el))) as [[rc1 st1] v1].
  cbn [fst snd] in H1.
  assert (Hfirst : In x (pr_mem st1) ->
            In x (pr_mem st) \/
            In x.2 (map c_str (param_strings el) ++ cfg_contents cfg)).
  { intros H. destruct (H1 H) as [?|E]; [by left|].
    right. apply in_app_iff. left. unfold param_strings. simpl. by left. }
  destruct (rc1 <? 0); [exact Hfirst|].
  cbn [value2 set_value].
  assert (H2 : In x (pr_mem (prot_strings_helper st1 (value2 el)).1.2) ->
               In x (pr_mem st1) \/
               In x.2 (map c_str (param_strings el))).
  { unfold param_strings. destruct (value2 el) as [v2|]; [|by left].
    intros H. destruct (prot_strings_helper_origin st1 v2 x H) as [?|E];
      [by left|].
    right. simpl. right. by left. }
  destruct (prot_strings_helper st1 (value2 el)) as [[rc2 st2] v2'].
  cbn [fst snd] in H2.
  assert (Hsecond : In x (pr_mem st2) ->
            In x (pr_mem st) \/
            In x.2 (map c_str (param_strings el) ++ cfg_contents cfg)).
  { intros H. destruct (H2 H) as [?|?]; [by apply Hfirst|].
    right. apply in_app_iff. by left. }
  destruct (rc2 <? 0); [exact Hsecond|].
  specialize (IH st2 x).
  destruct (prot_strings_copy st2 cfg) as [[ret st3] next].
  cbn [fst snd] in *. intros H.
  destruct (IH H) as [?|?]; [by apply Hsecond|].
  right. apply in_app_iff. by right.
Qed.

Lemma packed_next a m z :
  packed a m z -> z = a + strings_bytes (map snd m).
Proof.
  revert a. induction m as [|[x s] m IH]; intros a; simpl; [lia|].
  intros [-> H]. apply IH in H. lia.
Qed.

Lemma protected_copy_contents cfg cfg' :
  Forall2 protected_copy cfg cfg' -> cfg_contents cfg' = cfg_contents cfg.
Proof.
  unfold cfg_contents, cfg_strings.
  induction 1 as [|p p' cfg cfg' (_ & _ & Hv & Hv2) _ IH]; [done|].
  cbn [flat_map]. rewrite !map_app, IH. f_equal.
  unfold param_strings. simpl. rewrite Hv.
  destruct (value2 p), (value2 p'); try done. simpl. by rewrite Hv2.
Qed.

Lemma strings_bytes_app l1 l2 :
  strings_bytes (l1 ++ l2) = strings_bytes l1 + strings_bytes l2.
Proof. induction l1 as [|s l1 IH]; simpl; lia. Qed.

Lemma param_bytes_contents el :
  0 <= param_bytes el /\
  (param_bytes el < 2 ^ 64 ->
   strings_bytes (map c_str (param_strings el)) = param_bytes el /\
   Forall (fun s => 0 < string_size s) (map c_str (param_strings el))).
Proof.
  unfold param_bytes, param_strings.
  pose proof (strlen_nonneg (value el)).
  destruct (value2 el) as [v2|]; cbn [map];
    [pose proof (strlen_nonneg v2)|];
    unfold strings_bytes; cbn [fold_right];
    (split; [lia|]); intros Hs;
    rewrite !string_size_small by lia; (split; [lia|]);
    repeat (constructor; [rewrite string_size_small by lia; lia|]);
    constructor.
Qed.

Lemma cfg_bytes_contents cfg :
  cfg_bytes cfg < 2 ^ 64 ->
  cfg_bytes cfg = strings_bytes (cfg_contents cfg) /\
  Forall (fun s => 0 < string_size s) (cfg_contents cfg).
Proof.
  unfold cfg_contents, cfg_strings.
  induction cfg as [|el cfg IH]; intros Hsmall; [by split; [|constructor]|].
  change (cfg_bytes (el :: cfg)) with (param_bytes el + cfg_bytes cfg) in *.
  cbn [flat_map]. rewrite map_app, strings_bytes_app, Forall_app.
  pose proof (cfg_bytes_nonneg cfg).
  destruct (param_bytes_contents el) as [Hnn Hel].
  destruct Hel as [Hb Hp]; [lia|]. destruct IH as [IHb IHp]; [lia|].
  split; [lia|]. by split.
Qed.

Lemma strings_bytes_perm l l' :
  l ≡ₚ l' -> strings_bytes l = strings_bytes l'.
Proof. induction 1; simpl; lia. Qed.

Lemma strings_bytes_remove_dups l :
  Forall (fun s => 0 < string_size s) l ->
  strings_bytes (remove_dups l) <= strings_bytes l /\
  (strings_bytes (remove_dups l) = strings_bytes l <-> NoDup l).
Proof.
  induction 1 as [|s l Hs Hl [IHle IHeq]]; simpl.
  { split; [lia|]. split; [intros _; constructor|done]. }
  destruct (decide_rel elem_of s l) as [Hin|Hin]; simpl.
  - split; [lia|]. split; [lia|].
    intros Hnd. apply NoDup_cons in Hnd as [Hnd _]. done.
  - split; [lia|]. rewrite NoDup_cons. split.
    + intros E. split; [done|]. apply IHeq. lia.
    + intros [_ Hnd]. apply IHeq in Hnd. lia.
Qed.

(** X11: the room the copy loop of [prot_strings] uses.  When the
    strings fit in the address space and the loop returns 0, the arena
    holds each distinct string of the list exactly once, the copies fill
    it from its start without a gap, and what is left at the end is the
    size computed by the first loop less the bytes of the distinct
    strings: the first loop counts every occurrence, so the arena is
    filled to the last byte exactly when no string occurs twice. *)
Theorem prot_strings_copy_accounting (b : N) cfg st cfg' :
  let pr_mem_size := prot_strings_size 0 cfg in
  let start := Z.of_N b + MALLOC_MP_LIM in
  cfg_bytes cfg < 2 ^ 64 ->
  prot_strings_copy (prot_strings_start (Z.of_N b) pr_mem_size) cfg
    = (0, st, cfg') ->
  map snd (pr_mem st) ≡ₚ remove_dups (cfg_contents cfg) /\
  pr_mem_next st = start + strings_bytes (map snd (pr_mem st)) /\
  pr_mem_left st
  = strings_bytes (cfg_contents cfg) - strings_bytes (map snd (pr_mem st)) /\
  0 <= pr_mem_left st /\
  (pr_mem_left st = 0 <-> NoDup (cfg_contents cfg)).
Proof.
  intros pr_mem_size start Hsmall Hcopy.
  destruct (cfg_bytes_contents cfg Hsmall) as [Hbytes Hpos].
  assert (Hsize : pr_mem_size = cfg_bytes cfg).
  { unfold pr_mem_size. rewrite prot_strings_size_exact; lia. }
  assert (Hstart : 0 < start) by (unfold start, MALLOC_MP_LIM; lia).
  pose proof (cfg_bytes_nonneg cfg) as Hnn.
  destruct (prot_strings_copy_inv start (start + pr_mem_size) cfg _ _ _
              (arena_inv_start start pr_mem_size Hstart ltac:(lia)) Hcopy)
    as ((_ & Hpacked & Hleft & Hend & Hnd & _) & _ & Hall & Hstrs).
  assert (Hperm : map snd (pr_mem st) ≡ₚ remove_dups (cfg_contents cfg)).
  { apply NoDup_Permutation; [done|apply NoDup_remove_dups|].
    intros s. rewrite elem_of_remove_dups, !list_elem_of_In. split.
    - intros Hs. apply in_map_iff in Hs as (x & <- & Hx).
      pose proof (prot_strings_copy_origin cfg
                    (prot_strings_start (Z.of_N b) pr_mem_size) x) as Ho.
      rewrite Hcopy in Ho. destruct (Ho Hx) as [[]|H]. exact H.
    - rewrite <- (protected_copy_contents _ _ Hall). unfold cfg_contents.
      intros Hs. apply in_map_iff in Hs as (u & <- & Hu).
      apply in_map_iff. exists (c_addr u, c_str u). split; [done|auto]. }
  apply packed_next in Hpacked.
  pose proof (strings_bytes_perm _ _ Hperm) as Hsum.
  destruct (strings_bytes_remove_dups _ Hpos) as [Hle Heq].
  split; [exact Hperm|]. split; [exact Hpacked|].
  split; [lia|]. split; [lia|].
  rewrite <- Heq. lia.
Qed.

Lemma prot_strings_copy_accounting_witness :
  let r := prot_strings_copy
             (prot_strings_start 139637976727552
                (prot_strings_size 0 example_cfg)) example_cfg in
  cfg_bytes example_cfg < 2 ^ 64 /\
  r.1.1 = 0 /\
  strings_bytes (cfg_contents example_cfg) = 52 /\
  pr_mem_left r.1.2 = 19 /\
  ~ NoDup (cfg_contents example_cfg).
Proof.
  intros r. split; [by vm_compute|]. split; [by vm_compute|].
  split; [by vm_compute|].
  destruct (prot_strings_copy_accounting 139637976727552%N example_cfg
              r.1.2 r.2)
    as (_ & _ & Hleft & _ & Hnd); [by vm_compute|by vm_compute|].
  assert (H19 : pr_mem_left r.1.2 = 19) by (by vm_compute).
  split; [exact H19|]. intros H. apply Hnd in H. rewrite H19 in H. done.
Defined.

(** X10: how [prot_strings] fails, and what a failure leaves in the
    caller's list.  When the arena cannot be mapped the status is -1 and
    nothing has changed.  When it was mapped and filled but cannot be
    made read-only, the status is -3 and no rule has been added, yet the
    list has already been rewritten in place: every element is marked
    protected and its strings point into the arena.
    [install_syscall_filter] then returns the status with its sign
    changed, 1 or 3, loads nothing, and hands that list back. *)
Theorem prot_strings_failure_modes e w cfg ctx :
  let pr_mem_size := prot_strings_size 0 cfg in
  let len := to_size_t (MALLOC_MP_LIM + pr_mem_size) in
  (os_mmap e len = None ->
   prot_strings e cfg ctx = (-1, ctx, cfg) /\
   (os_seccomp_init e = true ->
    install_syscall_filter e w cfg = (1, w, cfg))) /\
  (forall b,
     os_mmap e len = Some b ->
     cfg_bytes cfg < 2 ^ 64 ->
     to_int (os_mprotect e (Z.of_N b) len PROT_READ) <> 0 ->
     exists cfg',
       prot_strings e cfg ctx = (-3, ctx, cfg') /\
       Forall2 protected_copy cfg cfg' /\
       (forall u, In u (cfg_strings cfg') ->
          Z.of_N b + MALLOC_MP_LIM <= c_addr u /\
          c_addr u + string_size (c_str u)
          <= Z.of_N b + MALLOC_MP_LIM + pr_mem_size) /\
       (os_seccomp_init e = true ->
        install_syscall_filter e w cfg = (3, w, cfg'))).
Proof.
  intros pr_mem_size len. split.
  - intros Hmap.
    assert (Hp : forall ctx, prot_strings e cfg ctx = (-1, ctx, cfg)).
    { intros ctx0. unfold prot_strings. fold pr_mem_size. fold len.
      by rewrite Hmap. }
    split; [apply Hp|]. intros Hinit.
    unfold install_syscall_filter. by rewrite Hinit, Hp.
  - intros b Hmap Hsmall Hprot.
    assert (Hrc : (prot_strings_copy
                     (prot_strings_start (Z.of_N b) pr_mem_size) cfg).1.1
                  = 0).
    { apply prot_strings_copy_space; [done|]. simpl. unfold pr_mem_size.
      rewrite prot_strings_size_exact; lia. }
    destruct (prot_strings_copy _ cfg) as [[rc st] cfg'] eqn:Hcopy.
    cbn [fst snd] in Hrc. subst rc.
    destruct (prot_strings_copy_interns b cfg st cfg' Hcopy)
      as (Hall & _ & Hbounds & _).
    assert (Hp : forall ctx, prot_strings e cfg ctx = (-3, ctx, cfg')).
    { intros ctx0. unfold prot_strings. fold pr_mem_size. fold len.
      rewrite Hmap, Hcopy. cbn [negb Z.eqb].
      by rewrite (proj2 (Z.eqb_neq _ _) Hprot). }
    exists cfg'. split; [apply Hp|]. split; [exact Hall|]. split.
    + intros u Hu. by destruct (Hbounds u Hu) as (_ & ? & ?).
    + intros Hinit. unfold install_syscall_filter. by rewrite Hinit, Hp.
Qed.

Lemma prot_strings_failure_modes_witness :
  let e := with_mprotect env_linux (-1) in
  let r := install_syscall_filter e initial_world example_cfg in
  cfg_bytes example_cfg < 2 ^ 64 /\
  r.1.1 = 3 /\ r.1.2 = initial_world /\
  Forall (fun p => prot p = 1) r.2.
Proof.
  intros e r.
  destruct (prot_strings_failure_modes e initial_world example_cfg
              (mk_ctx (SCMP_ACT_ERRNO EPERM) [])) as [_ H].
  destruct (H 139637976727552%N) as (cfg' & _ & Hall & _ & Hinst);
    [reflexivity|by vm_compute|by vm_compute|].
  split; [by vm_compute|]. subst r. rewrite Hinst by reflexivity.
  split; [reflexivity|]. split; [reflexivity|].
  apply Forall_forall. intros p' Hin. apply list_elem_of_In in Hin.
  by destruct (protected_copy_In_r _ _ _ Hall Hin) as (p & _ & _ & Hp & _).
Defined.

(** * The probes of the C library *)

Lemma is_libc_at_least_mono e major minor major' minor' :
  ver_le (major', minor') (major, minor) ->
  is_libc_at_least e major minor = true ->
  is_libc_at_least e major' minor' = true.
Proof.
  intros Hle. unfold is_libc_at_least.
  destruct (defined e CHECK_LIBC_VERSION); [|done].
  destruct (gnu_get_libc_version e) as [[M m]|]; [|done].
  unfold ver_le in Hle. simpl in Hle.
  destruct (Z.gtb_spec M major), (Z.gtb_spec M major'),
    (Z.eqb_spec M major), (Z.eqb_spec M major'),
    (Z.geb_spec m minor), (Z.geb_spec m minor');
    simpl; try done; lia.
Qed.

(** X12: [is_libc_at_least] is monotone: a library that is at least one
    version is at least every earlier one.  Hence a library that needs
    the cast of negative constants (2.27 or later) is one whose open and
    whose opendir go through openat, and a library older than 2.15 uses
    openat for neither. *)
Theorem is_libc_at_least_monotone e :
  (forall major minor major' minor',
     ver_le (major', minor') (major, minor) ->
     is_libc_at_least e major minor = true ->
     is_libc_at_least e major' minor' = true) /\
  (libc_negative_constant_needs_cast e = true ->
   libc_uses_openat_for_open e = true /\
   libc_uses_openat_for_opendir e = true) /\
  (is_libc_at_least e 2 15 = false ->
   libc_uses_openat_for_open e = false /\
   libc_uses_openat_for_opendir e = false /\
   libc_negative_constant_needs_cast e = false).
Proof.
  split; [apply is_libc_at_least_mono|].
  unfold libc_negative_constant_needs_cast, libc_uses_openat_for_open,
    libc_uses_openat_for_opendir.
  split.
  - intros H27. rewrite H27.
    split; [|done]. apply (is_libc_at_least_mono e 2 27); [|done].
    right. simpl. lia.
  - intros H15. rewrite H15, andb_false_l, orb_false_r.
    assert (H : forall minor, 15 <= minor ->
              is_libc_at_least e 2 minor = false).
    { intros minor Hm. apply not_true_is_false. intros H.
      apply (is_libc_at_least_mono e 2 minor 2 15) in H; [congruence|].
      right. simpl. lia. }
    rewrite !H by lia. done.
Qed.

(** X22: with a C library that needs the cast of negative constants
    (glibc 2.27 or later), open and opendir are both taken to go through
    openat, so a loaded filter holds no rule for open: every open gets
    EPERM, whatever was registered.  openat is then matched on the
    descriptor AT_FDCWD as an unsigned int, 2^32 - 100: an openat whose
    first argument is anything else, the sign-extended -100 included,
    gets EPERM. *)
Theorem open_is_denied_on_recent_libc e w cfg :
  (install_syscall_filter e w cfg).1.1 = 0 ->
  libc_negative_constant_needs_cast e = true ->
  let r := install_syscall_filter e w cfg in
  exists F,
    kernel_filters r.1.2 = kernel_filters w ++ [F] /\
    at_fdcwd e = 2 ^ 32 - 100 /\
    (forall args,
       seccomp_verdict F (mk_call (SCMP_SYS open) args)
       = SCMP_ACT_ERRNO EPERM) /\
    (forall dirfd rest,
       dirfd <> 2 ^ 32 - 100 ->
       seccomp_verdict F (mk_call (SCMP_SYS openat) (dirfd :: rest))
       = SCMP_ACT_ERRNO EPERM).
Proof.
  intros Hrc Hcast r.
  destruct (install_success e w cfg Hrc) as (_ & F & Hk & Hdef & Hrules).
  fold r in Hk, Hrules. exists F. split; [exact Hk|].
  pose proof (fun c => verdict_on_paths e r.2 F c Hrules Hdef) as Hverdict.
  assert (Hopen : libc_uses_openat_for_open e = true).
  { apply (is_libc_at_least_mono e 2 27); [|done]. right. simpl. lia. }
  assert (Hdir : libc_uses_openat_for_opendir e = true).
  { unfold libc_uses_openat_for_opendir.
    unfold libc_negative_constant_needs_cast in Hcast. by rewrite Hcast. }
  assert (Hat : at_fdcwd e = 2 ^ 32 - 100).
  { unfold at_fdcwd, SCMP_CMP_NEG. by rewrite Hcast. }
  split; [exact Hat|]. split.
  - intros args. rewrite Hverdict by done. unfold path_allowed.
    cbn [call_nr]. by rewrite Hopen, Hdir.
  - intros dirfd rest Hne. rewrite Hverdict by done. unfold path_allowed.
    cbn [call_nr]. unfold call_arg at 1. cbn [call_args nth].
    rewrite Hat. by rewrite (proj2 (Z.eqb_neq _ _) Hne).
Qed.

Lemma open_is_denied_on_recent_libc_witness :
  let r := install_syscall_filter env_linux initial_world example_cfg in
  r.1.1 = 0 /\
  libc_negative_constant_needs_cast env_linux = true /\
  exists F,
    kernel_filters r.1.2 = [F] /\
    seccomp_verdict F
      (mk_call (SCMP_SYS open) [139637976727552 + MALLOC_MP_LIM; 0])
    = SCMP_ACT_ERRNO EPERM /\
    seccomp_verdict F
      (mk_call (SCMP_SYS openat)
         [2 ^ 64 - 100; 139637976727552 + MALLOC_MP_LIM; 0])
    = SCMP_ACT_ERRNO EPERM.
Proof.
  intros r. split; [by vm_compute|]. split; [reflexivity|].
  destruct (open_is_denied_on_recent_libc env_linux initial_world
              example_cfg) as (F & Hk & _ & Hopen & Hat);
    [by vm_compute|reflexivity|].
  exists F. split; [exact Hk|]. split; [apply Hopen|].
  apply Hat. by vm_compute.
Defined.

(** * Looking up interned strings *)

(** X13: interning is idempotent, in every process state: what
    [sandbox_intern_string] returns is its own interned form.  A NULL
    argument comes back as NULL, and any other argument comes back as a
    string with the same contents. *)
Theorem sandbox_intern_string_idempotent w (str : option cstr) :
  sandbox_intern_string w (sandbox_intern_string w str)
  = sandbox_intern_string w str /\
  (str = None <-> sandbox_intern_string w str = None) /\
  (forall s, str = Some s ->
     exists r, sandbox_intern_string w str = Some r /\ c_str r = c_str s).
Proof.
  unfold sandbox_intern_string, sandbox_get_interned_string.
  destruct str as [s|]; [|by intuition; discriminate].
  destruct (get_interned_string (filter_dynamic w) s) as [r|] eqn:Hget.
  - destruct (get_interned_string_Some _ _ _ Hget) as [_ Hstr].
    rewrite (get_interned_string_content _ s r Hstr), Hget.
    split; [done|]. split; [by intuition|].
    intros s' [= <-]. by exists r.
  - rewrite Hget. split; [done|]. split; [by intuition|].
    intros s' [= <-]. by exists s.
Qed.

(** * From registration to the verdict *)





(** * Later installations and the empty registry *)




(** X21: the empty registry.  [sandbox_cfg_new] returns the empty list;
    when a filter is installed for it, the registry stays empty and the
    filter, which holds no rule for a path, gives EPERM to every chmod,
    chown, rename, open and openat. *)
Theorem empty_registry_denies_paths e w :
  (install_syscall_filter e w sandbox_cfg_new).1.1 = 0 ->
  let r := install_syscall_filter e w sandbox_cfg_new in
  exists F,
    kernel_filters r.1.2 = kernel_filters w ++ [F] /\
    r.2 = [] /\
    forall n args,
      In n [chmod; chown; rename; open; openat] ->
      seccomp_verdict F (mk_call (SCMP_SYS n) args) = SCMP_ACT_ERRNO EPERM.
Proof.
  intros Hrc r.
  destruct (install_success e w sandbox_cfg_new Hrc)
    as (Hcopy & F & Hk & Hdef & Hrules).
  fold r in Hk, Hrules, Hcopy. exists F. split; [exact Hk|].
  assert (Hnil : r.2 = []).
  { unfold sandbox_cfg_new in Hcopy. by inversion Hcopy. }
  split; [exact Hnil|]. rewrite Hnil in Hrules.
  intros n args Hn.
  rewrite (verdict_on_paths e [] F _ Hrules Hdef).
  - unfold path_allowed, registered, registered_pair. cbn [call_nr existsb].
    cbn [In] in Hn.
    destruct Hn as [<-|[<-|[<-|[<-|[<-|[]]]]]];
      by rewrite ?andb_false_r.
  - cbn [call_nr In] in *.
    by destruct Hn as [<-|[<-|[<-|[<-|[<-|[]]]]]].
Qed.

Lemma empty_registry_denies_paths_witness :
  let r := install_syscall_filter env_linux initial_world sandbox_cfg_new in
  r.1.1 = 0 /\
  exists F,
    kernel_filters r.1.2 = [F] /\
    seccomp_verdict F (mk_call (SCMP_SYS chmod) [4096; 438])
    = SCMP_ACT_ERRNO EPERM.
Proof.
  intros r. split; [by vm_compute|].
  destruct (empty_registry_denies_paths env_linux initial_world)
    as (F & Hk & _ & Hv); [by vm_compute|].
  exists F. split; [exact Hk|]. apply Hv. by left.
Defined.

(** * A second call of [sandbox_init] *)









